(** * sftpgo, package vfs: configuration records, pipe writer, metadata sweep

    A shallow embedding of [internal/vfs/vfs.go].  Go strings are byte
    strings and are modelled by [string]; Go's [int] and [int64] are modelled
    by [Z], with two's-complement wrap-around written out where the code does
    arithmetic; a nil-able pointer is an [option]; a Go [error] value is an
    [option error], [None] standing for [nil]. *)

From Stdlib Require Import ZArith List String Ascii Bool Lia Arith.
Import ListNotations.
Open Scope string_scope.
Open Scope bool_scope.

(* ------------------------------------------------------------------ *)
(** ** Go strings *)

Module strings.

(** [strings.HasPrefix(s, prefix)] *)
Fixpoint HasPrefix (s prefix : string) : bool :=
  match prefix, s with
  | EmptyString, _ => true
  | String _ _, EmptyString => false
  | String p prefix', String c s' => Ascii.eqb c p && HasPrefix s' prefix'
  end.

(** The bytes of a string, last byte first. *)
Fixpoint rev_bytes (s : string) (acc : list ascii) : list ascii :=
  match s with
  | EmptyString => acc
  | String c s' => rev_bytes s' (c :: acc)
  end.

Fixpoint prefix_bytes (l p : list ascii) : bool :=
  match p, l with
  | [], _ => true
  | _ :: _, [] => false
  | x :: p', c :: l' => Ascii.eqb c x && prefix_bytes l' p'
  end.

(** [strings.HasSuffix(s, suffix)]: the last [len(suffix)] bytes of [s]
    are those of [suffix]. *)
Definition HasSuffix (s suffix : string) : bool :=
  prefix_bytes (rev_bytes s []) (rev_bytes suffix []).

(** [strings.Join(elems, sep)] *)
Fixpoint Join (elems : list string) (sep : string) : string :=
  match elems with
  | [] => ""
  | [e] => e
  | e :: rest => e ++ sep ++ Join rest sep
  end.

End strings.

(** Modelled from the spec: [util.Contains(elems, v)] for string slices
    (internal/util is not among the sources at hand): [v] is one of
    [elems]. *)
Definition util_Contains (elems : list string) (v : string) : bool :=
  existsb (String.eqb v) elems.

(* ------------------------------------------------------------------ *)
(** ** Package [path] of the Go standard library

    [ensureAbsPath] and the key-prefix normalisation call [path.IsAbs],
    [path.Join] and [path.Clean].  They are transcribed from the standard
    library: [Clean] scans the path once, writing into an output buffer
    [out] of length [w]; here the buffer is a list of bytes kept in reverse
    (last written byte first), so that [out.append] is a cons and
    [out.w--] drops the head. *)

Module path.

Definition slash : ascii := "/"%char.
Definition dot : ascii := "."%char.

(** [path.IsAbs(p)]: [len(p) > 0 && p[0] == '/'] *)
Definition IsAbs (p : string) : bool :=
  match p with
  | String c _ => Ascii.eqb c slash
  | EmptyString => false
  end.

(** The [..] case when the buffer can backtrack:
    [out.w--; for out.w > dotdot && out.index(out.w) != '/' { out.w-- }].
    [out] is the buffer before the first decrement. *)
Fixpoint backtrack (out : list ascii) (dotdot : nat) : list ascii :=
  match out with
  | [] => []
  | c :: out' =>
      if (dotdot <? List.length out')%nat && negb (Ascii.eqb c slash)
      then backtrack out' dotdot
      else out'
  end.

(** [for ; r < n && path[r] != '/'; r++ { out.append(path[r]) }]:
    returns the buffer and the unread rest of the path. *)
Fixpoint copy_element (p : string) (out : list ascii) : list ascii * string :=
  match p with
  | EmptyString => (out, EmptyString)
  | String c p' =>
      if Ascii.eqb c slash then (out, p)
      else copy_element p' (c :: out)
  end.

(** [r+k == n || path[r+k] == '/'], on the rest of the path from [r+k]. *)
Definition at_end_or_slash (p : string) : bool :=
  match p with
  | EmptyString => true
  | String c _ => Ascii.eqb c slash
  end.

(** [path[r+1] == '.' && (r+2 == n || path[r+2] == '/')], on
    [path[r+1:]]; gives [path[r+2:]] when it holds. *)
Definition dotdot_rest (rest : string) : option string :=
  match rest with
  | String c2 rest2 =>
      if Ascii.eqb c2 dot && at_end_or_slash rest2 then Some rest2 else None
  | EmptyString => None
  end.

(** [if rooted && out.w != 1 || !rooted && out.w != 0 { out.append('/') }] *)
Definition add_slash (rooted : bool) (out : list ascii) : list ascii :=
  if (rooted && negb (List.length out =? 1)%nat)
     || (negb rooted && negb (List.length out =? 0)%nat)
  then slash :: out else out.

(** The main loop [for r < n { switch ... }] of [Clean]; [p] is
    [path[r:]].  Every iteration consumes at least one byte, so
    [length p] iterations are enough ([clean_loop_total] below); [None]
    is returned only if the fuel runs out first. *)
Fixpoint clean_loop (fuel : nat) (rooted : bool) (p : string)
    (out : list ascii) (dotdot : nat) : option (list ascii) :=
  match p with
  | EmptyString => Some out
  | String c rest =>
      match fuel with
      | O => None
      | S fuel' =>
          if Ascii.eqb c slash then
            (* empty path element *)
            clean_loop fuel' rooted rest out dotdot
          else if Ascii.eqb c dot && at_end_or_slash rest then
            (* . element *)
            clean_loop fuel' rooted rest out dotdot
          else
            match (if Ascii.eqb c dot then dotdot_rest rest else None) with
            | Some rest2 =>
                (* .. element: remove to last / *)
                if (dotdot <? List.length out)%nat then
                  (* can backtrack *)
                  clean_loop fuel' rooted rest2 (backtrack out dotdot) dotdot
                else if negb rooted then
                  (* cannot backtrack, but not rooted, so append .. element *)
                  let out1 := if (0 <? List.length out)%nat then slash :: out else out in
                  let out2 := dot :: dot :: out1 in
                  clean_loop fuel' rooted rest2 out2 (List.length out2)
                else
                  clean_loop fuel' rooted rest2 out dotdot
            | None =>
                (* real path element: add slash if needed, copy element *)
                let '(out2, rest') := copy_element p (add_slash rooted out) in
                clean_loop fuel' rooted rest' out2 dotdot
            end
      end
  end.

(** [out.string()] *)
Definition buffer_string (out : list ascii) : string :=
  string_of_list_ascii (List.rev out).

(** [path.Clean(path)] *)
Definition Clean (p : string) : string :=
  match p with
  | EmptyString => "."
  | String c rest =>
      let rooted := Ascii.eqb c slash in
      let res :=
        if rooted then clean_loop (String.length p) true rest [slash] 1
        else clean_loop (String.length p) false p [] 0 in
      match res with
      | Some [] => "."
      | Some out => buffer_string out
      | None => "."
      end
  end.

(** The buffer built by [Join]: the elements separated by ['/'], where
    empty elements before the first non-empty one are skipped. *)
Fixpoint join_buf (buf : string) (elem : list string) : string :=
  match elem with
  | [] => buf
  | e :: elem' =>
      if negb (String.length buf =? 0)%nat || negb (String.eqb e "") then
        let buf1 := if negb (String.length buf =? 0)%nat then buf ++ "/" else buf in
        join_buf (buf1 ++ e) elem'
      else join_buf buf elem'
  end.

(** [path.Join(elem...)] *)
Definition Join (elem : list string) : string :=
  let size := fold_left (fun n e => (n + String.length e)%nat) elem 0%nat in
  if (size =? 0)%nat then "" else Clean (join_buf "" elem).

(** What the lemmas about [Clean] speak of. *)

(** The first byte written to the buffer. *)
Fixpoint bottom (out : list ascii) : option ascii :=
  match out with
  | [] => None
  | [c] => Some c
  | _ :: out' => bottom out'
  end.

Definition unrooted (out : list ascii) : Prop := bottom out <> Some slash.

Fixpoint has_slash (s : string) : bool :=
  match s with
  | EmptyString => false
  | String c s' => Ascii.eqb c slash || has_slash s'
  end.

(** A path element that [Clean] copies as it is: not empty, not [.],
    not [..], no slash in it. *)
Definition plain_segment (s : string) : bool :=
  negb (String.eqb s "") && negb (String.eqb s ".") && negb (String.eqb s "..")
  && negb (has_slash s).

End path.

(** [ensureAbsPath] *)
Definition ensureAbsPath (name : string) : string :=
  if path.IsAbs name then name else path.Join ["/"; name].

(* ------------------------------------------------------------------ *)
(** ** Errors, panics and fixed-width integers *)

(** An argument handed to [fmt.Errorf] or to the logger; the formatted
    text is not computed, the format and its arguments are kept. *)
Inductive fmt_arg : Type :=
| ArgString (s : string)
| ArgInt (z : Z)
| ArgError (e : error)

(** A non-nil Go [error]. *)
with error : Type :=
| errors_New (text : string)
| fmt_Errorf (format : string) (args : list fmt_arg)
    (** the typed validation error of internal/util, made by
        [util.NewValidationError(fmt.Sprintf(format, cause))] *)
| NewValidationError (format : string) (cause : error)
    (** an error value made outside this package (url.Parse, the KMS,
        the metadata plugin, a storage backend) *)
| ExternalError (text : string).

(** A Go computation that either returns or panics (here: only by
    dereferencing a nil pointer). *)
Inductive go (A : Type) : Type :=
| Returns (a : A)
| Panics.
Arguments Returns {A} a.
Arguments Panics {A}.

Definition go_bind {A B} (m : go A) (k : A -> go B) : go B :=
  match m with
  | Returns a => k a
  | Panics => Panics
  end.

Notation "x <- m ;; k" := (go_bind m (fun x => k))
  (at level 61, m at next level, right associativity).

(** [a && b] and [a || b] evaluate [b] only when [a] does not decide. *)
Definition and_then (a : bool) (b : go bool) : go bool :=
  if a then b else Returns false.

Definition or_else (a : bool) (b : go bool) : go bool :=
  if a then Returns true else b.

Definition go_not (m : go bool) : go bool := x <- m ;; Returns (negb x).

(** Two's-complement wrap-around of a [bits]-wide signed integer. *)
Definition wrap (bits : Z) (x : Z) : Z :=
  ((x + 2 ^ (bits - 1)) mod 2 ^ bits - 2 ^ (bits - 1))%Z.

Definition in_range (bits : Z) (x : Z) : Prop :=
  (- 2 ^ (bits - 1) <= x < 2 ^ (bits - 1))%Z.

(** The width of Go's [int] on the 64-bit platforms the server is built for. *)
Definition int_bits : Z := 64.

(* ------------------------------------------------------------------ *)
(** ** The KMS secret *)

Module kms.

(** Modelled from the spec: the type [kms.Secret] and its methods live in
    internal/kms, which is not among the sources at hand; vfs.go only
    calls them.  The spec gives a secret the states empty, plain,
    encrypted and invalid, a payload, additional data bound to the
    ciphertext, and the predicates below; [Key] stands for what an
    encrypted secret carries besides its payload. *)
Inductive SecretStatus : Type :=
| SecretStatusNone
| SecretStatusPlain
| SecretStatusEncrypted
| SecretStatusInvalid.

Definition SecretStatus_eqb (a b : SecretStatus) : bool :=
  match a, b with
  | SecretStatusNone, SecretStatusNone
  | SecretStatusPlain, SecretStatusPlain
  | SecretStatusEncrypted, SecretStatusEncrypted
  | SecretStatusInvalid, SecretStatusInvalid => true
  | _, _ => false
  end.

Record Secret : Type := mkSecret {
  Status : SecretStatus;
  Payload : string;
  Key : string;
  AdditionalData : string
}.

(** A [*kms.Secret]: [None] is the nil pointer. *)
Definition ptr : Type := option Secret.

(** Modelled from the spec: every method of [*kms.Secret] reads the state
    of the secret behind its receiver, so on a nil receiver it
    dereferences nil and panics (which is why [validate] and [isEqual]
    first rewrite nil secrets to empty ones). *)
Definition deref (p : ptr) : go Secret :=
  match p with
  | Some s => Returns s
  | None => Panics
  end.

(** Modelled from the spec: [kms.NewEmptySecret()], the secret in state
    empty. *)
Definition NewEmptySecret : Secret := mkSecret SecretStatusNone "" "" "".

(** Modelled from the spec: [IsEmpty], the secret is in state empty and
    holds nothing. *)
Definition is_empty (s : Secret) : bool :=
  SecretStatus_eqb (Status s) SecretStatusNone
  && String.eqb (Payload s) "" && String.eqb (Key s) ""
  && String.eqb (AdditionalData s) "".

(** Modelled from the spec: [IsPlain], the secret is in state plain. *)
Definition is_plain (s : Secret) : bool :=
  SecretStatus_eqb (Status s) SecretStatusPlain.

(** Modelled from the spec: [IsEncrypted], the secret is in state
    encrypted. *)
Definition is_encrypted (s : Secret) : bool :=
  SecretStatus_eqb (Status s) SecretStatusEncrypted.

(** Modelled from the spec: [IsValidInput], acceptable input: plain or
    encrypted, with a payload. *)
Definition is_valid_input (s : Secret) : bool :=
  (is_plain s || is_encrypted s) && negb (String.eqb (Payload s) "").

(** Modelled from the spec: [IsValid], well-formed ciphertext:
    acceptable input and, when encrypted, a key. *)
Definition is_valid (s : Secret) : bool :=
  is_valid_input s && (negb (is_encrypted s) || negb (String.eqb (Key s) "")).

(** Modelled from the spec: [IsEqual], equality of all that two secrets
    hold. *)
Definition is_equal (s other : Secret) : bool :=
  SecretStatus_eqb (Status s) (Status other)
  && String.eqb (Payload s) (Payload other)
  && String.eqb (Key s) (Key other)
  && String.eqb (AdditionalData s) (AdditionalData other).

(** The methods, on a pointer. *)
Definition IsEmpty (p : ptr) : go bool := s <- deref p ;; Returns (is_empty s).
Definition IsPlain (p : ptr) : go bool := s <- deref p ;; Returns (is_plain s).
Definition IsEncrypted (p : ptr) : go bool := s <- deref p ;; Returns (is_encrypted s).
Definition IsValidInput (p : ptr) : go bool := s <- deref p ;; Returns (is_valid_input s).
Definition IsValid (p : ptr) : go bool := s <- deref p ;; Returns (is_valid s).
Definition GetPayload (p : ptr) : go string := s <- deref p ;; Returns (Payload s).
Definition IsEqual (p other : ptr) : go bool :=
  s <- deref p ;; o <- deref other ;; Returns (is_equal s o).

(** Modelled from the spec: [s.SetAdditionalData(value)]. *)
Definition SetAdditionalData (s : Secret) (value : string) : Secret :=
  mkSecret (Status s) (Payload s) (Key s) value.

(** Modelled from the spec: what a call of [s.Encrypt()] does to the
    secret depends on the configured provider and its key material; a
    cipher is a function from the secret to the error it returns and the
    secret it leaves. *)
Definition cipher : Type := Secret -> option error * Secret.

End kms.

(* ------------------------------------------------------------------ *)
(** ** QuotaCheckResult *)

Record QuotaCheckResult : Type := {
  HasSpace : bool;
  AllowedSize : Z;   (* int64 *)
  AllowedFiles : Z;  (* int *)
  UsedSize : Z;      (* int64 *)
  UsedFiles : Z;     (* int *)
  QuotaSize : Z;     (* int64 *)
  QuotaFiles : Z     (* int *)
}.

(** Every field holds a value of its Go type. *)
Definition QuotaCheckResult_wf (q : QuotaCheckResult) : Prop :=
  in_range 64 (AllowedSize q) /\ in_range int_bits (AllowedFiles q) /\
  in_range 64 (UsedSize q) /\ in_range int_bits (UsedFiles q) /\
  in_range 64 (QuotaSize q) /\ in_range int_bits (QuotaFiles q).

(** [GetRemainingSize] *)
Definition GetRemainingSize (q : QuotaCheckResult) : Z :=
  if (QuotaSize q >? 0)%Z then wrap 64 (QuotaSize q - UsedSize q) else 0%Z.

(** [GetRemainingFiles] *)
Definition GetRemainingFiles (q : QuotaCheckResult) : Z :=
  if (QuotaFiles q >? 0)%Z then wrap int_bits (QuotaFiles q - UsedFiles q) else 0%Z.

(** [isEqualityCheckModeValid] *)
Definition isEqualityCheckModeValid (mode : Z) : bool :=
  (mode >=? 0)%Z || (mode <=? 1)%Z.

(* ------------------------------------------------------------------ *)
(** ** Backend configurations *)

(** The key-prefix block that the three [validate] methods share word for
    word:
<<
    if c.KeyPrefix != "" {
        if strings.HasPrefix(c.KeyPrefix, "/") {
            return errors.New("key_prefix cannot start with /")
        }
        c.KeyPrefix = path.Clean(c.KeyPrefix)
        if !strings.HasSuffix(c.KeyPrefix, "/") {
            c.KeyPrefix += "/"
        }
    }
>>
    The result is the error returned (if any) and the field afterwards. *)
Definition check_key_prefix (KeyPrefix : string) : option error * string :=
  if negb (String.eqb KeyPrefix "") then
    if strings.HasPrefix KeyPrefix "/" then
      (Some (errors_New "key_prefix cannot start with /"), KeyPrefix)
    else
      let KeyPrefix := path.Clean KeyPrefix in
      if negb (strings.HasSuffix KeyPrefix "/") then (None, KeyPrefix ++ "/")
      else (None, KeyPrefix)
  else (None, KeyPrefix).

(** [if p == nil { p = kms.NewEmptySecret() }] *)
Definition or_empty (p : kms.ptr) : kms.ptr :=
  match p with
  | None => Some kms.NewEmptySecret
  | Some _ => p
  end.

(** [if c.X.IsPlain() { c.X.SetAdditionalData(additionalData); err := c.X.Encrypt() ... }]:
    the secret afterwards, the error of [Encrypt] and the secrets handed to
    the cipher. *)
Definition encrypt_if_plain (Encrypt : kms.cipher) (additionalData : string)
    (p : kms.ptr) : go (option error * kms.ptr * list kms.Secret) :=
  s <- kms.deref p ;;
  if kms.is_plain s then
    let s1 := kms.SetAdditionalData s additionalData in
    let '(err, s2) := Encrypt s1 in
    Returns (err, Some s2, [s1])
  else Returns (None, p, []).

Module S3FsConfig.

(** The fields of [sdk.BaseS3FsConfig] that vfs.go reads. *)
Record Base : Type := mkBase {
  Bucket : string;
  KeyPrefix : string;
  Region : string;
  AccessKey : string;
  RoleARN : string;
  Endpoint : string;
  StorageClass : string;
  ACL : string;
  UploadPartSize : Z;
  UploadConcurrency : Z;
  DownloadPartSize : Z;
  DownloadConcurrency : Z;
  DownloadPartMaxTime : Z;
  UploadPartMaxTime : Z;
  ForcePathStyle : bool
}.

Record t : Type := mk {
  base : Base;
  AccessSecret : kms.ptr
}.

Definition set_AccessSecret (c : t) (p : kms.ptr) : t := mk (base c) p.

Definition set_KeyPrefix (c : t) (v : string) : t :=
  let b := base c in
  mk (mkBase (Bucket b) v (Region b) (AccessKey b) (RoleARN b) (Endpoint b)
        (StorageClass b) (ACL b) (UploadPartSize b) (UploadConcurrency b)
        (DownloadPartSize b) (DownloadConcurrency b) (DownloadPartMaxTime b)
        (UploadPartMaxTime b) (ForcePathStyle b))
     (AccessSecret c).

Definition set_StorageClass_ACL (c : t) (sc acl : string) : t :=
  let b := base c in
  mk (mkBase (Bucket b) (KeyPrefix b) (Region b) (AccessKey b) (RoleARN b) (Endpoint b)
        sc acl (UploadPartSize b) (UploadConcurrency b)
        (DownloadPartSize b) (DownloadConcurrency b) (DownloadPartMaxTime b)
        (UploadPartMaxTime b) (ForcePathStyle b))
     (AccessSecret c).

Definition areMultipartFieldsEqual (c other : t) : bool :=
  let a := base c in
  let b := base other in
  if negb (UploadPartSize a =? UploadPartSize b)%Z then false
  else if negb (UploadConcurrency a =? UploadConcurrency b)%Z then false
  else if negb (DownloadConcurrency a =? DownloadConcurrency b)%Z then false
  else if negb (DownloadPartSize a =? DownloadPartSize b)%Z then false
  else if negb (DownloadPartMaxTime a =? DownloadPartMaxTime b)%Z then false
  else if negb (UploadPartMaxTime a =? UploadPartMaxTime b)%Z then false
  else true.

(** [isSecretEqual]: the receiver is a pointer, so the secret it
    materialises stays in [c]; [other] is a copy. *)
Definition isSecretEqual (c other : t) : go (bool * t) :=
  let c := set_AccessSecret c (or_empty (AccessSecret c)) in
  let other := set_AccessSecret other (or_empty (AccessSecret other)) in
  r <- kms.IsEqual (AccessSecret c) (AccessSecret other) ;;
  Returns (r, c).

(** [isEqual]: the result and the receiver afterwards. *)
Definition isEqual (c other : t) : go (bool * t) :=
  let a := base c in
  let b := base other in
  if negb (String.eqb (Bucket a) (Bucket b)) then Returns (false, c)
  else if negb (String.eqb (KeyPrefix a) (KeyPrefix b)) then Returns (false, c)
  else if negb (String.eqb (Region a) (Region b)) then Returns (false, c)
  else if negb (String.eqb (AccessKey a) (AccessKey b)) then Returns (false, c)
  else if negb (String.eqb (RoleARN a) (RoleARN b)) then Returns (false, c)
  else if negb (String.eqb (Endpoint a) (Endpoint b)) then Returns (false, c)
  else if negb (String.eqb (StorageClass a) (StorageClass b)) then Returns (false, c)
  else if negb (String.eqb (ACL a) (ACL b)) then Returns (false, c)
  else if negb (areMultipartFieldsEqual c other) then Returns (false, c)
  else if negb (Bool.eqb (ForcePathStyle a) (ForcePathStyle b)) then Returns (false, c)
  else isSecretEqual c other.

Definition checkCredentials (c : t) : go (option error) :=
  let AccessKey := AccessKey (base c) in
  c1 <- and_then (String.eqb AccessKey "") (go_not (kms.IsEmpty (AccessSecret c))) ;;
  if c1 then
    Returns (Some (errors_New "access_key cannot be empty with access_secret not empty"))
  else
  empty <- kms.IsEmpty (AccessSecret c) ;;
  if empty && negb (String.eqb AccessKey "") then
    Returns (Some (errors_New "access_secret cannot be empty with access_key not empty"))
  else
  encrypted <- kms.IsEncrypted (AccessSecret c) ;;
  c3 <- and_then encrypted (go_not (kms.IsValid (AccessSecret c))) ;;
  if c3 then
    Returns (Some (errors_New "invalid encrypted access_secret"))
  else
  empty <- kms.IsEmpty (AccessSecret c) ;;
  c4 <- and_then (negb empty) (go_not (kms.IsValidInput (AccessSecret c))) ;;
  if c4 then
    Returns (Some (errors_New "invalid access_secret"))
  else Returns None.

Definition checkPartSizeAndConcurrency (c : t) : option error :=
  let b := base c in
  if negb (UploadPartSize b =? 0)%Z
     && ((UploadPartSize b <? 5)%Z || (UploadPartSize b >? 5000)%Z) then
    Some (errors_New
      "upload_part_size cannot be != 0, lower than 5 (MB) or greater than 5000 (MB)")
  else if (UploadConcurrency b <? 0)%Z || (UploadConcurrency b >? 64)%Z then
    Some (fmt_Errorf "invalid upload concurrency: %v" [ArgInt (UploadConcurrency b)])
  else if negb (DownloadPartSize b =? 0)%Z
     && ((DownloadPartSize b <? 5)%Z || (DownloadPartSize b >? 5000)%Z) then
    Some (errors_New
      "download_part_size cannot be != 0, lower than 5 (MB) or greater than 5000 (MB)")
  else if (DownloadConcurrency b <? 0)%Z || (DownloadConcurrency b >? 64)%Z then
    Some (fmt_Errorf "invalid download concurrency: %v" [ArgInt (DownloadConcurrency b)])
  else None.

Definition isSameResource (c other : t) : bool :=
  if negb (String.eqb (Bucket (base c)) (Bucket (base other))) then false
  else if negb (String.eqb (Endpoint (base c)) (Endpoint (base other))) then false
  else String.eqb (Region (base c)) (Region (base other)).

Section Validate.
(** [strings.TrimSpace] of the Go standard library. *)
Variable TrimSpace : string -> string.

(** [validate]: the error returned and the configuration afterwards
    (the receiver is a pointer; what was normalised before an error is
    kept). *)
Definition validate (c : t) : go (option error * t) :=
  let c := set_AccessSecret c (or_empty (AccessSecret c)) in
  if String.eqb (Bucket (base c)) "" then
    Returns (Some (errors_New "bucket cannot be empty"), c)
  else if String.eqb (Endpoint (base c)) "" && String.eqb (Region (base c)) "" then
    Returns (Some (errors_New "region cannot be empty"), c)
  else
  err <- checkCredentials c ;;
  match err with
  | Some e => Returns (Some e, c)
  | None =>
      match check_key_prefix (KeyPrefix (base c)) with
      | (Some e, _) => Returns (Some e, c)
      | (None, kp) =>
          let c := set_KeyPrefix c kp in
          let c := set_StorageClass_ACL c (TrimSpace (StorageClass (base c)))
                     (TrimSpace (ACL (base c))) in
          Returns (checkPartSizeAndConcurrency c, c)
      end
  end.

(** [ValidateAndEncryptCredentials]: the error, the configuration
    afterwards and the secrets handed to [Encrypt]. *)
Definition ValidateAndEncryptCredentials (Encrypt : kms.cipher)
    (c : t) (additionalData : string) : go (option error * t * list kms.Secret) :=
  r <- validate c ;;
  match r with
  | (Some err, c) =>
      Returns (Some (NewValidationError "could not validate s3config: %v" err), c, [])
  | (None, c) =>
      r <- encrypt_if_plain Encrypt additionalData (AccessSecret c) ;;
      match r with
      | (Some err, p, calls) =>
          Returns (Some (NewValidationError "could not encrypt s3 access secret: %v" err),
                   set_AccessSecret c p, calls)
      | (None, p, calls) => Returns (None, set_AccessSecret c p, calls)
      end
  end.
End Validate.

End S3FsConfig.

Module GCSFsConfig.

(** The fields of [sdk.BaseGCSFsConfig] that vfs.go reads. *)
Record Base : Type := mkBase {
  Bucket : string;
  KeyPrefix : string;
  AutomaticCredentials : Z;
  StorageClass : string;
  ACL : string;
  UploadPartSize : Z;
  UploadPartMaxTime : Z
}.

Record t : Type := mk {
  base : Base;
  Credentials : kms.ptr
}.

Definition set_Credentials (c : t) (p : kms.ptr) : t := mk (base c) p.

Definition set_KeyPrefix (c : t) (v : string) : t :=
  let b := base c in
  mk (mkBase (Bucket b) v (AutomaticCredentials b) (StorageClass b) (ACL b)
        (UploadPartSize b) (UploadPartMaxTime b))
     (Credentials c).

Definition set_StorageClass_ACL (c : t) (sc acl : string) : t :=
  let b := base c in
  mk (mkBase (Bucket b) (KeyPrefix b) (AutomaticCredentials b) sc acl
        (UploadPartSize b) (UploadPartMaxTime b))
     (Credentials c).

Definition set_UploadPartSize (c : t) (v : Z) : t :=
  let b := base c in
  mk (mkBase (Bucket b) (KeyPrefix b) (AutomaticCredentials b) (StorageClass b) (ACL b)
        v (UploadPartMaxTime b))
     (Credentials c).

Definition set_UploadPartMaxTime (c : t) (v : Z) : t :=
  let b := base c in
  mk (mkBase (Bucket b) (KeyPrefix b) (AutomaticCredentials b) (StorageClass b) (ACL b)
        (UploadPartSize b) v)
     (Credentials c).

(** [isEqual]: the result and the receiver afterwards. *)
Definition isEqual (c other : t) : go (bool * t) :=
  let a := base c in
  let b := base other in
  if negb (String.eqb (Bucket a) (Bucket b)) then Returns (false, c)
  else if negb (String.eqb (KeyPrefix a) (KeyPrefix b)) then Returns (false, c)
  else if negb (AutomaticCredentials a =? AutomaticCredentials b)%Z then Returns (false, c)
  else if negb (String.eqb (StorageClass a) (StorageClass b)) then Returns (false, c)
  else if negb (String.eqb (ACL a) (ACL b)) then Returns (false, c)
  else if negb (UploadPartSize a =? UploadPartSize b)%Z then Returns (false, c)
  else if negb (UploadPartMaxTime a =? UploadPartMaxTime b)%Z then Returns (false, c)
  else
    let c := set_Credentials c (or_empty (Credentials c)) in
    let other := set_Credentials other (or_empty (Credentials other)) in
    r <- kms.IsEqual (Credentials c) (Credentials other) ;;
    Returns (r, c).

Definition isSameResource (c other : t) : bool :=
  String.eqb (Bucket (base c)) (Bucket (base other)).

Section Validate.
Variable TrimSpace : string -> string.

(** [validate]: the error returned and the configuration afterwards. *)
Definition validate (c : t) : go (option error * t) :=
  let c :=
    if match Credentials c with None => true | Some _ => false end
       || (AutomaticCredentials (base c) =? 1)%Z
    then set_Credentials c (Some kms.NewEmptySecret) else c in
  if String.eqb (Bucket (base c)) "" then
    Returns (Some (errors_New "bucket cannot be empty"), c)
  else
  match check_key_prefix (KeyPrefix (base c)) with
  | (Some e, _) => Returns (Some e, c)
  | (None, kp) =>
      let c := set_KeyPrefix c kp in
      encrypted <- kms.IsEncrypted (Credentials c) ;;
      c1 <- and_then encrypted (go_not (kms.IsValid (Credentials c))) ;;
      if c1 then Returns (Some (errors_New "invalid encrypted credentials"), c)
      else
      c2 <- and_then (AutomaticCredentials (base c) =? 0)%Z
              (go_not (kms.IsValidInput (Credentials c))) ;;
      if c2 then Returns (Some (errors_New "invalid credentials"), c)
      else
      let c := set_StorageClass_ACL c (TrimSpace (StorageClass (base c)))
                 (TrimSpace (ACL (base c))) in
      let c := if (UploadPartSize (base c) <? 0)%Z then set_UploadPartSize c 0 else c in
      let c := if (UploadPartMaxTime (base c) <? 0)%Z then set_UploadPartMaxTime c 0 else c in
      Returns (None, c)
  end.

(** [ValidateAndEncryptCredentials]: the error, the configuration
    afterwards and the secrets handed to [Encrypt]. *)
Definition ValidateAndEncryptCredentials (Encrypt : kms.cipher)
    (c : t) (additionalData : string) : go (option error * t * list kms.Secret) :=
  r <- validate c ;;
  match r with
  | (Some err, c) =>
      Returns (Some (NewValidationError "could not validate GCS config: %v" err), c, [])
  | (None, c) =>
      r <- encrypt_if_plain Encrypt additionalData (Credentials c) ;;
      match r with
      | (Some err, p, calls) =>
          Returns (Some (NewValidationError "could not encrypt GCS credentials: %v" err),
                   set_Credentials c p, calls)
      | (None, p, calls) => Returns (None, set_Credentials c p, calls)
      end
  end.
End Validate.

End GCSFsConfig.

Definition validAzAccessTier : list string := [""; "Archive"; "Hot"; "Cool"].

(** The double-quote byte, for the one format string that contains it. *)
Definition dquote : string := String (ascii_of_nat 34) "".

Module AzBlobFsConfig.

(** The fields of [sdk.BaseAzBlobFsConfig] that vfs.go reads. *)
Record Base : Type := mkBase {
  Container : string;
  AccountName : string;
  Endpoint : string;
  KeyPrefix : string;
  UploadPartSize : Z;
  UploadConcurrency : Z;
  DownloadPartSize : Z;
  DownloadConcurrency : Z;
  UseEmulator : bool;
  AccessTier : string
}.

Record t : Type := mk {
  base : Base;
  AccountKey : kms.ptr;
  SASURL : kms.ptr
}.

Definition set_AccountKey (c : t) (p : kms.ptr) : t := mk (base c) p (SASURL c).
Definition set_SASURL (c : t) (p : kms.ptr) : t := mk (base c) (AccountKey c) p.

Definition set_KeyPrefix (c : t) (v : string) : t :=
  let b := base c in
  mk (mkBase (Container b) (AccountName b) (Endpoint b) v (UploadPartSize b)
        (UploadConcurrency b) (DownloadPartSize b) (DownloadConcurrency b)
        (UseEmulator b) (AccessTier b))
     (AccountKey c) (SASURL c).

(** [isSecretEqual]: the result and the receiver afterwards. *)
Definition isSecretEqual (c other : t) : go (bool * t) :=
  let c := set_AccountKey c (or_empty (AccountKey c)) in
  let other := set_AccountKey other (or_empty (AccountKey other)) in
  r <- kms.IsEqual (AccountKey c) (AccountKey other) ;;
  Returns (r, c).

(** [isEqual]: the result and the receiver afterwards. *)
Definition isEqual (c other : t) : go (bool * t) :=
  let a := base c in
  let b := base other in
  if negb (String.eqb (Container a) (Container b)) then Returns (false, c)
  else if negb (String.eqb (AccountName a) (AccountName b)) then Returns (false, c)
  else if negb (String.eqb (Endpoint a) (Endpoint b)) then Returns (false, c)
  else
    e <- kms.IsEmpty (SASURL c) ;;
    let c := if e then set_SASURL c (Some kms.NewEmptySecret) else c in
    e <- kms.IsEmpty (SASURL other) ;;
    let other := if e then set_SASURL other (Some kms.NewEmptySecret) else other in
    r <- kms.IsEqual (SASURL c) (SASURL other) ;;
    if negb r then Returns (false, c)
    else if negb (String.eqb (KeyPrefix a) (KeyPrefix b)) then Returns (false, c)
    else if negb (UploadPartSize a =? UploadPartSize b)%Z then Returns (false, c)
    else if negb (UploadConcurrency a =? UploadConcurrency b)%Z then Returns (false, c)
    else if negb (DownloadPartSize a =? DownloadPartSize b)%Z then Returns (false, c)
    else if negb (DownloadConcurrency a =? DownloadConcurrency b)%Z then Returns (false, c)
    else if negb (Bool.eqb (UseEmulator a) (UseEmulator b)) then Returns (false, c)
    else if negb (String.eqb (AccessTier a) (AccessTier b)) then Returns (false, c)
    else isSecretEqual c other.

Definition checkPartSizeAndConcurrency (c : t) : option error :=
  let b := base c in
  if (UploadPartSize b <? 0)%Z || (UploadPartSize b >? 100)%Z then
    Some (fmt_Errorf "invalid upload part size: %v" [ArgInt (UploadPartSize b)])
  else if (UploadConcurrency b <? 0)%Z || (UploadConcurrency b >? 64)%Z then
    Some (fmt_Errorf "invalid upload concurrency: %v" [ArgInt (UploadConcurrency b)])
  else if (DownloadPartSize b <? 0)%Z || (DownloadPartSize b >? 100)%Z then
    Some (fmt_Errorf "invalid download part size: %v" [ArgInt (DownloadPartSize b)])
  else if (DownloadConcurrency b <? 0)%Z || (DownloadConcurrency b >? 64)%Z then
    Some (fmt_Errorf "invalid upload concurrency: %v" [ArgInt (DownloadConcurrency b)])
  else None.

Definition isSameResource (c other : t) : go bool :=
  if negb (String.eqb (AccountName (base c)) (AccountName (base other))) then Returns false
  else if negb (String.eqb (Endpoint (base c)) (Endpoint (base other))) then Returns false
  else
    p <- kms.GetPayload (SASURL c) ;;
    q <- kms.GetPayload (SASURL other) ;;
    Returns (String.eqb p q).

Section Validate.
(** The error of [url.Parse] of the Go standard library. *)
Variable url_Parse : string -> option error.

Definition checkCredentials (c : t) : go (option error) :=
  plain <- kms.IsPlain (SASURL c) ;;
  if plain then
    payload <- kms.GetPayload (SASURL c) ;;
    Returns (url_Parse payload)
  else
  encrypted <- kms.IsEncrypted (SASURL c) ;;
  c2 <- and_then encrypted (go_not (kms.IsValid (SASURL c))) ;;
  if c2 then Returns (Some (errors_New "invalid encrypted sas_url"))
  else
  empty <- kms.IsEmpty (SASURL c) ;;
  if negb empty then Returns None
  else
  c4 <- or_else (String.eqb (AccountName (base c)) "")
          (go_not (kms.IsValidInput (AccountKey c))) ;;
  if c4 then Returns (Some (errors_New "credentials cannot be empty or invalid"))
  else
  encrypted <- kms.IsEncrypted (AccountKey c) ;;
  c5 <- and_then encrypted (go_not (kms.IsValid (AccountKey c))) ;;
  if c5 then Returns (Some (errors_New "invalid encrypted account_key"))
  else Returns None.

(** [validate]: the error returned and the configuration afterwards. *)
Definition validate (c : t) : go (option error * t) :=
  let c := set_AccountKey c (or_empty (AccountKey c)) in
  let c := set_SASURL c (or_empty (SASURL c)) in
  empty <- kms.IsEmpty (SASURL c) ;;
  if empty && String.eqb (Container (base c)) "" then
    Returns (Some (errors_New "container cannot be empty"), c)
  else
  err <- checkCredentials c ;;
  match err with
  | Some e => Returns (Some e, c)
  | None =>
      match check_key_prefix (KeyPrefix (base c)) with
      | (Some e, _) => Returns (Some e, c)
      | (None, kp) =>
          let c := set_KeyPrefix c kp in
          match checkPartSizeAndConcurrency c with
          | Some e => Returns (Some e, c)
          | None =>
              if negb (util_Contains validAzAccessTier (AccessTier (base c))) then
                Returns (Some (fmt_Errorf
                           ("invalid access tier %q, valid values: " ++ dquote
                              ++ "''%v" ++ dquote)
                           [ArgString (AccessTier (base c));
                            ArgString (strings.Join validAzAccessTier ", ")]), c)
              else Returns (None, c)
          end
      end
  end.

(** [ValidateAndEncryptCredentials]: the error, the configuration
    afterwards and the secrets handed to [Encrypt]. *)
Definition ValidateAndEncryptCredentials (Encrypt : kms.cipher)
    (c : t) (additionalData : string) : go (option error * t * list kms.Secret) :=
  r <- validate c ;;
  match r with
  | (Some err, c) =>
      Returns (Some (NewValidationError "could not validate Azure Blob config: %v" err),
               c, [])
  | (None, c) =>
      r <- encrypt_if_plain Encrypt additionalData (AccountKey c) ;;
      match r with
      | (Some err, p, calls) =>
          Returns (Some (NewValidationError
                           "could not encrypt Azure blob account key: %v" err),
                   set_AccountKey c p, calls)
      | (None, p, calls) =>
          let c := set_AccountKey c p in
          r <- encrypt_if_plain Encrypt additionalData (SASURL c) ;;
          match r with
          | (Some err, p, calls') =>
              Returns (Some (NewValidationError
                               "could not encrypt Azure blob SAS URL: %v" err),
                       set_SASURL c p, (calls ++ calls')%list)
          | (None, p, calls') => Returns (None, set_SASURL c p, (calls ++ calls')%list)
          end
      end
  end.
End Validate.

End AzBlobFsConfig.

Module CryptFsConfig.

Record t : Type := mk {
  Passphrase : kms.ptr
}.

(** [isEqual]: the result and the receiver afterwards. *)
Definition isEqual (c other : t) : go (bool * t) :=
  let c := mk (or_empty (Passphrase c)) in
  let other := mk (or_empty (Passphrase other)) in
  r <- kms.IsEqual (Passphrase c) (Passphrase other) ;;
  Returns (r, c).

Definition isSameResource (c other : t) : go bool :=
  p <- kms.GetPayload (Passphrase c) ;;
  q <- kms.GetPayload (Passphrase other) ;;
  Returns (String.eqb p q).

Definition validate (c : t) : go (option error) :=
  c1 <- or_else match Passphrase c with None => true | Some _ => false end
          (kms.IsEmpty (Passphrase c)) ;;
  if c1 then Returns (Some (errors_New "invalid passphrase"))
  else
  c2 <- go_not (kms.IsValidInput (Passphrase c)) ;;
  if c2 then Returns (Some (errors_New "passphrase cannot be empty or invalid"))
  else
  encrypted <- kms.IsEncrypted (Passphrase c) ;;
  c3 <- and_then encrypted (go_not (kms.IsValid (Passphrase c))) ;;
  if c3 then Returns (Some (errors_New "invalid encrypted passphrase"))
  else Returns None.

(** [ValidateAndEncryptCredentials]: the error, the configuration
    afterwards and the secrets handed to [Encrypt]. *)
Definition ValidateAndEncryptCredentials (Encrypt : kms.cipher)
    (c : t) (additionalData : string) : go (option error * t * list kms.Secret) :=
  err <- validate c ;;
  match err with
  | Some err =>
      Returns (Some (NewValidationError "could not validate Crypt fs config: %v" err), c, [])
  | None =>
      r <- encrypt_if_plain Encrypt additionalData (Passphrase c) ;;
      match r with
      | (Some err, p, calls) =>
          Returns (Some (NewValidationError "could not encrypt Crypt fs passphrase: %v" err),
                   mk p, calls)
      | (None, p, calls) => Returns (None, mk p, calls)
      end
  end.

End CryptFsConfig.

(* ------------------------------------------------------------------ *)
(** ** PipeWriter

    [Close] and [Done] run in two goroutines and meet on the unbuffered
    channel [done]: a send and a receive on it complete together.  The
    model is the interleaving of the two method bodies, one statement per
    step, over the fields of the shared [PipeWriter].

    [p.writer.Close()] is a call into pipeat, a library outside the
    repository: it closes the writer end of the pipe and returns once
    the reader end of the pipe has been closed.  The reader end is in the
    hands of the uploader; closing it is a step of the environment, not
    of [Close] or [Done]. *)

Module PipeWriter.

(** The struct: [writer] is kept as the closed-flag of the pipe, set
    when [p.writer.Close()] has returned; the channel [done] is
    unbuffered and holds nothing between steps. *)
Record t : Type := mk {
  writer_closed : bool;
  err : option error
}.

(** [NewPipeWriter] *)
Definition NewPipeWriter : t := mk false None.

(** Where the caller of [Close] stands. *)
Inductive closer : Type :=
| AtWriterClose                      (* before or in p.writer.Close() *)
| AtReceive                          (* blocked in <-p.done *)
| AtReturn                           (* before return p.err *)
| Closed (result : option error).    (* Close has returned result *)

(** Where the caller of [Done(e)] stands. *)
Inductive uploader : Type :=
| AtStore (e : option error)         (* before p.err = err *)
| AtSend                             (* blocked in p.done <- true *)
| DoneReturned.                      (* Done has returned *)

(** [reader_closed]: whether the reader end of the pipe behind
    [p.writer] has been closed. *)
Record config : Type := mkConfig {
  pipe : t;
  reader_closed : bool;
  close_pc : closer;
  done_pc : uploader
}.

(** The steps of [Close] and [Done]. *)
Inductive step : config -> config -> Prop :=
| step_writer_close p d :
    step (mkConfig p true AtWriterClose d)
         (mkConfig (mk true (err p)) true AtReceive d)
| step_store p r c e :
    step (mkConfig p r c (AtStore e))
         (mkConfig (mk (writer_closed p) e) r c AtSend)
| step_rendezvous p r :
    step (mkConfig p r AtReceive AtSend)
         (mkConfig p r AtReturn DoneReturned)
| step_return p r d :
    step (mkConfig p r AtReturn d)
         (mkConfig p r (Closed (err p)) d).

(** The step of the environment: the reader end of the pipe is closed. *)
Inductive reader_step : config -> config -> Prop :=
| step_reader_close p c d :
    reader_step (mkConfig p false c d) (mkConfig p true c d).

(** Runs: steps of [Close] and [Done], and of the environment, in any
    order. *)
Inductive steps : config -> config -> Prop :=
| steps_refl c : steps c c
| steps_step c1 c2 c3 : steps c1 c2 -> step c2 c3 -> steps c1 c3
| steps_reader c1 c2 c3 : steps c1 c2 -> reader_step c2 c3 -> steps c1 c3.

(** The caller is about to call [p.Close()], the uploader [p.Done(e)];
    [reader] says whether the reader end is closed already. *)
Definition start (p : t) (reader : bool) (e : option error) : config :=
  mkConfig p reader AtWriterClose (AtStore e).

(** The enabled steps of [Close] and [Done] as a function, to run the
    model. *)
Definition successors (c : config) : list config :=
  let p := pipe c in
  let r := reader_closed c in
  (match close_pc c with
   | AtWriterClose =>
       if r then [mkConfig (mk true (err p)) r AtReceive (done_pc c)] else []
   | AtReturn => [mkConfig p r (Closed (err p)) (done_pc c)]
   | _ => []
   end)
  ++ (match done_pc c with
      | AtStore e => [mkConfig (mk (writer_closed p) e) r (close_pc c) AtSend]
      | _ => []
      end)
  ++ (match close_pc c, done_pc c with
      | AtReceive, AtSend => [mkConfig p r AtReturn DoneReturned]
      | _, _ => []
      end).

(** The invariant of the runs. *)


End PipeWriter.

(* ------------------------------------------------------------------ *)
(** ** Metadata consistency check

    [fsMetadataCheck] talks to the metadata plugin ([plugin.Handler]), to
    the backend ([fs.getFileNamesInPrefix]) and to the logger.  The calls
    to the plugin and the backend are events answered by the environment;
    log lines are output only.  A program is the tree of its calls. *)

Inductive LogLevel : Type := LevelDebug | LevelInfo | LevelWarn | LevelError.

(** What [fsLog] reads of the filesystem: [fs.Name()] and
    [fs.ConnectionID()]. *)
Record Fs : Type := mkFs {
  Name : string;
  ConnectionID : string
}.

(** A Go map as the list of its entries in the order a [range] visits
    them; the keys of a map are distinct. *)
Definition gomap (V : Type) : Type := list (string * V).

Definition keys {V} (m : gomap V) : list string := map fst m.

(** [_, ok := m[k]] *)
Definition has_key {V} (m : gomap V) (k : string) : bool :=
  existsb (fun kv => String.eqb k (fst kv)) m.

Inductive Event : Type -> Type :=
| HasMetadater : Event bool
| GetMetadataFolders (storageID from : string) (limit : Z)
    : Event (list string * option error)
| GetModificationTimes (storageID folder : string)
    : Event (gomap Z * option error)
| getFileNamesInPrefix (fsPrefix : string)
    : Event (gomap bool * option error)
| RemoveMetadata (storageID filePath : string)
    : Event (option error).

Inductive Prog (R : Type) : Type :=
| Ret (r : R)
| Vis {X : Type} (e : Event X) (k : X -> Prog R)
| Log (fs : Fs) (level : LogLevel) (format : string) (args : list fmt_arg) (k : Prog R).
Arguments Ret {R} r.
Arguments Vis {R X} e k.
Arguments Log {R} fs level format args k.

Fixpoint prog_bind {A B} (p : Prog A) (f : A -> Prog B) : Prog B :=
  match p with
  | Ret a => f a
  | Vis e k => Vis e (fun x => prog_bind (k x) f)
  | Log fs l fmt args k => Log fs l fmt args (prog_bind k f)
  end.

Notation "x <~ p ;; k" := (prog_bind p (fun x => k))
  (at level 61, p at next level, right associativity).
Notation "p ;;; k" := (prog_bind p (fun _ => k))
  (at level 61, right associativity).

Definition call {X} (e : Event X) : Prog X := Vis e Ret.

(** [fsLog(fs, level, format, v...)] *)
Definition fsLog (fs : Fs) (level : LogLevel) (format : string) (args : list fmt_arg)
  : Prog unit := Log fs level format args (Ret tt).

(** The innermost loop:
<<
    for k := range metadataValues {
        if _, ok := fileNames[k]; !ok { ... RemoveMetadata ... }
    }
>> *)
Fixpoint removeMissing (fs : Fs) (storageID folder : string)
    (metadataValues : gomap Z) (fileNames : gomap bool) : Prog unit :=
  match metadataValues with
  | [] => Ret tt
  | (k, _) :: rest =>
      (if negb (has_key fileNames k) then
         let filePath := ensureAbsPath (path.Join [folder; k]) in
         err <~ call (RemoveMetadata storageID filePath) ;;
         match err with
         | Some e =>
             fsLog fs LevelError "unable to remove metadata for missing file %q: %v"
               [ArgString filePath; ArgError e]
         | None =>
             fsLog fs LevelDebug "metadata removed for missing file %q" [ArgString filePath]
         end
       else Ret tt) ;;;
      removeMissing fs storageID folder rest fileNames
  end.

(** [fsPrefix := folder; if !strings.HasSuffix(folder, "/") { fsPrefix += "/" }] *)
Definition fsPrefix_of (folder : string) : string :=
  if negb (strings.HasSuffix folder "/") then folder ++ "/" else folder.

(** The body of [for _, folder := range metadataFolders], after
    [from = folder]: [Some err] when it leaves the function with
    [return err], [None] when the loop goes on. *)
Definition checkFolder (fs : Fs) (storageID keyPrefix folder : string)
  : Prog (option error) :=
  let fsPrefix := fsPrefix_of folder in
  if negb (String.eqb keyPrefix "") && negb (strings.HasPrefix fsPrefix ("/" ++ keyPrefix))
  then
    fsLog fs LevelDebug "skip metadata check for folder %q outside prefix %q"
      [ArgString folder; ArgString keyPrefix] ;;;
    Ret None
  else
    fsLog fs LevelDebug "check metadata for folder %q" [ArgString folder] ;;;
    r <~ call (GetModificationTimes storageID folder) ;;
    let '(metadataValues, err) := r in
    match err with
    | Some e =>
        fsLog fs LevelError "unable to get modification times for folder %q: %v"
          [ArgString folder; ArgError e] ;;;
        Ret (Some e)
    | None =>
        if (List.length metadataValues =? 0)%nat then
          fsLog fs LevelDebug "no metadata for folder %q" [ArgString folder] ;;;
          Ret None
        else
          r <~ call (getFileNamesInPrefix fsPrefix) ;;
          let '(fileNames, err) := r in
          match err with
          | Some e =>
              fsLog fs LevelError "unable to get content for prefix %q: %v"
                [ArgString fsPrefix; ArgError e] ;;;
              Ret (Some e)
          | None =>
              (* now check if we have metadata for a missing object *)
              removeMissing fs storageID folder metadataValues fileNames ;;;
              Ret None
          end
    end.

(** [for _, folder := range metadataFolders { from = folder; ... }]:
    [inr err] when the function returned [err] from inside the loop,
    otherwise [inl from] with the cursor after the last folder. *)
Fixpoint checkFolders (fs : Fs) (storageID keyPrefix : string)
    (metadataFolders : list string) (from : string) : Prog (string + error) :=
  match metadataFolders with
  | [] => Ret (inl from)
  | folder :: rest =>
      r <~ checkFolder fs storageID keyPrefix folder ;;
      match r with
      | Some e => Ret (inr e)
      | None => checkFolders fs storageID keyPrefix rest folder
      end
  end.

(** The paging loop [for { ... }], at most [pages] pages of it: [None]
    when that many pages did not end it, [Some r] when the function
    returned [r]. *)
Fixpoint checkPages (pages : nat) (fs : Fs) (storageID keyPrefix : string)
    (limit : Z) (from : string) : Prog (option (option error)) :=
  match pages with
  | O => Ret None
  | S pages' =>
      r <~ call (GetMetadataFolders storageID from limit) ;;
      let '(metadataFolders, err) := r in
      match err with
      | Some e =>
          fsLog fs LevelError "unable to get folders: %v" [ArgError e] ;;;
          Ret (Some (Some e))
      | None =>
          r <~ checkFolders fs storageID keyPrefix metadataFolders from ;;
          match r with
          | inr e => Ret (Some (Some e))
          | inl from =>
              if (Z.of_nat (List.length metadataFolders) <? limit)%Z then Ret (Some None)
              else checkPages pages' fs storageID keyPrefix limit from
          end
      end
  end.

(** [fsMetadataCheck] *)
Definition fsMetadataCheck (pages : nat) (fs : Fs) (storageID keyPrefix : string)
  : Prog (option (option error)) :=
  has <~ call HasMetadater ;;
  if negb has then Ret (Some None)
  else checkPages pages fs storageID keyPrefix 100 "".

(** *** Running a program *)

(** One entry of a run: a call with its answer, or a log line. *)
Inductive Entry : Type :=
| CHasMetadater (r : bool)
| CGetMetadataFolders (storageID from : string) (limit : Z) (r : list string * option error)
| CGetModificationTimes (storageID folder : string) (r : gomap Z * option error)
| CgetFileNamesInPrefix (fsPrefix : string) (r : gomap bool * option error)
| CRemoveMetadata (storageID filePath : string) (r : option error)
| CLog (fs : Fs) (level : LogLevel) (format : string) (args : list fmt_arg).

Definition entry {X} (e : Event X) : X -> Entry :=
  match e in Event X return X -> Entry with
  | HasMetadater => CHasMetadater
  | GetMetadataFolders sid from limit => CGetMetadataFolders sid from limit
  | GetModificationTimes sid folder => CGetModificationTimes sid folder
  | getFileNamesInPrefix fsPrefix => CgetFileNamesInPrefix fsPrefix
  | RemoveMetadata sid filePath => CRemoveMetadata sid filePath
  end.

(** The environment: the plugin and the backend, with a state of their
    own, answer each call. *)
Definition handler (S : Type) : Type := forall X, Event X -> S -> X * S.

Fixpoint exec {S R} (h : handler S) (p : Prog R) (s : S) : list Entry * R * S :=
  match p with
  | Ret r => ([], r, s)
  | Vis e k =>
      let '(x, s1) := h _ e s in
      let '(t, r, s2) := exec h (k x) s1 in
      (entry e x :: t, r, s2)
  | Log fs l fmt args k =>
      let '(t, r, s2) := exec h k s in
      (CLog fs l fmt args :: t, r, s2)
  end.

(** The calls of [RemoveMetadata] in a run, in order. *)
Fixpoint removals (t : list Entry) : list (string * string) :=
  match t with
  | [] => []
  | CRemoveMetadata sid filePath _ :: t' => (sid, filePath) :: removals t'
  | _ :: t' => removals t'
  end.

(** How many times [RemoveMetadata(storageID, filePath)] was called. *)
Definition times_removed (storageID filePath : string) (t : list Entry) : nat :=
  List.length (filter (fun c => String.eqb (fst c) storageID && String.eqb (snd c) filePath)
                 (removals t)).

(** The error of a failed listing call: [GetMetadataFolders],
    [GetModificationTimes] or [getFileNamesInPrefix]. *)
Definition listing_error (c : Entry) : option error :=
  match c with
  | CGetMetadataFolders _ _ _ (_, err) => err
  | CGetModificationTimes _ _ (_, err) => err
  | CgetFileNamesInPrefix _ (_, err) => err
  | _ => None
  end.

(** The environment [h], except that [RemoveMetadata] returns the error
    [g] chooses; what the call does to the environment is unchanged. *)
Definition with_removal_errors {S} (g : string -> string -> option error)
    (h : handler S) : handler S :=
  fun X (e : Event X) (s : S) =>
    match e in Event X return X * S -> X * S with
    | RemoveMetadata sid filePath => fun r => (g sid filePath, snd r)
    | _ => fun r => r
    end (h X e s).

(** A run without its log lines and without the errors returned by
    [RemoveMetadata]. *)
Fixpoint skeleton (t : list Entry) : list Entry :=
  match t with
  | [] => []
  | CLog _ _ _ _ :: t' => skeleton t'
  | CRemoveMetadata sid filePath _ :: t' => CRemoveMetadata sid filePath None :: skeleton t'
  | c :: t' => c :: skeleton t'
  end.

(** A metadata plugin and backend for tests: fixed folders, metadata and
    listings; the state counts the calls. *)
Record Fixture : Type := mkFixture {
  fx_has_metadater : bool;
  fx_folders : string -> list string * option error;       (* by cursor *)
  fx_modtimes : string -> gomap Z * option error;          (* by folder *)
  fx_files : string -> gomap bool * option error;          (* by prefix *)
  fx_remove : string -> option error                       (* by path *)
}.

Definition fixture_handler (f : Fixture) : handler nat :=
  fun X (e : Event X) (n : nat) =>
    match e in Event X return X * nat with
    | HasMetadater => (fx_has_metadater f, S n)
    | GetMetadataFolders _ from _ => (fx_folders f from, S n)
    | GetModificationTimes _ folder => (fx_modtimes f folder, S n)
    | getFileNamesInPrefix fsPrefix => (fx_files f fsPrefix, S n)
    | RemoveMetadata _ filePath => (fx_remove f filePath, S n)
    end.

(* ------------------------------------------------------------------ *)
(** ** Kinds of filesystems

    The predicates read [fs.Name()] and, for SFTP, ask the backend
    [fs.IsUploadResumeSupported()].  The names of the local, encrypted,
    SFTP and HTTP filesystems are constants of other files of the
    package; they are parameters here. *)

Definition s3fsName : string := "S3Fs".
Definition gcsfsName : string := "GCSFs".
Definition azBlobFsName : string := "AzureBlobFs".

(** What the predicates read of a filesystem. *)
Record Backend : Type := mkBackend {
  backend_fs : Fs;
  IsUploadResumeSupported : bool
}.

Section FsNames.
Variables osFsName cryptFsName sftpFsName httpFsName : string.

(** [IsLocalOsFs] *)
Definition IsLocalOsFs (fs : Backend) : bool :=
  String.eqb (Name (backend_fs fs)) osFsName.

(** [IsCryptOsFs] *)
Definition IsCryptOsFs (fs : Backend) : bool :=
  String.eqb (Name (backend_fs fs)) cryptFsName.

(** [IsSFTPFs] *)
Definition IsSFTPFs (fs : Backend) : bool :=
  strings.HasPrefix (Name (backend_fs fs)) sftpFsName.

(** [IsHTTPFs] *)
Definition IsHTTPFs (fs : Backend) : bool :=
  strings.HasPrefix (Name (backend_fs fs)) httpFsName.

(** [IsBufferedSFTPFs] *)
Definition IsBufferedSFTPFs (fs : Backend) : bool :=
  if negb (IsSFTPFs fs) then false
  else negb (IsUploadResumeSupported fs).

(** [IsLocalOrUnbufferedSFTPFs] *)
Definition IsLocalOrUnbufferedSFTPFs (fs : Backend) : bool :=
  if IsLocalOsFs fs then true
  else if IsSFTPFs fs then IsUploadResumeSupported fs
  else false.

(** [IsLocalOrSFTPFs] *)
Definition IsLocalOrSFTPFs (fs : Backend) : bool :=
  IsLocalOsFs fs || IsSFTPFs fs.

(** [HasTruncateSupport] *)
Definition HasTruncateSupport (fs : Backend) : bool :=
  IsLocalOsFs fs || IsSFTPFs fs || IsHTTPFs fs.

(** [HasOpenRWSupport] *)
Definition HasOpenRWSupport (fs : Backend) : bool :=
  if IsLocalOsFs fs then true
  else if IsSFTPFs fs && IsUploadResumeSupported fs then true
  else false.

(** [IsLocalOrCryptoFs] *)
Definition IsLocalOrCryptoFs (fs : Backend) : bool :=
  IsLocalOsFs fs || IsCryptOsFs fs.

End FsNames.

(** [HasImplicitAtomicUploads] *)
Definition HasImplicitAtomicUploads (fs : Backend) : bool :=
  if strings.HasPrefix (Name (backend_fs fs)) s3fsName then true
  else if strings.HasPrefix (Name (backend_fs fs)) gcsfsName then true
  else if strings.HasPrefix (Name (backend_fs fs)) azBlobFsName then true
  else false.

(** [getMountPath] *)
Definition getMountPath (mountPath : string) : string :=
  if String.eqb mountPath "/" then "" else mountPath.

(* ------------------------------------------------------------------ *)
(** ** Modification times of a folder *)

Section FolderModTimes.
(** [errors.Is(err, metadata.ErrNoSuchObject)]: the sentinel is a value of
    the plugin SDK. *)
Variable is_ErrNoSuchObject : error -> bool.

(** [getFolderModTimes] *)
Definition getFolderModTimes (storageID dirName : string)
  : Prog (gomap Z * option error) :=
  has <~ call HasMetadater ;;
  if has then
    r <~ call (GetModificationTimes storageID (ensureAbsPath dirName)) ;;
    let '(modTimes, err) := r in
    match err with
    | Some e =>
        if negb (is_ErrNoSuchObject e) then Ret (modTimes, Some e)
        else Ret (modTimes, None)
    | None => Ret (modTimes, None)
    end
  else Ret ([], None).

End FolderModTimes.

(* ================================================================== *)
(** * Vocabulary of the properties *)

(** ** Configurations *)

(** Empty, or not starting with a slash and ending with one. *)
Definition key_prefix_ok (kp : string) : Prop :=
  kp = "" \/ (strings.HasPrefix kp "/" = false /\ strings.HasSuffix kp "/" = true).

(** A secret as [validate] sees it after the nil check: empty when nil
    or in state empty. *)
Definition secret_empty (p : kms.ptr) : bool :=
  match p with
  | None => true
  | Some s => kms.is_empty s
  end.

(** A secret that passes the last two checks of [checkCredentials]. *)
Definition secret_well_formed (s : kms.Secret) : bool :=
  kms.is_valid_input s && (negb (kms.is_encrypted s) || kms.is_valid s).

(** ** Runs of the metadata check *)

(** [Run p t r]: against some environment, [p] makes the calls and log
    lines [t] and returns [r]. *)
Fixpoint Run {R} (p : Prog R) (t : list Entry) (r : R) : Prop :=
  match p with
  | Ret r' => t = [] /\ r = r'
  | Vis e k => exists x t', t = entry e x :: t' /\ Run (k x) t' r
  | Log fs l fmt args k => exists t', t = CLog fs l fmt args :: t' /\ Run k t' r
  end.

(** The path handed to [RemoveMetadata] for the key [k] of [folder]. *)
Definition metadata_path (folder k : string) : string :=
  ensureAbsPath (path.Join [folder; k]).

(** The keys of the metadata map that the listing does not have, in the
    order the map is ranged over. *)
Definition missing_keys (metadataValues : gomap Z) (fileNames : gomap bool) : list string :=
  filter (fun k => negb (has_key fileNames k)) (keys metadataValues).

(** The log line that follows a call of [RemoveMetadata]. *)
Definition removal_log (fs : Fs) (filePath : string) (r : option error) : Entry :=
  match r with
  | Some e =>
      CLog fs LevelError "unable to remove metadata for missing file %q: %v"
        [ArgString filePath; ArgError e]
  | None =>
      CLog fs LevelDebug "metadata removed for missing file %q" [ArgString filePath]
  end.

Definition is_removal (c : Entry) : bool :=
  match c with
  | CRemoveMetadata _ _ _ => true
  | _ => false
  end.

(** Every call of [RemoveMetadata] in the run is followed by its log
    line. *)
Inductive well_logged (fs : Fs) : list Entry -> Prop :=
| wl_nil : well_logged fs []
| wl_removal sid p r t :
    well_logged fs t ->
    well_logged fs (CRemoveMetadata sid p r :: removal_log fs p r :: t)
| wl_other c t :
    is_removal c = false -> well_logged fs t -> well_logged fs (c :: t).

Definition no_listing_error (t : list Entry) : Prop :=
  Forall (fun c => listing_error c = None) t.

(** The run ends with a failed listing call and the log line about it. *)
Definition aborted (fs : Fs) (t : list Entry) (e : error) : Prop :=
  exists t1 c fmt args,
    t = (t1 ++ [c; CLog fs LevelError fmt args])%list /\
    no_listing_error t1 /\ listing_error c = Some e.

Definition outcome_ok (fs : Fs) (t : list Entry) (res : option error) : Prop :=
  match res with
  | None => no_listing_error t
  | Some e => aborted fs t e
  end.

Definition folders_result (r : string + error) : option error :=
  match r with
  | inl _ => None
  | inr e => Some e
  end.

(** The error a run of the check returned, if it returned one. *)
Definition returned_error (r : option (option error)) : option error :=
  match r with
  | Some (Some e) => Some e
  | _ => None
  end.

(** Two runs with the same calls, result and final state, up to the
    errors returned by [RemoveMetadata] and the log lines. *)
Definition agree {S R} (x y : list Entry * R * S) : Prop :=
  skeleton (fst (fst x)) = skeleton (fst (fst y))
  /\ snd (fst x) = snd (fst y) /\ snd x = snd y.

Definition unaffected {S R} (g : string -> string -> option error) (h : handler S)
    (p : Prog R) : Prop :=
  forall s, agree (exec (with_removal_errors g h) p s) (exec h p s).

(** The removals that the listings of a run call for: at each listing
    that succeeded, one for each key that the metadata fetched last has
    and the listing has not. *)
Fixpoint expected_removals (last : option (string * string * gomap Z)) (t : list Entry)
  : list (string * string) :=
  match t with
  | [] => []
  | CGetModificationTimes sid folder (mv, _) :: t' =>
      expected_removals (Some (sid, folder, mv)) t'
  | CgetFileNamesInPrefix _ (fn, None) :: t' =>
      (match last with
       | Some (sid, folder, mv) =>
           map (fun k => (sid, metadata_path folder k)) (missing_keys mv fn)
       | None => []
       end ++ expected_removals last t')%list
  | _ :: t' => expected_removals last t'
  end.

(** The removals made are the removals called for, whatever was fetched
    before the run. *)
Definition removals_as_expected (t : list Entry) : Prop :=
  forall last, removals t = expected_removals last t.

(** The metadata fetched last, after a run. *)
Fixpoint last_fetched (last : option (string * string * gomap Z)) (t : list Entry)
  : option (string * string * gomap Z) :=
  match t with
  | [] => last
  | CGetModificationTimes sid folder (mv, _) :: t' => last_fetched (Some (sid, folder, mv)) t'
  | _ :: t' => last_fetched last t'
  end.

(** ** Test data *)

Definition quota_example : QuotaCheckResult :=
  {| HasSpace := true; AllowedSize := 70; AllowedFiles := 7;
     UsedSize := 30; UsedFiles := 3; QuotaSize := 100; QuotaFiles := 10 |}.

(** Stand-ins for [strings.TrimSpace] and [url.Parse] in the examples:
    the texts of the examples have no white space around them and parse
    as URLs. *)
Definition no_trim (s : string) : string := s.

Definition url_ok (s : string) : option error := None.

Definition s3_example : S3FsConfig.t :=
  S3FsConfig.mk
    (S3FsConfig.mkBase "b" "foo/bar" "us-east-1" "" "" "" "" "" 0 0 0 0 0 0 false) None.

Definition s3_key_without_secret : S3FsConfig.t :=
  S3FsConfig.mk
    (S3FsConfig.mkBase "b" "" "x" "AKIA" "" "" "" "" 0 0 0 0 0 0 false) None.

Definition gcs_example : GCSFsConfig.t :=
  GCSFsConfig.mk
    (GCSFsConfig.mkBase "b" "a//b/../c" 1 "" "" 0 0)
    (Some (kms.mkSecret kms.SecretStatusPlain "service account" "" "")).

Definition az_example : AzBlobFsConfig.t :=
  AzBlobFsConfig.mk
    (AzBlobFsConfig.mkBase "c" "a" "" "" 0 0 0 0 false "Hot")
    (Some (kms.mkSecret kms.SecretStatusPlain "account key" "" "")) None.

Definition crypt_example : CryptFsConfig.t :=
  CryptFsConfig.mk (Some (kms.mkSecret kms.SecretStatusPlain "passphrase" "" "")).

Definition cipher_example : kms.cipher :=
  fun s => (None, kms.mkSecret kms.SecretStatusEncrypted (kms.Payload s) "k"
                    (kms.AdditionalData s)).

Definition ErrTimeout : error := ExternalError "timeout".

Definition fs_example : Fs := mkFs "S3Fs" "conn1".

(** The plugin reports the folders /p/a and /p/b and has metadata for x
    and y under /p/a; the backend lists x only. *)
Definition fx_orphan : Fixture := {|
  fx_has_metadater := true;
  fx_folders := fun _ => (["/p/a"; "/p/b"], None);
  fx_modtimes := fun folder =>
    if String.eqb folder "/p/a" then ([("x", 1%Z); ("y", 2%Z)], None) else ([], None);
  fx_files := fun _ => ([("x", true)], None);
  fx_remove := fun _ => None
|}.

(** Metadata for y in the root folder, which the backend does not
    list. *)
Definition fx_root : Fixture := {|
  fx_has_metadater := true;
  fx_folders := fun _ => (["/"], None);
  fx_modtimes := fun _ => ([("y", 2%Z)], None);
  fx_files := fun _ => ([], None);
  fx_remove := fun _ => None
|}.

(** A listing of the second folder fails, and removing an entry fails. *)
Definition fx_errors : Fixture := {|
  fx_has_metadater := true;
  fx_folders := fun _ => (["/p/a"; "/p/b"; "/p/c"], None);
  fx_modtimes := fun folder =>
    if String.eqb folder "/p/a" then ([("x", 1%Z); ("y", 2%Z)], None)
    else ([], Some (ExternalError "plugin unavailable"));
  fx_files := fun _ => ([("x", true)], None);
  fx_remove := fun _ => Some (ExternalError "cannot remove")
|}.

Definition run_errors : list Entry * option (option error) * nat :=
  exec (fixture_handler fx_errors) (fsMetadataCheck 1 fs_example "s" "") 0%nat.

(** ** Accepted configurations, scopes, pages and normal forms *)

(** The secret behind a pointer, the empty secret for nil. *)
Definition secret_or_empty (p : kms.ptr) : kms.Secret :=
  match p with
  | Some s => s
  | None => kms.NewEmptySecret
  end.

(** What [S3FsConfig.checkCredentials] asks of the access key and the
    secret. *)
Definition S3_credentials_ok (AccessKey : string) (s : kms.Secret) : Prop :=
  (AccessKey = "" <-> kms.is_empty s = true) /\
  (kms.is_encrypted s = true -> kms.is_valid s = true) /\
  (kms.is_empty s = false -> kms.is_valid_input s = true).

(** The bounds of [S3FsConfig.checkPartSizeAndConcurrency]. *)
Definition S3_sizes_ok (b : S3FsConfig.Base) : Prop :=
  (S3FsConfig.UploadPartSize b = 0 \/ 5 <= S3FsConfig.UploadPartSize b <= 5000)%Z /\
  (0 <= S3FsConfig.UploadConcurrency b <= 64)%Z /\
  (S3FsConfig.DownloadPartSize b = 0 \/ 5 <= S3FsConfig.DownloadPartSize b <= 5000)%Z /\
  (0 <= S3FsConfig.DownloadConcurrency b <= 64)%Z.

(** The configurations that [S3FsConfig.validate] accepts. *)
Definition S3_acceptable (c : S3FsConfig.t) : Prop :=
  let b := S3FsConfig.base c in
  S3FsConfig.Bucket b <> "" /\
  (S3FsConfig.Endpoint b <> "" \/ S3FsConfig.Region b <> "") /\
  S3_credentials_ok (S3FsConfig.AccessKey b) (secret_or_empty (S3FsConfig.AccessSecret c)) /\
  strings.HasPrefix (S3FsConfig.KeyPrefix b) "/" = false /\
  S3_sizes_ok b.

(** What [S3FsConfig.validate] leaves of an accepted configuration. *)
Definition S3_normalised (TrimSpace : string -> string) (c : S3FsConfig.t) : S3FsConfig.t :=
  let b := S3FsConfig.base c in
  S3FsConfig.mk
    (S3FsConfig.mkBase (S3FsConfig.Bucket b)
       (snd (check_key_prefix (S3FsConfig.KeyPrefix b)))
       (S3FsConfig.Region b) (S3FsConfig.AccessKey b) (S3FsConfig.RoleARN b)
       (S3FsConfig.Endpoint b)
       (TrimSpace (S3FsConfig.StorageClass b)) (TrimSpace (S3FsConfig.ACL b))
       (S3FsConfig.UploadPartSize b) (S3FsConfig.UploadConcurrency b)
       (S3FsConfig.DownloadPartSize b) (S3FsConfig.DownloadConcurrency b)
       (S3FsConfig.DownloadPartMaxTime b) (S3FsConfig.UploadPartMaxTime b)
       (S3FsConfig.ForcePathStyle b))
    (Some (secret_or_empty (S3FsConfig.AccessSecret c))).

(** What [GCSFsConfig.validate] makes of the credentials before it checks
    them. *)
Definition GCS_credentials (c : GCSFsConfig.t) : kms.Secret :=
  if (GCSFsConfig.AutomaticCredentials (GCSFsConfig.base c) =? 1)%Z
  then kms.NewEmptySecret
  else secret_or_empty (GCSFsConfig.Credentials c).

(** The configurations that [GCSFsConfig.validate] accepts. *)
Definition GCS_acceptable (c : GCSFsConfig.t) : Prop :=
  let b := GCSFsConfig.base c in
  GCSFsConfig.Bucket b <> "" /\
  strings.HasPrefix (GCSFsConfig.KeyPrefix b) "/" = false /\
  (kms.is_encrypted (GCS_credentials c) = true -> kms.is_valid (GCS_credentials c) = true) /\
  (GCSFsConfig.AutomaticCredentials b = 0%Z ->
   kms.is_valid_input (GCS_credentials c) = true).

(** What [GCSFsConfig.validate] leaves of an accepted configuration. *)
Definition GCS_normalised (TrimSpace : string -> string) (c : GCSFsConfig.t)
  : GCSFsConfig.t :=
  let b := GCSFsConfig.base c in
  GCSFsConfig.mk
    (GCSFsConfig.mkBase (GCSFsConfig.Bucket b)
       (snd (check_key_prefix (GCSFsConfig.KeyPrefix b)))
       (GCSFsConfig.AutomaticCredentials b)
       (TrimSpace (GCSFsConfig.StorageClass b)) (TrimSpace (GCSFsConfig.ACL b))
       (Z.max 0 (GCSFsConfig.UploadPartSize b))
       (Z.max 0 (GCSFsConfig.UploadPartMaxTime b)))
    (Some (GCS_credentials c)).

(** What [AzBlobFsConfig.checkCredentials] asks. *)
Definition Az_credentials_ok (url_Parse : string -> option error) (AccountName : string)
    (key sas : kms.Secret) : Prop :=
  if kms.is_plain sas then url_Parse (kms.Payload sas) = None
  else
    (kms.is_encrypted sas = true -> kms.is_valid sas = true) /\
    (kms.is_empty sas = true ->
     AccountName <> "" /\ kms.is_valid_input key = true /\
     (kms.is_encrypted key = true -> kms.is_valid key = true)).

(** The bounds of [AzBlobFsConfig.checkPartSizeAndConcurrency]. *)
Definition Az_sizes_ok (b : AzBlobFsConfig.Base) : Prop :=
  (0 <= AzBlobFsConfig.UploadPartSize b <= 100)%Z /\
  (0 <= AzBlobFsConfig.UploadConcurrency b <= 64)%Z /\
  (0 <= AzBlobFsConfig.DownloadPartSize b <= 100)%Z /\
  (0 <= AzBlobFsConfig.DownloadConcurrency b <= 64)%Z.

(** The configurations that [AzBlobFsConfig.validate] accepts. *)
Definition Az_acceptable (url_Parse : string -> option error) (c : AzBlobFsConfig.t)
  : Prop :=
  let b := AzBlobFsConfig.base c in
  let key := secret_or_empty (AzBlobFsConfig.AccountKey c) in
  let sas := secret_or_empty (AzBlobFsConfig.SASURL c) in
  (kms.is_empty sas = true -> AzBlobFsConfig.Container b <> "") /\
  Az_credentials_ok url_Parse (AzBlobFsConfig.AccountName b) key sas /\
  strings.HasPrefix (AzBlobFsConfig.KeyPrefix b) "/" = false /\
  Az_sizes_ok b /\
  In (AzBlobFsConfig.AccessTier b) validAzAccessTier.

(** What [AzBlobFsConfig.validate] leaves of an accepted configuration. *)
Definition Az_normalised (c : AzBlobFsConfig.t) : AzBlobFsConfig.t :=
  AzBlobFsConfig.set_KeyPrefix
    (AzBlobFsConfig.mk (AzBlobFsConfig.base c)
       (Some (secret_or_empty (AzBlobFsConfig.AccountKey c)))
       (Some (secret_or_empty (AzBlobFsConfig.SASURL c))))
    (snd (check_key_prefix (AzBlobFsConfig.KeyPrefix (AzBlobFsConfig.base c)))).

(** The configurations that [CryptFsConfig.validate] accepts. *)
Definition Crypt_acceptable (c : CryptFsConfig.t) : Prop :=
  exists s, CryptFsConfig.Passphrase c = Some s /\
            kms.is_empty s = false /\ kms.is_valid_input s = true /\
            (kms.is_encrypted s = true -> kms.is_valid s = true).

(** A cipher that, when it succeeds, does not leave plain text. *)
Definition cipher_encrypts (Encrypt : kms.cipher) : Prop :=
  forall s, fst (Encrypt s) = None -> kms.is_plain (snd (Encrypt s)) = false.

(** What the cipher makes of a secret of an accepted configuration: the
    error, the secret afterwards and the call, if the secret is plain. *)
Definition encrypted (Encrypt : kms.cipher) (additionalData : string) (s : kms.Secret)
  : option error * kms.Secret * list kms.Secret :=
  if kms.is_plain s then
    let s1 := kms.SetAdditionalData s additionalData in
    (fst (Encrypt s1), snd (Encrypt s1), [s1])
  else (None, s, []).

(** The first three comparisons of [AzBlobFsConfig.isEqual]. *)
Definition Az_same_account (a b : AzBlobFsConfig.t) : Prop :=
  AzBlobFsConfig.Container (AzBlobFsConfig.base a)
  = AzBlobFsConfig.Container (AzBlobFsConfig.base b) /\
  AzBlobFsConfig.AccountName (AzBlobFsConfig.base a)
  = AzBlobFsConfig.AccountName (AzBlobFsConfig.base b) /\
  AzBlobFsConfig.Endpoint (AzBlobFsConfig.base a)
  = AzBlobFsConfig.Endpoint (AzBlobFsConfig.base b).

(** [if s.IsEmpty() { s = kms.NewEmptySecret() }] *)
Definition emptied (s : kms.Secret) : kms.Secret :=
  if kms.is_empty s then kms.NewEmptySecret else s.

(** A prefix inside the key prefix of the filesystem. *)
Definition within_prefix (keyPrefix p : string) : Prop :=
  keyPrefix = "" \/ strings.HasPrefix p ("/" ++ keyPrefix) = true.

(** What a call or log line of a check of [storageID] under [keyPrefix]
    may be. *)
Definition in_scope (fs : Fs) (storageID keyPrefix : string) (c : Entry) : Prop :=
  match c with
  | CHasMetadater _ => True
  | CGetMetadataFolders sid _ limit _ => sid = storageID /\ limit = 100%Z
  | CGetModificationTimes sid folder _ =>
      sid = storageID /\ within_prefix keyPrefix (fsPrefix_of folder)
  | CgetFileNamesInPrefix p _ =>
      strings.HasSuffix p "/" = true /\ within_prefix keyPrefix p
  | CRemoveMetadata sid filePath _ =>
      sid = storageID /\ path.IsAbs filePath = true /\
      exists folder k, filePath = metadata_path folder k /\
                       within_prefix keyPrefix (fsPrefix_of folder)
  | CLog fs' _ _ _ => fs' = fs
  end.

(** The calls of [GetMetadataFolders] in a run: the cursor, and the
    folders and the error returned. *)
Fixpoint page_calls (t : list Entry) : list (string * list string * option error) :=
  match t with
  | [] => []
  | CGetMetadataFolders _ from _ (folders, err) :: t' => (from, folders, err) :: page_calls t'
  | _ :: t' => page_calls t'
  end.

(** A page that came without error and with [limit] folders or more. *)
Definition full_page (limit : Z) (pc : string * list string * option error) : Prop :=
  snd pc = None /\ (limit <= Z.of_nat (List.length (snd (fst pc))))%Z.

(** The pages are asked for one after the other: each with the last
    folder of the page before as cursor, and only after a full page. *)
Fixpoint paging_ok (limit : Z) (cursor : string)
    (pcs : list (string * list string * option error)) : Prop :=
  match pcs with
  | [] => True
  | pc :: rest =>
      fst (fst pc) = cursor /\
      (rest = [] \/ full_page limit pc) /\
      paging_ok limit (last (snd (fst pc)) cursor) rest
  end.

(** The run ended on a page that came without error and short. *)
Definition ended_on_short_page (limit : Z) (t : list Entry) : Prop :=
  exists pcs from folders,
    page_calls t = (pcs ++ [(from, folders, None)])%list /\
    (Z.of_nat (List.length folders) < limit)%Z.

(** [if out.w != 0 { out.append('/') }] and then the bytes of the
    element [e]: what [Clean] does with an element it keeps, in a path
    that is not rooted. *)
Definition push (out : list ascii) (e : string) : list ascii :=
  strings.rev_bytes e (path.add_slash false out).

(** The buffer that holds [k] elements [..] and then the elements
    [segs]. *)
Definition normal_buffer (k : nat) (segs : list string) : list ascii :=
  fold_left push (repeat ".." k ++ segs) [].

(** The elements, each followed by a slash. *)
Fixpoint trailing (els : list string) : string :=
  match els with
  | [] => ""
  | e :: rest => e ++ "/" ++ trailing rest
  end.

(** The buffer holds [k] elements [..] and then plain elements, and
    [dotdot] marks the end of the [..] elements. *)
Definition normal (out : list ascii) (dd : nat) : Prop :=
  exists k segs,
    forallb path.plain_segment segs = true /\
    out = normal_buffer k segs /\
    dd = List.length (normal_buffer k []).

(** A listing of the backend that succeeded. *)
Definition is_listing (c : Entry) : bool :=
  match c with
  | CgetFileNamesInPrefix _ (_, None) => true
  | _ => false
  end.

(* ================================================================== *)
(** * Properties *)

(** ** Go's table of tests for [path.Clean] and [path.Join] *)

Example Clean_table :
  map path.Clean
    [""; "abc"; "abc/def"; "a/b/c"; "."; ".."; "../.."; "../../abc"; "/abc"; "/";
     "abc/"; "abc/def/"; "a/b/c/"; "./"; "../"; "../../"; "/abc/";
     "abc//def//ghi"; "//abc"; "///abc"; "//abc//"; "abc//";
     "abc/./def"; "/./abc/def"; "abc/.";
     "abc/def/ghi/../jkl"; "abc/def/../ghi/../jkl"; "abc/def/.."; "abc/def/../..";
     "/abc/def/../.."; "abc/def/../../.."; "/abc/def/../../..";
     "abc/def/../../../ghi/jkl/../../../mno";
     "abc/./../def"; "abc//./../def"; "abc/../../././../def"]
  = ["."; "abc"; "abc/def"; "a/b/c"; "."; ".."; "../.."; "../../abc"; "/abc"; "/";
     "abc"; "abc/def"; "a/b/c"; "."; ".."; "../.."; "/abc";
     "abc/def/ghi"; "/abc"; "/abc"; "/abc"; "abc";
     "abc/def"; "/abc/def"; "abc";
     "abc/def/jkl"; "abc/jkl"; "abc"; ".";
     "/"; ".."; "/";
     "../../mno";
     "def"; "def"; "../../def"].
Proof. reflexivity. Qed.

Example Join_table :
  map path.Join
    [[]; [""]; ["a"]; ["a"; ""]; ["a"; "b"]; ["a"; "b/"]; ["a/"; ""];
     [""; ""]; ["/"; "a"]; ["/"; ""]; ["a"; "/"]; ["/p/a/"; "y"]; [""; "b"]]
  = [""; ""; "a"; "a"; "a/b"; "a/b"; "a";
     ""; "/a"; "/"; "a"; "/p/a/y"; "b"].
Proof. reflexivity. Qed.

Example ensureAbsPath_ex1 : ensureAbsPath "a/b" = "/a/b". Proof. reflexivity. Qed.
Example ensureAbsPath_ex2 : ensureAbsPath "a/" = "/a". Proof. reflexivity. Qed.
Example ensureAbsPath_ex3 : ensureAbsPath "/a//b/" = "/a//b/". Proof. reflexivity. Qed.

(** ** Strings *)

Lemma HasPrefix_empty (s : string) : strings.HasPrefix s "" = true.
Proof. destruct s; reflexivity. Qed.

Lemma HasPrefix_slash (s : string) : strings.HasPrefix s "/" = path.IsAbs s.
Proof.
  destruct s as [|c s]; [reflexivity|].
  cbn [strings.HasPrefix path.IsAbs]. rewrite HasPrefix_empty.
  apply andb_true_r.
Qed.

Lemma rev_bytes_spec (s : string) (acc : list ascii) :
  strings.rev_bytes s acc = (rev (list_ascii_of_string s) ++ acc)%list.
Proof.
  revert acc; induction s as [|c s IH]; intro acc; simpl; [reflexivity|].
  rewrite IH, <- app_assoc. reflexivity.
Qed.

Lemma rev_bytes_app (s u : string) (acc : list ascii) :
  strings.rev_bytes (s ++ u) acc = strings.rev_bytes u (strings.rev_bytes s acc).
Proof.
  revert acc; induction s as [|c s IH]; intro acc; simpl; auto.
Qed.

Lemma HasSuffix_app_slash (s : string) : strings.HasSuffix (s ++ "/") "/" = true.
Proof.
  unfold strings.HasSuffix. rewrite rev_bytes_app. simpl.
  destruct (strings.rev_bytes s []); reflexivity.
Qed.

Lemma IsAbs_app (s u : string) : s <> "" -> path.IsAbs (s ++ u) = path.IsAbs s.
Proof. destruct s; [congruence | reflexivity]. Qed.

(** ** path.Clean *)

Module CleanFacts.
Import path.

Lemma bottom_cons c out : out <> [] -> bottom (c :: out) = bottom out.
Proof. destruct out; [congruence | reflexivity]. Qed.

Lemma bottom_rev out : bottom out = hd_error (rev out).
Proof.
  induction out as [|c out IH]; [reflexivity|].
  destruct out as [|d out]; [reflexivity|].
  rewrite bottom_cons by discriminate. rewrite IH.
  simpl. destruct (rev out ++ [d])%list eqn:E; [|reflexivity].
  destruct (rev out); discriminate.
Qed.

Lemma backtrack_suffix out dd : exists pre, out = (pre ++ backtrack out dd)%list.
Proof.
  induction out as [|c out [pre IH]]; [exists []; reflexivity|].
  simpl. destruct ((dd <? List.length out)%nat && negb (Ascii.eqb c slash)).
  - exists (c :: pre). simpl. f_equal. exact IH.
  - exists [c]. reflexivity.
Qed.

Lemma bottom_suffix pre out : out <> [] -> bottom (pre ++ out) = bottom out.
Proof.
  intro H. induction pre as [|c pre IH]; [reflexivity|].
  simpl app. rewrite bottom_cons; [exact IH|].
  destruct pre; simpl; [exact H | discriminate].
Qed.

Lemma unrooted_nil : unrooted [].
Proof. discriminate. Qed.

Lemma unrooted_cons c out :
  unrooted out -> (out = [] -> c <> slash) -> unrooted (c :: out).
Proof.
  unfold unrooted. intros H Hc. destruct out as [|d out].
  - simpl. intro E. apply Hc; congruence.
  - rewrite bottom_cons by discriminate. exact H.
Qed.

Lemma unrooted_backtrack out dd : unrooted out -> unrooted (backtrack out dd).
Proof.
  intro H. destruct (backtrack_suffix out dd) as [pre E].
  destruct (backtrack out dd) as [|c b] eqn:B; [apply unrooted_nil|].
  unfold unrooted in *. rewrite E in H.
  rewrite bottom_suffix in H by discriminate. exact H.
Qed.

Lemma unrooted_copy_element p out :
  unrooted out -> unrooted (fst (copy_element p out)).
Proof.
  revert out; induction p as [|c p IH]; intros out H; simpl; [exact H|].
  destruct (Ascii.eqb c slash) eqn:E; [exact H|].
  apply IH. apply unrooted_cons; [exact H|].
  intros _ ->. unfold slash in E. rewrite Ascii.eqb_refl in E. discriminate.
Qed.

Lemma unrooted_add_slash out : unrooted out -> unrooted (add_slash false out).
Proof.
  intro H. unfold add_slash. simpl.
  destruct out as [|c out]; simpl; [exact H|].
  apply unrooted_cons; [exact H | discriminate].
Qed.

Lemma dot_not_slash : dot <> slash.
Proof. discriminate. Qed.

(** A path that is not rooted is cleaned to a buffer that does not
    begin with a slash. *)
Lemma clean_loop_unrooted fuel : forall p out dd r,
  unrooted out -> clean_loop fuel false p out dd = Some r -> unrooted r.
Proof.
  induction fuel as [|fuel IH]; intros p out dd r Hout Hr.
  - destruct p; simpl in Hr; [congruence | discriminate].
  - destruct p as [|c rest]; simpl in Hr; [congruence|].
    destruct (Ascii.eqb c slash) eqn:Ec; [eapply IH; eauto|].
    destruct (Ascii.eqb c dot && at_end_or_slash rest); [eapply IH; eauto|].
    destruct (if Ascii.eqb c dot then dotdot_rest rest else None) as [rest2|].
    + destruct (dd <? List.length out)%nat.
      * eapply IH; [|exact Hr]. apply unrooted_backtrack; exact Hout.
      * simpl in Hr. eapply IH; [|exact Hr].
        apply unrooted_cons; [|discriminate].
        apply unrooted_cons.
        -- destruct out; simpl; [exact Hout|].
           apply unrooted_cons; [exact Hout | discriminate].
        -- intros _. exact dot_not_slash.
    + pose proof (unrooted_copy_element (String c rest) (add_slash false out)
                    (unrooted_add_slash out Hout)) as Hc.
      simpl in Hc. rewrite Ec in Hc.
      destruct (copy_element rest (c :: add_slash false out)) as [out2 rest'].
      eapply IH; [|exact Hr]. exact Hc.
Qed.

Lemma buffer_string_nonempty c out : buffer_string (c :: out) <> "".
Proof.
  unfold buffer_string. simpl. destruct (rev out); discriminate.
Qed.

Lemma IsAbs_buffer_string out :
  unrooted out -> IsAbs (buffer_string out) = false.
Proof.
  unfold unrooted, buffer_string. rewrite bottom_rev.
  destruct (rev out) as [|c l]; simpl; [reflexivity|].
  intro H. destruct (Ascii.eqb_spec c slash) as [->|]; [congruence | reflexivity].
Qed.

(** [Clean] of a path that does not start with a slash is not empty and
    does not start with a slash. *)
Lemma Clean_unrooted p :
  IsAbs p = false -> Clean p <> "" /\ IsAbs (Clean p) = false.
Proof.
  intro Hp. destruct p as [|c rest]; [split; [discriminate | reflexivity]|].
  unfold Clean. simpl in Hp. rewrite Hp.
  destruct (clean_loop (String.length (String c rest)) false (String c rest) [] 0)
    as [[|d out]|] eqn:E; try (split; [discriminate | reflexivity]).
  split; [apply buffer_string_nonempty|].
  apply IsAbs_buffer_string. eapply clean_loop_unrooted; [|exact E]. apply unrooted_nil.
Qed.

End CleanFacts.

(** *** Fuel and clean paths *)

Module CleanTotal.
Import path.

Lemma copy_element_length p : forall out,
  (String.length (snd (copy_element p out)) <= String.length p)%nat.
Proof.
  induction p as [|c p IH]; intro out; simpl; [lia|].
  destruct (Ascii.eqb c slash); simpl; [lia|].
  specialize (IH (c :: out)). lia.
Qed.

Lemma dotdot_rest_length rest rest2 :
  dotdot_rest rest = Some rest2 -> (String.length rest2 < String.length rest)%nat.
Proof.
  destruct rest as [|c2 r]; simpl; [discriminate|].
  destruct (Ascii.eqb c2 dot && at_end_or_slash r); [|discriminate].
  intro H; injection H as <-. lia.
Qed.

(** [length p] iterations end the loop of [Clean]. *)
Lemma clean_loop_total fuel : forall rooted p out dd,
  (String.length p <= fuel)%nat ->
  exists r, clean_loop fuel rooted p out dd = Some r.
Proof.
  induction fuel as [|fuel IH]; intros rooted p out dd Hlen.
  - destruct p; simpl in *; [eexists; reflexivity | lia].
  - destruct p as [|c rest]; simpl in *; [eexists; reflexivity|].
    destruct (Ascii.eqb c slash) eqn:Ec; [apply IH; lia|].
    destruct (Ascii.eqb c dot && at_end_or_slash rest); [apply IH; lia|].
    destruct (if Ascii.eqb c dot then dotdot_rest rest else None) as [rest2|] eqn:Ed.
    + assert (String.length rest2 < String.length rest)%nat.
      { destruct (Ascii.eqb c dot); [|discriminate].
        apply dotdot_rest_length; exact Ed. }
      destruct (dd <? List.length out)%nat; [apply IH; lia|].
      destruct (negb rooted); apply IH; lia.
    + pose proof (copy_element_length rest (c :: add_slash rooted out)) as Hc.
      destruct (copy_element rest (c :: add_slash rooted out)) as [out2 rest'].
      simpl in Hc. apply IH; lia.
Qed.

(** So [Clean] never takes its out-of-fuel branch. *)
Lemma Clean_runs c rest :
  exists out,
    (if Ascii.eqb c slash
     then clean_loop (String.length (String c rest)) true rest [slash] 1
     else clean_loop (String.length (String c rest)) false (String c rest) [] 0)
    = Some out.
Proof.
  destruct (Ascii.eqb c slash); apply clean_loop_total; simpl; lia.
Qed.

Lemma copy_element_segment seg : forall more out,
  has_slash seg = false -> at_end_or_slash more = true ->
  copy_element (seg ++ more) out = (strings.rev_bytes seg out, more).
Proof.
  induction seg as [|c seg IH]; intros more out Hs Hm; simpl in *.
  - destruct more as [|m more]; simpl in *; [reflexivity|]. rewrite Hm. reflexivity.
  - apply orb_false_elim in Hs as [Hc Hs]. rewrite Hc. apply IH; assumption.
Qed.

Lemma at_end_or_slash_app seg more :
  seg <> "" -> has_slash seg = false -> at_end_or_slash (seg ++ more) = false.
Proof.
  destruct seg as [|c seg]; [congruence|]. simpl.
  intros _ H. apply orb_false_elim in H as [H _]. exact H.
Qed.

(** One iteration on a plain segment takes the default case and copies
    the segment. *)
Lemma clean_loop_segment fuel seg more out dd :
  plain_segment seg = true -> at_end_or_slash more = true ->
  clean_loop (S fuel) true (seg ++ more) out dd
  = clean_loop fuel true more (strings.rev_bytes seg (add_slash true out)) dd.
Proof.
  unfold plain_segment. intros Hp Hm.
  apply andb_prop in Hp as [Hp Hslash]. apply andb_prop in Hp as [Hp Hdd].
  apply andb_prop in Hp as [Hne Hd].
  apply negb_true_iff in Hslash, Hdd, Hd, Hne.
  pose proof (copy_element_segment seg more (add_slash true out) Hslash Hm) as Hcopy.
  destruct seg as [|c seg]; [discriminate|].
  simpl in Hslash. apply orb_false_elim in Hslash as [Hc Hs].
  cbn [append clean_loop]. rewrite Hc.
  assert (H2 : Ascii.eqb c dot && at_end_or_slash (seg ++ more) = false).
  { destruct (Ascii.eqb_spec c dot) as [->|]; [|reflexivity]. simpl.
    apply at_end_or_slash_app; [|exact Hs].
    intros ->. discriminate. }
  rewrite H2.
  assert (H3 : (if Ascii.eqb c dot then dotdot_rest (seg ++ more) else None) = None).
  { destruct (Ascii.eqb_spec c dot) as [->|]; [|reflexivity].
    destruct seg as [|c2 seg]; [discriminate|].
    cbn [append dotdot_rest].
    destruct (Ascii.eqb_spec c2 dot) as [->|]; [|reflexivity].
    simpl in Hs. rewrite at_end_or_slash_app; [reflexivity | | exact Hs].
    intros ->. discriminate. }
  rewrite H3. cbn [append] in Hcopy. rewrite Hcopy. reflexivity.
Qed.

Lemma rev_bytes_length s : forall acc,
  List.length (strings.rev_bytes s acc) = (String.length s + List.length acc)%nat.
Proof.
  induction s as [|c s IH]; intro acc; simpl; [reflexivity|].
  rewrite IH. simpl. lia.
Qed.

Lemma String_length_append s u :
  String.length (s ++ u) = (String.length s + String.length u)%nat.
Proof. induction s; simpl; auto. Qed.

Lemma add_slash_long out :
  (2 <= List.length out)%nat -> add_slash true out = slash :: out.
Proof.
  intro H. unfold add_slash. cbn [andb negb orb].
  destruct (Nat.eqb_spec (List.length out) 1); [lia | reflexivity].
Qed.

Lemma add_slash_nonempty out : (1 <= List.length (add_slash true out))%nat.
Proof.
  unfold add_slash. cbn [andb negb orb].
  destruct (Nat.eqb_spec (List.length out) 1); simpl; lia.
Qed.

(** A non-empty sequence of plain segments is copied with its
    separators. *)
Lemma clean_loop_segments segs : forall fuel out dd,
  segs <> [] -> forallb plain_segment segs = true ->
  (String.length (strings.Join segs "/") <= fuel)%nat ->
  clean_loop fuel true (strings.Join segs "/") out dd
  = Some (strings.rev_bytes (strings.Join segs "/") (add_slash true out)).
Proof.
  induction segs as [|seg segs IH]; intros fuel out dd Hne Hall Hlen; [congruence|].
  simpl in Hall. apply andb_prop in Hall as [Hseg Hall].
  assert (Hseg_ne : seg <> "").
  { intros ->. discriminate. }
  assert (Hseg_len : (1 <= String.length seg)%nat).
  { destruct seg; [congruence | simpl; lia]. }
  destruct segs as [|seg2 segs].
  - cbn [strings.Join] in *.
    destruct fuel as [|fuel]; [exfalso; lia|].
    replace seg with (seg ++ "") at 1 by (clear; induction seg; simpl; congruence).
    rewrite clean_loop_segment by (auto; reflexivity).
    destruct fuel; reflexivity.
  - change (strings.Join (seg :: seg2 :: segs) "/")
      with (seg ++ "/" ++ strings.Join (seg2 :: segs) "/") in *.
    rewrite String_length_append in Hlen.
    cbn [String.length append] in Hlen.
    destruct fuel as [|fuel]; [exfalso; lia|].
    rewrite clean_loop_segment by (auto; reflexivity).
    destruct fuel as [|fuel]; [exfalso; lia|].
    change ("/" ++ strings.Join (seg2 :: segs) "/")
      with (String slash (strings.Join (seg2 :: segs) "/")).
    cbn [clean_loop]. rewrite Ascii.eqb_refl.
    rewrite IH; [| discriminate | exact Hall | lia].
    assert (HX : add_slash true (strings.rev_bytes seg (add_slash true out))
                 = slash :: strings.rev_bytes seg (add_slash true out)).
    { apply add_slash_long. rewrite rev_bytes_length.
      pose proof (add_slash_nonempty out). lia. }
    rewrite HX, rev_bytes_app. reflexivity.
Qed.

Lemma string_of_rev_bytes s :
  string_of_list_ascii (rev (strings.rev_bytes s [slash])) = String slash s.
Proof.
  rewrite rev_bytes_spec, rev_app_distr, rev_involutive. simpl.
  rewrite string_of_list_ascii_of_string. reflexivity.
Qed.

(** [Clean] leaves a rooted path of plain segments as it is. *)
Lemma Clean_plain segs :
  segs <> [] -> forallb plain_segment segs = true ->
  Clean ("/" ++ strings.Join segs "/") = "/" ++ strings.Join segs "/".
Proof.
  intros Hne Hall. unfold Clean. cbn [append]. rewrite Ascii.eqb_refl.
  rewrite clean_loop_segments; [| exact Hne | exact Hall | simpl; lia].
  unfold add_slash. cbn.
  destruct (strings.rev_bytes (strings.Join segs "/") [slash]) as [|a l] eqn:E.
  - pose proof (rev_bytes_length (strings.Join segs "/") [slash]) as L.
    rewrite E in L. simpl in L. lia.
  - rewrite <- E. unfold buffer_string. apply string_of_rev_bytes.
Qed.

End CleanTotal.

(* ------------------------------------------------------------------ *)
(** ** ensureAbsPath *)

Lemma Join_root (name : string) : path.Join ["/"; name] = path.Clean ("/" ++ name).
Proof.
  unfold path.Join. cbn -[path.Clean].
  unfold path.Clean. cbn. reflexivity.
Qed.

(** C6, as stated, fails: a relative name with a trailing slash is not
    turned into "/" followed by the name; [path.Join] cleans it. *)
Lemma ensureAbsPath_counterexample :
  path.IsAbs "a/" = false /\ ensureAbsPath "a/" = "/a" /\ ensureAbsPath "a/" <> "/" ++ "a/".
Proof. repeat split. discriminate. Qed.

(** C6 (amended): [ensureAbsPath name] is [name] itself when [name] starts
    with a slash, and otherwise [path.Join("/", name)], that is
    [path.Clean] of "/" followed by [name]; this is "/" followed by [name]
    whenever [name] is made of plain segments (not empty, not [.], not
    [..]) separated by single slashes. *)
Theorem ensureAbsPath_spec (name : string) :
  (strings.HasPrefix name "/" = true -> ensureAbsPath name = name) /\
  (strings.HasPrefix name "/" = false ->
     ensureAbsPath name = path.Clean ("/" ++ name)) /\
  (forall segs, segs <> [] -> forallb path.plain_segment segs = true ->
     name = strings.Join segs "/" -> ensureAbsPath name = "/" ++ name).
Proof.
  rewrite HasPrefix_slash. unfold ensureAbsPath.
  split; [intros ->; reflexivity|].
  split; [intros ->; apply Join_root|].
  intros segs Hne Hall ->.
  assert (Hrel : path.IsAbs (strings.Join segs "/") = false).
  { destruct segs as [|seg segs]; [congruence|].
    simpl in Hall. apply andb_prop in Hall as [Hseg _].
    unfold path.plain_segment in Hseg.
    apply andb_prop in Hseg as [Hseg Hslash]. apply andb_prop in Hseg as [Hseg _].
    apply andb_prop in Hseg as [Hne' _].
    destruct seg as [|c seg]; [discriminate|].
    simpl in Hslash. apply negb_true_iff, orb_false_elim in Hslash as [Hc _].
    destruct segs; simpl; exact Hc. }
  rewrite Hrel, Join_root. apply CleanTotal.Clean_plain; assumption.
Qed.

Lemma ensureAbsPath_spec_witness :
  ensureAbsPath "/p//a" = "/p//a" /\
  ensureAbsPath "a/../b/" = path.Clean ("/" ++ "a/../b/") /\
  ensureAbsPath "p/a/y" = "/" ++ "p/a/y".
Proof.
  split; [|split].
  - apply (proj1 (ensureAbsPath_spec "/p//a")). reflexivity.
  - apply (proj1 (proj2 (ensureAbsPath_spec "a/../b/"))). reflexivity.
  - apply (proj2 (proj2 (ensureAbsPath_spec "p/a/y")) ["p"; "a"; "y"]).
    + discriminate.
    + reflexivity.
    + reflexivity.
Defined.

(* ------------------------------------------------------------------ *)
(** ** isEqualityCheckModeValid *)

Lemma isEqualityCheckModeValid_always (mode : Z) : isEqualityCheckModeValid mode = true.
Proof.
  unfold isEqualityCheckModeValid.
  destruct (Z.geb_spec mode 0) as [H|H]; [reflexivity|].
  destruct (Z.leb_spec mode 1); [reflexivity | lia].
Qed.

(** C5: the code accepts mode 2, which is outside the set {0, 1}: the
    disjunction [mode >= 0 || mode <= 1] holds of every integer. *)
Theorem isEqualityCheckModeValid_accepts_2 :
  isEqualityCheckModeValid 2 = true /\ isEqualityCheckModeValid (-1) = true.
Proof. split; reflexivity. Qed.

(* ------------------------------------------------------------------ *)
(** ** QuotaCheckResult *)

Lemma wrap_in_range (x : Z) : in_range 64 x -> wrap 64 x = x.
Proof.
  unfold in_range, wrap. intro H.
  change (2 ^ (64 - 1))%Z with 9223372036854775808%Z in *.
  change (2 ^ 64)%Z with 18446744073709551616%Z.
  rewrite Z.mod_small; lia.
Qed.

Lemma wrap_add_sub (a b : Z) : wrap 64 (wrap 64 (a - b) + b) = wrap 64 a.
Proof.
  unfold wrap.
  change (2 ^ (64 - 1))%Z with 9223372036854775808%Z.
  change (2 ^ 64)%Z with 18446744073709551616%Z.
  f_equal.
  replace ((a - b + 9223372036854775808) mod 18446744073709551616
           - 9223372036854775808 + b + 9223372036854775808)%Z
    with ((a - b + 9223372036854775808) mod 18446744073709551616 + b)%Z by lia.
  rewrite Zplus_mod_idemp_l. f_equal. lia.
Qed.

(** C9: [GetRemainingSize] is [QuotaSize - UsedSize] (in int64
    arithmetic) when [QuotaSize > 0] and 0 otherwise, and the same for
    [GetRemainingFiles]; so with [QuotaSize > 0], adding [UsedSize] back
    gives [QuotaSize] (as Go computes the sum; and as plain integers
    whenever the difference did not overflow, in particular for every
    non-negative [UsedSize]). *)
Theorem GetRemaining_spec (q : QuotaCheckResult) :
  QuotaCheckResult_wf q ->
  GetRemainingSize q
    = (if (QuotaSize q >? 0)%Z then wrap 64 (QuotaSize q - UsedSize q) else 0)%Z /\
  GetRemainingFiles q
    = (if (QuotaFiles q >? 0)%Z then wrap int_bits (QuotaFiles q - UsedFiles q) else 0)%Z /\
  ((QuotaSize q > 0)%Z ->
     wrap 64 (GetRemainingSize q + UsedSize q) = QuotaSize q /\
     (in_range 64 (QuotaSize q - UsedSize q) ->
        GetRemainingSize q = (QuotaSize q - UsedSize q)%Z /\
        (GetRemainingSize q + UsedSize q)%Z = QuotaSize q) /\
     ((0 <= UsedSize q)%Z -> (GetRemainingSize q + UsedSize q)%Z = QuotaSize q)) /\
  ((QuotaFiles q > 0)%Z ->
     wrap int_bits (GetRemainingFiles q + UsedFiles q) = QuotaFiles q /\
     ((0 <= UsedFiles q)%Z -> (GetRemainingFiles q + UsedFiles q)%Z = QuotaFiles q)).
Proof.
  intros (HAS & HAF & HUS & HUF & HQS & HQF).
  unfold GetRemainingSize, GetRemainingFiles, int_bits in *.
  split; [reflexivity|]. split; [reflexivity|]. split.
  - intro Hpos. destruct (Z.gtb_spec (QuotaSize q) 0) as [_|]; [|lia].
    split; [rewrite wrap_add_sub; apply wrap_in_range; exact HQS|].
    split.
    + intro Hr. rewrite (wrap_in_range _ Hr). split; lia.
    + intro Hu. rewrite wrap_in_range; [lia|].
      unfold in_range in *. change (2 ^ (64 - 1))%Z with 9223372036854775808%Z in *. lia.
  - intro Hpos. destruct (Z.gtb_spec (QuotaFiles q) 0) as [_|]; [|lia].
    split; [rewrite wrap_add_sub; apply wrap_in_range; exact HQF|].
    intro Hu. rewrite wrap_in_range; [lia|].
    unfold in_range in *. change (2 ^ (64 - 1))%Z with 9223372036854775808%Z in *. lia.
Qed.

Lemma GetRemaining_spec_witness :
  GetRemainingSize quota_example = 70%Z /\
  wrap 64 (GetRemainingSize quota_example + UsedSize quota_example)
    = QuotaSize quota_example /\
  (GetRemainingSize quota_example + UsedSize quota_example)%Z = QuotaSize quota_example.
Proof.
  assert (Hwf : QuotaCheckResult_wf quota_example).
  { unfold QuotaCheckResult_wf, in_range, int_bits. simpl. lia. }
  destruct (GetRemaining_spec quota_example Hwf) as (H1 & _ & H3 & _).
  split; [rewrite H1; reflexivity|].
  assert (Hpos : (QuotaSize quota_example > 0)%Z) by (simpl; lia).
  destruct (H3 Hpos) as (Ha & _ & Hc).
  split; [exact Ha|]. apply Hc. simpl. lia.
Defined.

(* ------------------------------------------------------------------ *)
(** ** Key prefix after validation *)

Lemma check_key_prefix_ok (kp kp' : string) :
  check_key_prefix kp = (None, kp') -> key_prefix_ok kp'.
Proof.
  unfold check_key_prefix, key_prefix_ok.
  destruct (String.eqb_spec kp "") as [->|Hne]; simpl.
  - intro H; injection H as <-. left; reflexivity.
  - rewrite HasPrefix_slash.
    destruct (path.IsAbs kp) eqn:Habs; [discriminate|].
    destruct (CleanFacts.Clean_unrooted kp Habs) as [Hcne Hcabs].
    destruct (strings.HasSuffix (path.Clean kp) "/") eqn:Hsuf; simpl;
      intro H; injection H as <-; right; rewrite HasPrefix_slash.
    + split; assumption.
    + split; [rewrite IsAbs_app; assumption | apply HasSuffix_app_slash].
Qed.

Lemma S3_validate_key_prefix TrimSpace c c' :
  S3FsConfig.validate TrimSpace c = Returns (None, c') ->
  key_prefix_ok (S3FsConfig.KeyPrefix (S3FsConfig.base c')).
Proof.
  unfold S3FsConfig.validate. intro H.
  destruct (String.eqb (S3FsConfig.Bucket _) ""); [discriminate|].
  destruct (_ && _); [discriminate|].
  destruct (S3FsConfig.checkCredentials _) as [[e|]|]; simpl in H; try discriminate.
  destruct (check_key_prefix _) as [[e|] kp] eqn:K; [discriminate|].
  injection H as _ <-. simpl. eapply check_key_prefix_ok; exact K.
Qed.

Lemma GCS_validate_key_prefix TrimSpace c c' :
  GCSFsConfig.validate TrimSpace c = Returns (None, c') ->
  key_prefix_ok (GCSFsConfig.KeyPrefix (GCSFsConfig.base c')).
Proof.
  unfold GCSFsConfig.validate. intro H.
  destruct (String.eqb (GCSFsConfig.Bucket _) ""); [discriminate|].
  destruct (check_key_prefix _) as [[e|] kp] eqn:K; [discriminate|].
  apply check_key_prefix_ok in K.
  destruct (kms.IsEncrypted _) as [enc|]; simpl in H; [|discriminate].
  destruct (and_then enc _) as [[|]|]; simpl in H; try discriminate.
  destruct (and_then _ _) as [[|]|]; simpl in H; try discriminate.
  injection H as <-.
  repeat match goal with |- context [if ?b then _ else _] => destruct b end;
    simpl; exact K.
Qed.

Lemma Az_validate_key_prefix url_Parse c c' :
  AzBlobFsConfig.validate url_Parse c = Returns (None, c') ->
  key_prefix_ok (AzBlobFsConfig.KeyPrefix (AzBlobFsConfig.base c')).
Proof.
  unfold AzBlobFsConfig.validate. intro H.
  destruct (kms.IsEmpty _) as [em|]; simpl in H; [|discriminate].
  destruct (em && _); [discriminate|].
  destruct (AzBlobFsConfig.checkCredentials _ _) as [[e|]|]; simpl in H; try discriminate.
  destruct (check_key_prefix _) as [[e|] kp] eqn:K; [discriminate|].
  destruct (AzBlobFsConfig.checkPartSizeAndConcurrency _); [discriminate|].
  destruct (negb _); [discriminate|].
  injection H as <-. simpl. eapply check_key_prefix_ok; exact K.
Qed.

(** C2: whenever [validate] of an S3, GCS or Azure Blob configuration
    returns nil, the [KeyPrefix] it leaves is empty, or does not start
    with a slash and ends with one. *)
Theorem validate_key_prefix
    (TrimSpace : string -> string) (url_Parse : string -> option error) :
  (forall c c', S3FsConfig.validate TrimSpace c = Returns (None, c') ->
     key_prefix_ok (S3FsConfig.KeyPrefix (S3FsConfig.base c'))) /\
  (forall c c', GCSFsConfig.validate TrimSpace c = Returns (None, c') ->
     key_prefix_ok (GCSFsConfig.KeyPrefix (GCSFsConfig.base c'))) /\
  (forall c c', AzBlobFsConfig.validate url_Parse c = Returns (None, c') ->
     key_prefix_ok (AzBlobFsConfig.KeyPrefix (AzBlobFsConfig.base c'))).
Proof.
  split; [|split]; intros c c'.
  - apply S3_validate_key_prefix.
  - apply GCS_validate_key_prefix.
  - apply Az_validate_key_prefix.
Qed.

Example S3_key_prefix_normalised :
  exists c', S3FsConfig.validate no_trim s3_example = Returns (None, c')
             /\ S3FsConfig.KeyPrefix (S3FsConfig.base c') = "foo/bar/".
Proof. eexists. split; reflexivity. Qed.

Example S3_leading_slash_rejected :
  exists c',
    S3FsConfig.validate no_trim
      (S3FsConfig.mk
         (S3FsConfig.mkBase "b" "/foo" "us-east-1" "" "" "" "" "" 0 0 0 0 0 0 false) None)
    = Returns (Some (errors_New "key_prefix cannot start with /"), c').
Proof. eexists. reflexivity. Qed.

Example Az_access_tier_rejected :
  exists e c',
    AzBlobFsConfig.validate url_ok
      (AzBlobFsConfig.mk
         (AzBlobFsConfig.mkBase "c" "a" "" "" 0 0 0 0 false "Warm")
         (Some (kms.mkSecret kms.SecretStatusPlain "account key" "" "")) None)
    = Returns (Some (fmt_Errorf e [ArgString "Warm"; ArgString ", Archive, Hot, Cool"]), c').
Proof. do 2 eexists. reflexivity. Qed.

Lemma validate_key_prefix_witness :
  key_prefix_ok "foo/bar/" /\ key_prefix_ok "a/c/" /\ key_prefix_ok "".
Proof.
  pose proof (validate_key_prefix no_trim url_ok) as (HS3 & HGCS & HAz).
  split; [|split].
  - exact (HS3 s3_example
             (S3FsConfig.mk
                (S3FsConfig.mkBase "b" "foo/bar/" "us-east-1" "" "" "" "" "" 0 0 0 0 0 0 false)
                (Some kms.NewEmptySecret))
             eq_refl).
  - exact (HGCS gcs_example
             (GCSFsConfig.mk (GCSFsConfig.mkBase "b" "a/c/" 1 "" "" 0 0)
                (Some kms.NewEmptySecret))
             eq_refl).
  - exact (HAz az_example
             (AzBlobFsConfig.mk (AzBlobFsConfig.base az_example)
                (AzBlobFsConfig.AccountKey az_example) (Some kms.NewEmptySecret))
             eq_refl).
Defined.

(* ------------------------------------------------------------------ *)
(** ** S3 credentials *)

Lemma is_empty_not_encrypted (s : kms.Secret) :
  kms.is_empty s = true -> kms.is_encrypted s = false.
Proof.
  unfold kms.is_empty, kms.is_encrypted.
  destruct (kms.Status s); simpl; congruence.
Qed.

Lemma eqb_empty_false (s : string) : s <> "" -> String.eqb s "" = false.
Proof. intro H. apply String.eqb_neq. exact H. Qed.

(** C8: with a bucket and a region, [validate] of an S3 configuration
    fails when exactly one of [AccessKey] and [AccessSecret] is empty (and
    [ValidateAndEncryptCredentials] wraps that error into a validation
    error); when both are empty, or both are set and the secret is well
    formed, [checkCredentials] returns nil. *)
Theorem S3_credential_coupling (TrimSpace : string -> string) (Encrypt : kms.cipher)
    (additionalData : string) (c : S3FsConfig.t) :
  S3FsConfig.Bucket (S3FsConfig.base c) <> "" ->
  S3FsConfig.Region (S3FsConfig.base c) <> "" ->
  let c0 := S3FsConfig.set_AccessSecret c (or_empty (S3FsConfig.AccessSecret c)) in
  let key_empty := String.eqb (S3FsConfig.AccessKey (S3FsConfig.base c)) "" in
  let no_secret := secret_empty (S3FsConfig.AccessSecret c) in
  (key_empty = true -> no_secret = false ->
     let e := errors_New "access_key cannot be empty with access_secret not empty" in
     S3FsConfig.validate TrimSpace c = Returns (Some e, c0) /\
     S3FsConfig.ValidateAndEncryptCredentials TrimSpace Encrypt c additionalData
     = Returns (Some (NewValidationError "could not validate s3config: %v" e), c0, [])) /\
  (key_empty = false -> no_secret = true ->
     let e := errors_New "access_secret cannot be empty with access_key not empty" in
     S3FsConfig.validate TrimSpace c = Returns (Some e, c0) /\
     S3FsConfig.ValidateAndEncryptCredentials TrimSpace Encrypt c additionalData
     = Returns (Some (NewValidationError "could not validate s3config: %v" e), c0, [])) /\
  (key_empty = true -> no_secret = true ->
     S3FsConfig.checkCredentials c0 = Returns None) /\
  (key_empty = false -> no_secret = false ->
     forall s, S3FsConfig.AccessSecret c = Some s -> secret_well_formed s = true ->
     S3FsConfig.checkCredentials c0 = Returns None).
Proof.
  intros Hb Hr c0 key_empty no_secret. subst c0 key_empty no_secret.
  apply eqb_empty_false in Hb, Hr.
  destruct c as [b secret]. simpl in Hb, Hr.
  unfold S3FsConfig.ValidateAndEncryptCredentials, S3FsConfig.validate,
    S3FsConfig.checkCredentials.
  cbn [S3FsConfig.set_AccessSecret S3FsConfig.base S3FsConfig.AccessSecret secret_empty].
  rewrite Hb, Hr, andb_false_r.
  split; [|split; [|split]].
  - intros Hk Hs. rewrite Hk. destruct secret as [s|]; [|discriminate].
    simpl in *. rewrite Hs. split; reflexivity.
  - intros Hk Hs. rewrite Hk. destruct secret as [s|]; simpl in *.
    + rewrite Hs. split; reflexivity.
    + split; reflexivity.
  - intros Hk Hs. rewrite Hk. destruct secret as [s|]; simpl in *.
    + rewrite Hs. simpl. rewrite (is_empty_not_encrypted s Hs). reflexivity.
    + reflexivity.
  - intros Hk Hs s -> Hwf. rewrite Hk. simpl in *. rewrite Hs. simpl.
    unfold secret_well_formed in Hwf. apply andb_prop in Hwf as [Hvi Hv].
    rewrite Hvi. simpl.
    destruct (kms.is_encrypted s); simpl in *; [rewrite Hv|]; reflexivity.
Qed.

Lemma S3_credential_coupling_witness :
  S3FsConfig.validate no_trim s3_key_without_secret
  = Returns (Some (errors_New "access_secret cannot be empty with access_key not empty"),
             S3FsConfig.set_AccessSecret s3_key_without_secret (Some kms.NewEmptySecret)) /\
  S3FsConfig.checkCredentials
    (S3FsConfig.set_AccessSecret s3_example (Some kms.NewEmptySecret)) = Returns None.
Proof.
  split.
  - pose proof (S3_credential_coupling no_trim cipher_example "user" s3_key_without_secret)
      as H.
    destruct H as (_ & H & _); [discriminate | discriminate |].
    destruct H as [H _]; [reflexivity | reflexivity |]. exact H.
  - pose proof (S3_credential_coupling no_trim cipher_example "user" s3_example) as H.
    destruct H as (_ & _ & H & _); [discriminate | discriminate |].
    apply H; reflexivity.
Defined.

(* ------------------------------------------------------------------ *)
(** ** GCS automatic credentials *)

Lemma GCS_validate_automatic TrimSpace c :
  GCSFsConfig.AutomaticCredentials (GCSFsConfig.base c) = 1%Z ->
  exists err c',
    GCSFsConfig.validate TrimSpace c = Returns (err, c') /\
    GCSFsConfig.Credentials c' = Some kms.NewEmptySecret /\
    GCSFsConfig.AutomaticCredentials (GCSFsConfig.base c') = 1%Z.
Proof.
  destruct c as [b cred]. destruct b as [bucket kp auto sc acl ups upt].
  cbn [GCSFsConfig.base GCSFsConfig.AutomaticCredentials]. intros ->.
  unfold GCSFsConfig.validate.
  cbn [GCSFsConfig.base GCSFsConfig.AutomaticCredentials GCSFsConfig.Credentials Z.eqb
       Pos.eqb].
  rewrite orb_true_r.
  cbn [GCSFsConfig.set_Credentials GCSFsConfig.base GCSFsConfig.Bucket
       GCSFsConfig.KeyPrefix].
  destruct (String.eqb bucket ""); [do 2 eexists; repeat split|].
  destruct (check_key_prefix kp) as [[e|] kp']; [do 2 eexists; repeat split|].
  simpl.
  destruct (ups <? 0)%Z; simpl; destruct (upt <? 0)%Z; simpl;
    do 2 eexists; repeat split.
Qed.

Lemma encrypt_if_plain_empty Encrypt additionalData :
  encrypt_if_plain Encrypt additionalData (Some kms.NewEmptySecret)
  = Returns (None, Some kms.NewEmptySecret, []).
Proof. reflexivity. Qed.

Lemma GCS_encrypt_automatic TrimSpace Encrypt c additionalData :
  GCSFsConfig.AutomaticCredentials (GCSFsConfig.base c) = 1%Z ->
  exists err c',
    GCSFsConfig.ValidateAndEncryptCredentials TrimSpace Encrypt c additionalData
    = Returns (err, c', []) /\
    GCSFsConfig.Credentials c' = Some kms.NewEmptySecret.
Proof.
  intro H. destruct (GCS_validate_automatic TrimSpace c H) as (err & c' & Hv & Hc & _).
  unfold GCSFsConfig.ValidateAndEncryptCredentials. rewrite Hv. cbn [go_bind].
  destruct err as [e|].
  - do 2 eexists. split; [reflexivity | exact Hc].
  - rewrite Hc, encrypt_if_plain_empty. cbn [go_bind].
    do 2 eexists. split; reflexivity.
Qed.

(** C10: with [AutomaticCredentials == 1], [validate] of a GCS
    configuration returns (with or without an error) and leaves the empty
    secret in [Credentials], whatever was there before; and
    [ValidateAndEncryptCredentials], on the configuration as it was or as
    [validate] left it, hands no secret to [Encrypt] and leaves
    [Credentials] empty. *)
Theorem GCS_automatic_credentials (TrimSpace : string -> string) (Encrypt : kms.cipher)
    (additionalData : string) (c : GCSFsConfig.t) :
  GCSFsConfig.AutomaticCredentials (GCSFsConfig.base c) = 1%Z ->
  exists err c',
    GCSFsConfig.validate TrimSpace c = Returns (err, c') /\
    GCSFsConfig.Credentials c' = Some kms.NewEmptySecret /\
    (exists err1 c1,
       GCSFsConfig.ValidateAndEncryptCredentials TrimSpace Encrypt c additionalData
       = Returns (err1, c1, []) /\
       GCSFsConfig.Credentials c1 = Some kms.NewEmptySecret) /\
    (exists err2 c2,
       GCSFsConfig.ValidateAndEncryptCredentials TrimSpace Encrypt c' additionalData
       = Returns (err2, c2, []) /\
       GCSFsConfig.Credentials c2 = Some kms.NewEmptySecret).
Proof.
  intro H. destruct (GCS_validate_automatic TrimSpace c H) as (err & c' & Hv & Hc & Ha).
  exists err, c'. split; [exact Hv|]. split; [exact Hc|].
  split; apply GCS_encrypt_automatic; assumption.
Qed.

Lemma GCS_automatic_credentials_witness :
  exists err c',
    GCSFsConfig.validate no_trim gcs_example = Returns (err, c') /\
    GCSFsConfig.Credentials c' = Some kms.NewEmptySecret /\
    (exists err1 c1,
       GCSFsConfig.ValidateAndEncryptCredentials no_trim cipher_example gcs_example "user"
       = Returns (err1, c1, []) /\
       GCSFsConfig.Credentials c1 = Some kms.NewEmptySecret) /\
    (exists err2 c2,
       GCSFsConfig.ValidateAndEncryptCredentials no_trim cipher_example c' "user"
       = Returns (err2, c2, []) /\
       GCSFsConfig.Credentials c2 = Some kms.NewEmptySecret).
Proof.
  apply (GCS_automatic_credentials no_trim cipher_example "user" gcs_example).
  reflexivity.
Defined.

(** Without automatic credentials the same configuration keeps its
    secret and has it encrypted. *)
Example GCS_manual_credentials_encrypted :
  exists c' s,
    GCSFsConfig.ValidateAndEncryptCredentials no_trim cipher_example
      (GCSFsConfig.mk (GCSFsConfig.mkBase "b" "" 0 "" "" 0 0)
         (GCSFsConfig.Credentials gcs_example)) "user"
    = Returns (None, c', [s]) /\
    GCSFsConfig.Credentials c'
    = Some (kms.mkSecret kms.SecretStatusEncrypted "service account" "k" "user").
Proof. do 2 eexists. split; reflexivity. Qed.

(* ------------------------------------------------------------------ *)
(** ** Equal configurations name the same resource *)

Lemma is_equal_payload (s o : kms.Secret) :
  kms.is_equal s o = true -> String.eqb (kms.Payload s) (kms.Payload o) = true.
Proof.
  unfold kms.is_equal. intro H.
  repeat (apply andb_prop in H as [H ?]). assumption.
Qed.

Lemma is_empty_payload (s : kms.Secret) :
  kms.is_empty s = true -> kms.Payload s = "".
Proof.
  unfold kms.is_empty. intro H.
  repeat (apply andb_prop in H as [H ?]).
  apply String.eqb_eq. assumption.
Qed.

(** Follows a chain of [if a != b { return false }] in a hypothesis
    that says the function returned true. *)
Ltac equal_fields H :=
  repeat match type of H with
         | context [if negb ?b then _ else _] =>
             destruct b eqn:?; cbn [negb] in H; [|discriminate H]
         end.

Ltac rewrite_true :=
  repeat match goal with
         | E : _ = true |- _ => rewrite E; clear E
         end.

Lemma S3_equal_same a b a' :
  S3FsConfig.isEqual a b = Returns (true, a') ->
  S3FsConfig.isSameResource a b = true /\ S3FsConfig.isSameResource a' b = true.
Proof.
  unfold S3FsConfig.isEqual. intro H. equal_fields H.
  unfold S3FsConfig.isSecretEqual in H.
  destruct (kms.IsEqual _ _); [|discriminate H].
  injection H as _ <-.
  unfold S3FsConfig.isSameResource. cbn [S3FsConfig.set_AccessSecret S3FsConfig.base].
  rewrite_true. split; reflexivity.
Qed.

Lemma GCS_equal_same a b a' :
  GCSFsConfig.isEqual a b = Returns (true, a') ->
  GCSFsConfig.isSameResource a b = true /\ GCSFsConfig.isSameResource a' b = true.
Proof.
  unfold GCSFsConfig.isEqual. intro H. equal_fields H.
  destruct (kms.IsEqual _ _); [|discriminate H].
  injection H as _ <-.
  unfold GCSFsConfig.isSameResource. cbn [GCSFsConfig.set_Credentials GCSFsConfig.base].
  rewrite_true. split; reflexivity.
Qed.

Lemma Az_equal_same a b a' :
  AzBlobFsConfig.isEqual a b = Returns (true, a') ->
  AzBlobFsConfig.isSameResource a b = Returns true /\
  AzBlobFsConfig.isSameResource a' b = Returns true.
Proof.
  unfold AzBlobFsConfig.isEqual. intro H. equal_fields H.
  destruct a as [ba ka [sa|]]; [|discriminate H].
  destruct b as [bb kb [sb|]]; [|discriminate H].
  cbn [AzBlobFsConfig.SASURL AzBlobFsConfig.base kms.IsEmpty kms.deref go_bind] in *.
  assert (Hp : String.eqb (kms.Payload sa) (kms.Payload sb) = true
               /\ exists sa', AzBlobFsConfig.SASURL a' = Some sa'
                              /\ kms.Payload sa' = kms.Payload sa
                              /\ AzBlobFsConfig.base a' = ba).
  { destruct (kms.is_empty sa) eqn:Ea, (kms.is_empty sb) eqn:Eb;
      cbn [AzBlobFsConfig.set_SASURL AzBlobFsConfig.SASURL AzBlobFsConfig.base
           AzBlobFsConfig.AccountKey kms.IsEqual kms.deref go_bind] in H;
      equal_fields H;
      unfold AzBlobFsConfig.isSecretEqual in H;
      (destruct (kms.IsEqual _ _); [|discriminate H]);
      injection H as _ <-;
      cbn [AzBlobFsConfig.set_AccountKey AzBlobFsConfig.SASURL AzBlobFsConfig.base];
      match goal with E : kms.is_equal _ _ = true |- _ => apply is_equal_payload in E end;
      try apply is_empty_payload in Ea; try apply is_empty_payload in Eb;
      (split; [|eexists; repeat split]);
      cbn [kms.Payload kms.NewEmptySecret] in *; try congruence;
      rewrite ?Ea, ?Eb; try assumption; try reflexivity. }
  destruct Hp as (Hp & sa' & Hs' & Hp' & Hb').
  unfold AzBlobFsConfig.isSameResource.
  rewrite Hs', Hb'. cbn [AzBlobFsConfig.SASURL AzBlobFsConfig.base kms.GetPayload
                          kms.deref go_bind].
  rewrite Hp'. rewrite_true. split; reflexivity.
Qed.

Lemma Crypt_equal_same a b a' :
  CryptFsConfig.isEqual a b = Returns (true, a') ->
  CryptFsConfig.Passphrase b <> None ->
  CryptFsConfig.isSameResource a' b = Returns true /\
  (CryptFsConfig.Passphrase a <> None -> CryptFsConfig.isSameResource a b = Returns true).
Proof.
  destruct a as [[sa|]], b as [[sb|]]; cbn; intros H Hb; try congruence;
    injection H as H <-; apply is_equal_payload in H; cbn in *;
    rewrite H; split; try reflexivity; congruence.
Qed.

(** C7, as stated, fails for [CryptFsConfig]: two configurations without
    a passphrase are equal, but [isSameResource] reads the payload behind
    the nil passphrase of its argument and panics. *)
Lemma CryptFsConfig_nil_counterexample :
  CryptFsConfig.isEqual (CryptFsConfig.mk None) (CryptFsConfig.mk None)
  = Returns (true, CryptFsConfig.mk (Some kms.NewEmptySecret)) /\
  CryptFsConfig.isSameResource (CryptFsConfig.mk (Some kms.NewEmptySecret))
    (CryptFsConfig.mk None) = Panics /\
  CryptFsConfig.isSameResource (CryptFsConfig.mk None) (CryptFsConfig.mk None) = Panics.
Proof. repeat split. Qed.

(** C7 (amended): for S3, GCS and Azure Blob configurations, whenever
    [a.isEqual(b)] returns true, [a.isSameResource(b)] returns true, on
    [a] as it was and as [isEqual] left it; for [CryptFsConfig] the same
    holds provided the passphrase of [b] is not nil (and, for [a] as it
    was, provided its passphrase is not nil either). *)
Theorem isEqual_isSameResource :
  (forall a b a', S3FsConfig.isEqual a b = Returns (true, a') ->
     S3FsConfig.isSameResource a b = true /\ S3FsConfig.isSameResource a' b = true) /\
  (forall a b a', GCSFsConfig.isEqual a b = Returns (true, a') ->
     GCSFsConfig.isSameResource a b = true /\ GCSFsConfig.isSameResource a' b = true) /\
  (forall a b a', AzBlobFsConfig.isEqual a b = Returns (true, a') ->
     AzBlobFsConfig.isSameResource a b = Returns true /\
     AzBlobFsConfig.isSameResource a' b = Returns true) /\
  (forall a b a', CryptFsConfig.isEqual a b = Returns (true, a') ->
     CryptFsConfig.Passphrase b <> None ->
     CryptFsConfig.isSameResource a' b = Returns true /\
     (CryptFsConfig.Passphrase a <> None ->
      CryptFsConfig.isSameResource a b = Returns true)).
Proof.
  split; [|split; [|split]]; intros a b a'.
  - apply S3_equal_same.
  - apply GCS_equal_same.
  - apply Az_equal_same.
  - apply Crypt_equal_same.
Qed.

Lemma isEqual_isSameResource_witness :
  S3FsConfig.isSameResource s3_example s3_example = true /\
  GCSFsConfig.isSameResource gcs_example gcs_example = true /\
  AzBlobFsConfig.isSameResource
    (AzBlobFsConfig.set_SASURL az_example (Some kms.NewEmptySecret))
    (AzBlobFsConfig.set_SASURL az_example (Some kms.NewEmptySecret)) = Returns true /\
  CryptFsConfig.isSameResource crypt_example crypt_example = Returns true.
Proof.
  destruct isEqual_isSameResource as (HS3 & HGCS & HAz & HCrypt).
  split; [|split; [|split]].
  - refine (proj1 (HS3 s3_example s3_example _ _)). reflexivity.
  - refine (proj1 (HGCS gcs_example gcs_example _ _)). reflexivity.
  - refine (proj1 (HAz (AzBlobFsConfig.set_SASURL az_example (Some kms.NewEmptySecret))
                     (AzBlobFsConfig.set_SASURL az_example (Some kms.NewEmptySecret)) _ _)).
    reflexivity.
  - refine (proj1 (HCrypt crypt_example crypt_example _ _ _));
      [reflexivity | discriminate].
Defined.

(* ------------------------------------------------------------------ *)
(** ** PipeWriter: Close returns what Done was given *)

Module PipeWriterFacts.
Import PipeWriter.





Lemma step_successors c c' : step c c' <-> In c' (successors c).
Proof.
  split.
  - intros [p d | p r c0 e | p r | p r d]; unfold successors; cbn;
      try destruct d; try destruct c0; try destruct r; cbn;
      repeat (try (left; reflexivity); right).
  - destruct c as [p r cp dp]. unfold successors. cbn. intro H.
    apply in_app_or in H as [H|H]; [|apply in_app_or in H as [H|H]].
    + destruct cp; cbn in H; try contradiction.
      * destruct r; cbn in H; [|contradiction].
        destruct H as [<-|[]]. constructor.
      * destruct H as [<-|[]]. constructor.
    + destruct dp; cbn in H; try contradiction.
      destruct H as [<-|[]]. destruct p; constructor.
    + destruct cp, dp; cbn in H; try contradiction.
      destruct H as [<-|[]]. constructor.
Qed.



End PipeWriterFacts.

(** With the reader end open, [Close] waits in [p.writer.Close()] and
    [Done], having stored its error, waits at its send: neither has a
    step until the reader end is closed. *)
Example Close_waits_for_reader :
  PipeWriter.steps (PipeWriter.start PipeWriter.NewPipeWriter false (Some ErrTimeout))
    (PipeWriter.mkConfig (PipeWriter.mk false (Some ErrTimeout)) false
       PipeWriter.AtWriterClose PipeWriter.AtSend) /\
  PipeWriter.successors
    (PipeWriter.mkConfig (PipeWriter.mk false (Some ErrTimeout)) false
       PipeWriter.AtWriterClose PipeWriter.AtSend) = [].
Proof.
  split; [|reflexivity].
  eapply PipeWriter.steps_step; [apply PipeWriter.steps_refl|].
  apply (PipeWriter.step_store PipeWriter.NewPipeWriter false PipeWriter.AtWriterClose).
Qed.



(* ------------------------------------------------------------------ *)
(** ** Metadata check: runs *)

Lemma exec_Run {S R} (h : handler S) (p : Prog R) : forall s t r s',
  exec h p s = (t, r, s') -> Run p t r.
Proof.
  induction p as [r0 | X e k IH | fs l fmt args k IH]; intros s t r s' H; simpl in *.
  - injection H as <- <- _. split; reflexivity.
  - destruct (h X e s) as [x s1]. destruct (exec h (k x) s1) as [[t1 r1] s2] eqn:E.
    injection H as <- <- _. exists x, t1. split; [reflexivity|]. eapply IH; exact E.
  - destruct (exec h k s) as [[t1 r1] s2] eqn:E.
    injection H as <- <- _. exists t1. split; [reflexivity|]. eapply IH; exact E.
Qed.

Lemma Run_bind {A B} (p : Prog A) (f : A -> Prog B) : forall t b,
  Run (prog_bind p f) t b ->
  exists t1 a t2, t = (t1 ++ t2)%list /\ Run p t1 a /\ Run (f a) t2 b.
Proof.
  induction p as [a0 | X e k IH | fs l fmt args k IH]; intros t b H; simpl in *.
  - exists [], a0, t. auto.
  - destruct H as (x & t' & -> & H). apply IH in H as (t1 & a & t2 & -> & H1 & H2).
    exists (entry e x :: t1), a, t2. split; [reflexivity|]. split; [|exact H2].
    exists x, t1. auto.
  - destruct H as (t' & -> & H). apply IH in H as (t1 & a & t2 & -> & H1 & H2).
    exists (CLog fs l fmt args :: t1), a, t2. split; [reflexivity|]. split; [|exact H2].
    exists t1. auto.
Qed.

Lemma exec_bind {S A B} (h : handler S) (p : Prog A) (f : A -> Prog B) : forall s,
  exec h (prog_bind p f) s
  = let '(t1, a, s1) := exec h p s in
    let '(t2, b, s2) := exec h (f a) s1 in
    ((t1 ++ t2)%list, b, s2).
Proof.
  induction p as [a0 | X e k IH | fs l fmt args k IH]; intro s; simpl.
  - destruct (exec h (f a0) s) as [[t2 b] s2]. reflexivity.
  - destruct (h X e s) as [x s1]. rewrite IH.
    destruct (exec h (k x) s1) as [[t1 a] s2].
    destruct (exec h (f a) s2) as [[t2 b] s3]. reflexivity.
  - rewrite IH. destruct (exec h k s) as [[t1 a] s2].
    destruct (exec h (f a) s2) as [[t2 b] s3]. reflexivity.
Qed.

Lemma removals_app (t1 t2 : list Entry) :
  removals (t1 ++ t2) = (removals t1 ++ removals t2)%list.
Proof.
  induction t1 as [|c t1 IH]; [reflexivity|].
  destruct c; simpl; rewrite IH; reflexivity.
Qed.

Lemma removeMissing_removals fs sid folder fileNames metadataValues : forall t r,
  Run (removeMissing fs sid folder metadataValues fileNames) t r ->
  removals t = map (fun k => (sid, metadata_path folder k))
                 (missing_keys metadataValues fileNames).
Proof.
  unfold missing_keys.
  induction metadataValues as [|[k v] rest IH]; intros t r H.
  - destruct H as [-> _]. reflexivity.
  - cbn [removeMissing] in H. apply Run_bind in H as (t1 & a & t2 & -> & H1 & H2).
    rewrite removals_app, (IH _ _ H2). cbn [keys map filter fst].
    destruct (has_key fileNames k); cbn [negb] in *.
    + destruct H1 as [-> _]. reflexivity.
    + apply Run_bind in H1 as (t3 & err & t4 & -> & H3 & H4).
      destruct H3 as (x & t' & -> & -> & ->).
      destruct x as [e|]; destruct H4 as (t' & -> & -> & _); reflexivity.
  Qed.

Lemma missing_keys_In metadataValues fileNames k :
  In k (missing_keys metadataValues fileNames)
  <-> In k (keys metadataValues) /\ has_key fileNames k = false.
Proof.
  unfold missing_keys. rewrite filter_In, negb_true_iff. reflexivity.
Qed.

Lemma missing_keys_NoDup metadataValues fileNames :
  NoDup (keys metadataValues) -> NoDup (missing_keys metadataValues fileNames).
Proof. apply NoDup_filter. Qed.

Lemma times_removed_map sid folder p (ks : list string) (t : list Entry) :
  removals t = map (fun k => (sid, metadata_path folder k)) ks ->
  times_removed sid p t
  = List.length (filter (fun k => String.eqb (metadata_path folder k) p) ks).
Proof.
  unfold times_removed. intros ->.
  induction ks as [|k ks IH]; [reflexivity|].
  cbn [map filter fst snd]. rewrite String.eqb_refl. cbn [andb].
  destruct (String.eqb (metadata_path folder k) p); cbn [List.length]; rewrite IH;
    reflexivity.
Qed.

(** Exposes the next call or log line of a run. *)
Ltac run_cbn H := cbn [prog_bind fsLog call Run entry] in H.

Lemma removeMissing_no_listing fs sid folder fileNames metadataValues : forall t r c,
  Run (removeMissing fs sid folder metadataValues fileNames) t r ->
  In c t ->
  (exists s p e, c = CRemoveMetadata s p e) \/ (exists f l fmt args, c = CLog f l fmt args).
Proof.
  induction metadataValues as [|[k v] rest IH]; intros t r c H Hin.
  - destruct H as [-> _]. contradiction.
  - cbn [removeMissing] in H. apply Run_bind in H as (t1 & a & t2 & -> & H1 & H2).
    apply in_app_or in Hin as [Hin|Hin]; [|eapply IH; eauto].
    destruct (negb (has_key fileNames k)).
    + run_cbn H1. destruct H1 as (x & t' & -> & H1).
      destruct x as [e|]; run_cbn H1; destruct H1 as (t'' & -> & -> & _);
        destruct Hin as [<-|[<-|[]]]; eauto 10.
    + destruct H1 as [-> _]. contradiction.
Qed.

(** What a run of the loop body shows when the folder is checked against
    the metadata [metadataValues] and the listing [fileNames]. *)
Lemma checkFolder_run fs sid keyPrefix folder t r metadataValues fileNames :
  Run (checkFolder fs sid keyPrefix folder) t r ->
  In (CGetModificationTimes sid folder (metadataValues, None)) t ->
  In (CgetFileNamesInPrefix (fsPrefix_of folder) (fileNames, None)) t ->
  r = None /\
  removals t = map (fun k => (sid, metadata_path folder k))
                 (missing_keys metadataValues fileNames).
Proof.
  unfold checkFolder. intros H Hm Hf.
  destruct (negb (String.eqb keyPrefix "") && _).
  { run_cbn H. destruct H as (t' & -> & -> & ->).
    destruct Hm as [Hm|[]]. discriminate. }
  run_cbn H.
  destruct H as (t0 & -> & [mv err] & t1 & -> & H).
  destruct Hm as [Hm|Hm]; [discriminate|].
  destruct Hf as [Hf|Hf]; [discriminate|].
  destruct err as [e|].
  { run_cbn H. destruct H as (t' & -> & -> & ->).
    destruct Hm as [Hm|[Hm|[]]]; discriminate. }
  destruct (List.length mv =? 0)%nat.
  { run_cbn H. destruct H as (t' & -> & -> & ->).
    destruct Hf as [Hf|[Hf|[]]]; discriminate. }
  run_cbn H. destruct H as ([fn err] & t2 & -> & H).
  destruct err as [e|].
  { run_cbn H. destruct H as (t' & -> & -> & ->).
    destruct Hf as [Hf|[Hf|[Hf|[]]]]; discriminate. }
  apply Run_bind in H as (t3 & a & t4 & -> & H1 & [-> ->]).
  rewrite app_nil_r in *.
  assert (Hmv : mv = metadataValues).
  { destruct Hm as [Hm|[Hm|Hm]]; [congruence | discriminate |].
    destruct (removeMissing_no_listing _ _ _ _ _ _ _ _ H1 Hm)
      as [(?&?&?&?)|(?&?&?&?&?)]; discriminate. }
  assert (Hfn : fn = fileNames).
  { destruct Hf as [Hf|[Hf|Hf]]; [discriminate | congruence |].
    destruct (removeMissing_no_listing _ _ _ _ _ _ _ _ H1 Hf)
      as [(?&?&?&?)|(?&?&?&?&?)]; discriminate. }
  subst. split; [reflexivity|].
  cbn [removals]. eapply removeMissing_removals; exact H1.
Qed.

(** *** Errors of RemoveMetadata are logged *)

Lemma well_logged_app fs t1 t2 :
  well_logged fs t1 -> well_logged fs t2 -> well_logged fs (t1 ++ t2).
Proof.
  intros H1 H2. induction H1 as [|sid p r t _ IH|c t Hc _ IH]; simpl.
  - exact H2.
  - apply wl_removal. exact IH.
  - apply wl_other; assumption.
Qed.

Lemma well_logged_inv fs t : well_logged fs t ->
  forall t1 sid p r t2, t = (t1 ++ CRemoveMetadata sid p r :: t2)%list ->
  exists t3, t2 = removal_log fs p r :: t3.
Proof.
  induction 1 as [|sid0 p0 r0 t _ IH|c t Hc _ IH]; intros t1 sid p r t2 E.
  - destruct t1; discriminate.
  - destruct t1 as [|c1 t1]; simpl in E.
    + injection E as -> -> -> <-. eexists; reflexivity.
    + injection E as <- E. destruct t1 as [|c2 t1]; simpl in E.
      * destruct r0; discriminate.
      * injection E as _ E. eapply IH; exact E.
  - destruct t1 as [|c1 t1]; simpl in E.
    + injection E as -> _. discriminate.
    + injection E as _ E. eapply IH; exact E.
Qed.

Lemma removeMissing_well_logged fs sid folder fileNames metadataValues : forall t r,
  Run (removeMissing fs sid folder metadataValues fileNames) t r -> well_logged fs t.
Proof.
  induction metadataValues as [|[k v] rest IH]; intros t r H.
  - destruct H as [-> _]. constructor.
  - cbn [removeMissing] in H. apply Run_bind in H as (t1 & a & t2 & -> & H1 & H2).
    apply well_logged_app; [|eapply IH; exact H2].
    destruct (negb (has_key fileNames k)).
    + run_cbn H1. destruct H1 as (x & t' & -> & H1).
      destruct x as [e|]; run_cbn H1; destruct H1 as (t'' & -> & -> & _).
      * apply (wl_removal fs sid _ (Some e) []). constructor.
      * apply (wl_removal fs sid _ None []). constructor.
    + destruct H1 as [-> _]. constructor.
Qed.

Ltac wl_other := apply wl_other; [reflexivity|].

Lemma checkFolder_well_logged fs sid keyPrefix folder t r :
  Run (checkFolder fs sid keyPrefix folder) t r -> well_logged fs t.
Proof.
  unfold checkFolder. intro H.
  destruct (negb (String.eqb keyPrefix "") && _).
  { run_cbn H. destruct H as (t' & -> & -> & ->). wl_other. constructor. }
  run_cbn H. destruct H as (t0 & -> & [mv err] & t1 & -> & H).
  do 2 wl_other.
  destruct err as [e|].
  { run_cbn H. destruct H as (t' & -> & -> & ->). wl_other. constructor. }
  destruct (List.length mv =? 0)%nat.
  { run_cbn H. destruct H as (t' & -> & -> & ->). wl_other. constructor. }
  run_cbn H. destruct H as ([fn err] & t2 & -> & H). wl_other.
  destruct err as [e|].
  { run_cbn H. destruct H as (t' & -> & -> & ->). wl_other. constructor. }
  apply Run_bind in H as (t3 & a & t4 & -> & H1 & [-> ->]).
  rewrite app_nil_r. eapply removeMissing_well_logged; exact H1.
Qed.

Lemma checkFolders_well_logged fs sid keyPrefix folders : forall from t r,
  Run (checkFolders fs sid keyPrefix folders from) t r -> well_logged fs t.
Proof.
  induction folders as [|folder rest IH]; intros from t r H.
  - destruct H as [-> _]. constructor.
  - cbn [checkFolders] in H. apply Run_bind in H as (t1 & a & t2 & -> & H1 & H2).
    apply well_logged_app; [eapply checkFolder_well_logged; exact H1|].
    destruct a as [e|].
    + destruct H2 as [-> _]. constructor.
    + eapply IH; exact H2.
Qed.

Lemma checkPages_well_logged fs sid keyPrefix limit pages : forall from t r,
  Run (checkPages pages fs sid keyPrefix limit from) t r -> well_logged fs t.
Proof.
  induction pages as [|pages IH]; intros from t r H.
  - destruct H as [-> _]. constructor.
  - cbn [checkPages] in H. run_cbn H.
    destruct H as ([folders err] & t1 & -> & H). wl_other.
    destruct err as [e|].
    { run_cbn H. destruct H as (t' & -> & -> & ->). wl_other. constructor. }
    apply Run_bind in H as (t2 & a & t3 & -> & H1 & H2).
    apply well_logged_app; [eapply checkFolders_well_logged; exact H1|].
    destruct a as [from'|e].
    + destruct (Z.of_nat (List.length folders) <? limit)%Z.
      * destruct H2 as [-> _]. constructor.
      * eapply IH; exact H2.
    + destruct H2 as [-> _]. constructor.
Qed.

Lemma fsMetadataCheck_well_logged pages fs sid keyPrefix t r :
  Run (fsMetadataCheck pages fs sid keyPrefix) t r -> well_logged fs t.
Proof.
  unfold fsMetadataCheck. intro H. run_cbn H.
  destruct H as (has & t1 & -> & H). wl_other.
  destruct (negb has).
  - destruct H as [-> _]. constructor.
  - eapply checkPages_well_logged; exact H.
Qed.

(** *** A failed listing ends the check *)

Lemma outcome_ok_app fs t1 t2 res :
  no_listing_error t1 -> outcome_ok fs t2 res -> outcome_ok fs (t1 ++ t2) res.
Proof.
  intros H1 H2. destruct res as [e|]; simpl in *.
  - destruct H2 as (t3 & c & fmt & args & -> & Hn & Hc).
    exists (t1 ++ t3)%list, c, fmt, args. rewrite app_assoc.
    split; [reflexivity|]. split; [apply Forall_app; auto | exact Hc].
  - apply Forall_app; auto.
Qed.

Lemma outcome_ok_cons fs c t res :
  listing_error c = None -> outcome_ok fs t res -> outcome_ok fs (c :: t) res.
Proof.
  intros Hc H. apply (outcome_ok_app fs [c] t res); [|exact H].
  constructor; [exact Hc | constructor].
Qed.

Lemma aborted_now fs c fmt args e :
  listing_error c = Some e -> aborted fs [c; CLog fs LevelError fmt args] e.
Proof.
  intro H. exists [], c, fmt, args. split; [reflexivity|]. split; [constructor | exact H].
Qed.

Lemma removeMissing_no_listing_error fs sid folder fileNames metadataValues t r :
  Run (removeMissing fs sid folder metadataValues fileNames) t r -> no_listing_error t.
Proof.
  intro H. apply Forall_forall. intros c Hin.
  destruct (removeMissing_no_listing _ _ _ _ _ _ _ _ H Hin)
    as [(?&?&?&->)|(?&?&?&?&->)]; reflexivity.
Qed.

Ltac ok_cons := apply outcome_ok_cons; [reflexivity|].

Lemma checkFolder_outcome fs sid keyPrefix folder t r :
  Run (checkFolder fs sid keyPrefix folder) t r -> outcome_ok fs t r.
Proof.
  unfold checkFolder. intro H.
  destruct (negb (String.eqb keyPrefix "") && _).
  { run_cbn H. destruct H as (t' & -> & -> & ->). ok_cons. constructor. }
  run_cbn H. destruct H as (t0 & -> & [mv err] & t1 & -> & H).
  ok_cons.
  destruct err as [e|].
  { run_cbn H. destruct H as (t' & -> & -> & ->). apply aborted_now. reflexivity. }
  ok_cons.
  destruct (List.length mv =? 0)%nat.
  { run_cbn H. destruct H as (t' & -> & -> & ->). ok_cons. constructor. }
  run_cbn H. destruct H as ([fn err] & t2 & -> & H).
  destruct err as [e|].
  { run_cbn H. destruct H as (t' & -> & -> & ->). apply aborted_now. reflexivity. }
  ok_cons.
  apply Run_bind in H as (t3 & a & t4 & -> & H1 & [-> ->]).
  rewrite app_nil_r. eapply removeMissing_no_listing_error; exact H1.
Qed.

Lemma checkFolders_outcome fs sid keyPrefix folders : forall from t r,
  Run (checkFolders fs sid keyPrefix folders from) t r ->
  outcome_ok fs t (folders_result r).
Proof.
  induction folders as [|folder rest IH]; intros from t r H.
  - destruct H as [-> ->]. constructor.
  - cbn [checkFolders] in H. apply Run_bind in H as (t1 & a & t2 & -> & H1 & H2).
    apply checkFolder_outcome in H1.
    destruct a as [e|].
    + destruct H2 as [-> ->]. rewrite app_nil_r. exact H1.
    + apply outcome_ok_app; [exact H1 | eapply IH; exact H2].
Qed.

Lemma checkPages_outcome fs sid keyPrefix limit pages : forall from t r,
  Run (checkPages pages fs sid keyPrefix limit from) t r ->
  outcome_ok fs t (returned_error r).
Proof.
  induction pages as [|pages IH]; intros from t r H.
  - destruct H as [-> ->]. constructor.
  - cbn [checkPages] in H. run_cbn H.
    destruct H as ([folders err] & t1 & -> & H).
    destruct err as [e|].
    { run_cbn H. destruct H as (t' & -> & -> & ->). apply aborted_now. reflexivity. }
    ok_cons.
    apply Run_bind in H as (t2 & a & t3 & -> & H1 & H2).
    apply checkFolders_outcome in H1.
    destruct a as [from'|e]; simpl in H1.
    + apply outcome_ok_app; [exact H1|].
      destruct (Z.of_nat (List.length folders) <? limit)%Z.
      * destruct H2 as [-> ->]. constructor.
      * eapply IH; exact H2.
    + destruct H2 as [-> ->]. rewrite app_nil_r. exact H1.
Qed.

Lemma fsMetadataCheck_outcome pages fs sid keyPrefix t r :
  Run (fsMetadataCheck pages fs sid keyPrefix) t r ->
  outcome_ok fs t (returned_error r).
Proof.
  unfold fsMetadataCheck. intro H. run_cbn H.
  destruct H as (has & t1 & -> & H). ok_cons.
  destruct (negb has).
  - destruct H as [-> ->]. constructor.
  - eapply checkPages_outcome; exact H.
Qed.

(** In a run that ends as [outcome_ok] says, a failed listing call is the
    last call, followed by its log line, and its error is the result. *)
Lemma outcome_ok_inv fs t res t1 c t2 e :
  outcome_ok fs t res -> t = (t1 ++ c :: t2)%list -> listing_error c = Some e ->
  res = Some e /\ exists fmt args, t2 = [CLog fs LevelError fmt args].
Proof.
  intros Hok -> Hc.
  destruct res as [e'|]; simpl in Hok.
  - destruct Hok as (t3 & c' & fmt & args & E & Hn & Hc').
    revert t3 E Hn. induction t1 as [|c1 t1 IH]; intros t3 E Hn.
    + destruct t3 as [|c3 t3]; simpl in E.
      * injection E as Ec Et. subst. split; [congruence | eauto].
      * injection E as Ec _. subst c3. inversion Hn; subst. congruence.
    + destruct t3 as [|c3 t3]; simpl in E.
      * injection E as _ E. destruct t1 as [|c2 t1]; simpl in E.
        -- injection E as Ec _. subst c. discriminate.
        -- injection E as _ E. destruct t1; discriminate.
      * injection E as _ E. inversion Hn; subst. eapply IH; eauto.
  - exfalso. unfold no_listing_error in Hok. rewrite Forall_forall in Hok.
    specialize (Hok c (in_elt c t1 t2)). congruence.
Qed.

(** *** Errors of RemoveMetadata do not change the check *)

Lemma skeleton_app (t1 t2 : list Entry) :
  skeleton (t1 ++ t2) = (skeleton t1 ++ skeleton t2)%list.
Proof.
  induction t1 as [|c t1 IH]; [reflexivity|].
  destruct c; simpl; rewrite IH; reflexivity.
Qed.

Section Unaffected.
Context {S : Type} (g : string -> string -> option error) (h : handler S).

Lemma unaffected_Ret {R} (r : R) : unaffected g h (Ret r).
Proof. intro s. repeat split. Qed.

Lemma unaffected_bind {A B} (p : Prog A) (f : A -> Prog B) :
  unaffected g h p -> (forall a, unaffected g h (f a)) ->
  unaffected g h (prog_bind p f).
Proof.
  intros Hp Hf s. specialize (Hp s). unfold agree in *.
  rewrite !exec_bind.
  destruct (exec (with_removal_errors g h) p s) as [[t1 a1] s1].
  destruct (exec h p s) as [[t2 a2] s2].
  simpl in Hp. destruct Hp as (Ht & -> & ->).
  specialize (Hf a2 s2). unfold agree in Hf.
  destruct (exec (with_removal_errors g h) (f a2) s2) as [[t3 b3] s3].
  destruct (exec h (f a2) s2) as [[t4 b4] s4].
  simpl in *. destruct Hf as (Ht' & -> & ->).
  rewrite !skeleton_app, Ht, Ht'. repeat split.
Qed.

Lemma unaffected_fsLog fs l fmt args : unaffected g h (fsLog fs l fmt args).
Proof. intro s. repeat split. Qed.

(** A call other than [RemoveMetadata] is answered as before. *)
Lemma unaffected_call {X} (e : Event X) :
  match e with RemoveMetadata _ _ => False | _ => True end ->
  unaffected g h (call e).
Proof.
  intros He s. unfold agree, call. simpl.
  destruct e; try contradiction; unfold with_removal_errors;
    destruct (h _ _ s) as [x s1]; repeat split.
Qed.

Lemma unaffected_removeMissing fs sid folder fileNames metadataValues :
  unaffected g h (removeMissing fs sid folder metadataValues fileNames).
Proof.
  induction metadataValues as [|[k v] rest IH].
  - apply unaffected_Ret.
  - cbn [removeMissing]. apply unaffected_bind; [|intros _; exact IH].
    destruct (negb (has_key fileNames k)); [|apply unaffected_Ret].
    intro s. unfold agree. simpl. unfold with_removal_errors at 1.
    destruct (h _ (RemoveMetadata sid (ensureAbsPath (path.Join [folder; k]))) s)
      as [x s1]. simpl.
    destruct (g sid (ensureAbsPath (path.Join [folder; k]))), x; repeat split.
Qed.

Lemma unaffected_checkFolder fs sid keyPrefix folder :
  unaffected g h (checkFolder fs sid keyPrefix folder).
Proof.
  unfold checkFolder.
  destruct (negb (String.eqb keyPrefix "") && _).
  { apply unaffected_bind; [apply unaffected_fsLog | intros _; apply unaffected_Ret]. }
  apply unaffected_bind; [apply unaffected_fsLog | intros _].
  apply unaffected_bind; [apply unaffected_call; exact I |].
  intros [mv [e|]].
  { apply unaffected_bind; [apply unaffected_fsLog | intros _; apply unaffected_Ret]. }
  destruct (List.length mv =? 0)%nat.
  { apply unaffected_bind; [apply unaffected_fsLog | intros _; apply unaffected_Ret]. }
  apply unaffected_bind; [apply unaffected_call; exact I |].
  intros [fn [e|]].
  { apply unaffected_bind; [apply unaffected_fsLog | intros _; apply unaffected_Ret]. }
  apply unaffected_bind; [apply unaffected_removeMissing | intros _; apply unaffected_Ret].
Qed.

Lemma unaffected_checkFolders fs sid keyPrefix folders : forall from,
  unaffected g h (checkFolders fs sid keyPrefix folders from).
Proof.
  induction folders as [|folder rest IH]; intro from; cbn [checkFolders].
  - apply unaffected_Ret.
  - apply unaffected_bind; [apply unaffected_checkFolder|].
    intros [e|]; [apply unaffected_Ret | apply IH].
Qed.

Lemma unaffected_checkPages fs sid keyPrefix limit pages : forall from,
  unaffected g h (checkPages pages fs sid keyPrefix limit from).
Proof.
  induction pages as [|pages IH]; intro from; cbn [checkPages].
  - apply unaffected_Ret.
  - apply unaffected_bind; [apply unaffected_call; exact I |].
    intros [folders [e|]].
    { apply unaffected_bind; [apply unaffected_fsLog | intros _; apply unaffected_Ret]. }
    apply unaffected_bind; [apply unaffected_checkFolders|].
    intros [from'|e]; [|apply unaffected_Ret].
    destruct (Z.of_nat (List.length folders) <? limit)%Z;
      [apply unaffected_Ret | apply IH].
Qed.

Lemma unaffected_fsMetadataCheck pages fs sid keyPrefix :
  unaffected g h (fsMetadataCheck pages fs sid keyPrefix).
Proof.
  unfold fsMetadataCheck.
  apply unaffected_bind; [apply unaffected_call; exact I |].
  intro has. destruct (negb has); [apply unaffected_Ret | apply unaffected_checkPages].
Qed.

End Unaffected.

(** *** The removals of a whole check *)

Lemma expected_removals_app t1 : forall last t2,
  expected_removals last (t1 ++ t2)
  = (expected_removals last t1 ++ expected_removals (last_fetched last t1) t2)%list.
Proof.
  induction t1 as [|c t1 IH]; intros last t2; [reflexivity|].
  destruct c as [| | sid folder [mv err] | p [fn [e|]] | |]; simpl; rewrite ?IH;
    try reflexivity.
  rewrite app_assoc. reflexivity.
Qed.

Lemma removals_as_expected_app t1 t2 :
  removals_as_expected t1 -> removals_as_expected t2 -> removals_as_expected (t1 ++ t2).
Proof.
  intros H1 H2 last. rewrite removals_app, expected_removals_app, <- H1, <- H2.
  reflexivity.
Qed.

Lemma removals_as_expected_nil : removals_as_expected [].
Proof. intro last. reflexivity. Qed.

Lemma removals_as_expected_cons c t :
  match c with
  | CHasMetadater _ | CGetMetadataFolders _ _ _ _ | CLog _ _ _ _ => True
  | _ => False
  end ->
  removals_as_expected t -> removals_as_expected (c :: t).
Proof.
  intros Hc H last. destruct c; try contradiction; simpl; apply H.
Qed.

Lemma removeMissing_expected fs sid folder fileNames metadataValues t r :
  Run (removeMissing fs sid folder metadataValues fileNames) t r ->
  forall last, expected_removals last t = [].
Proof.
  intros H last.
  assert (Hall : forall c, In c t ->
            (exists s p e, c = CRemoveMetadata s p e)
            \/ (exists f l fmt args, c = CLog f l fmt args)).
  { intros c Hin. eapply removeMissing_no_listing; eauto. }
  clear H. revert last. induction t as [|c t IH]; intro last; [reflexivity|].
  assert (IH' : expected_removals last t = []).
  { apply IH. intros c' Hin. apply Hall. right; exact Hin. }
  destruct (Hall c (or_introl eq_refl)) as [(x1 & x2 & x3 & E)|(x1 & x2 & x3 & x4 & E)];
    rewrite E; simpl; exact IH'.
Qed.

Ltac expected_cons := apply removals_as_expected_cons; [exact I|].

Lemma checkFolder_expected fs sid keyPrefix folder t r :
  Run (checkFolder fs sid keyPrefix folder) t r -> removals_as_expected t.
Proof.
  unfold checkFolder. intro H.
  destruct (negb (String.eqb keyPrefix "") && _).
  { run_cbn H. destruct H as (t' & -> & -> & ->). expected_cons.
    apply removals_as_expected_nil. }
  run_cbn H. destruct H as (t0 & -> & [mv err] & t1 & -> & H).
  expected_cons. intro last. cbn [removals expected_removals].
  destruct err as [e|].
  { run_cbn H. destruct H as (t' & -> & -> & ->). reflexivity. }
  destruct (List.length mv =? 0)%nat.
  { run_cbn H. destruct H as (t' & -> & -> & ->). reflexivity. }
  run_cbn H. destruct H as ([fn err] & t2 & -> & H).
  destruct err as [e|].
  { run_cbn H. destruct H as (t' & -> & -> & ->). reflexivity. }
  apply Run_bind in H as (t3 & a & t4 & -> & H1 & [-> ->]).
  rewrite app_nil_r. cbn [removals expected_removals].
  rewrite (removeMissing_expected _ _ _ _ _ _ _ H1), app_nil_r.
  eapply removeMissing_removals; exact H1.
Qed.

Lemma checkFolders_expected fs sid keyPrefix folders : forall from t r,
  Run (checkFolders fs sid keyPrefix folders from) t r -> removals_as_expected t.
Proof.
  induction folders as [|folder rest IH]; intros from t r H.
  - destruct H as [-> _]. apply removals_as_expected_nil.
  - cbn [checkFolders] in H. apply Run_bind in H as (t1 & a & t2 & -> & H1 & H2).
    apply removals_as_expected_app; [eapply checkFolder_expected; exact H1|].
    destruct a as [e|].
    + destruct H2 as [-> _]. apply removals_as_expected_nil.
    + eapply IH; exact H2.
Qed.

Lemma checkPages_expected fs sid keyPrefix limit pages : forall from t r,
  Run (checkPages pages fs sid keyPrefix limit from) t r -> removals_as_expected t.
Proof.
  induction pages as [|pages IH]; intros from t r H.
  - destruct H as [-> _]. apply removals_as_expected_nil.
  - cbn [checkPages] in H. run_cbn H.
    destruct H as ([folders err] & t1 & -> & H). expected_cons.
    destruct err as [e|].
    { run_cbn H. destruct H as (t' & -> & -> & ->). expected_cons.
      apply removals_as_expected_nil. }
    apply Run_bind in H as (t2 & a & t3 & -> & H1 & H2).
    apply removals_as_expected_app; [eapply checkFolders_expected; exact H1|].
    destruct a as [from'|e].
    + destruct (Z.of_nat (List.length folders) <? limit)%Z.
      * destruct H2 as [-> _]. apply removals_as_expected_nil.
      * eapply IH; exact H2.
    + destruct H2 as [-> _]. apply removals_as_expected_nil.
Qed.

(** In every run of [fsMetadataCheck] the calls of [RemoveMetadata] are
    those that the successful listings of the run call for, in order. *)
Lemma fsMetadataCheck_removals {S} (h : handler S) s pages fs sid keyPrefix t r s' :
  exec h (fsMetadataCheck pages fs sid keyPrefix) s = (t, r, s') ->
  removals t = expected_removals None t.
Proof.
  intro Hexec. apply exec_Run in Hexec. revert Hexec.
  unfold fsMetadataCheck. intro H. run_cbn H.
  destruct H as (has & t1 & -> & H).
  apply removals_as_expected_cons; [exact I|].
  destruct (negb has).
  - destruct H as [-> _]. apply removals_as_expected_nil.
  - eapply checkPages_expected; exact H.
Qed.

(* ------------------------------------------------------------------ *)
(** ** Metadata check: removals and errors *)

Lemma append_assoc (s u v : string) : (s ++ u) ++ v = s ++ u ++ v.
Proof. induction s as [|c s IH]; simpl; [reflexivity | rewrite IH; reflexivity]. Qed.

Lemma Join_two (folder k : string) :
  folder <> "" -> path.Join [folder; k] = path.Clean (folder ++ "/" ++ k).
Proof.
  intro Hne. unfold path.Join.
  destruct folder as [|c folder]; [congruence|].
  cbn -[path.Clean]. rewrite append_assoc. reflexivity.
Qed.

Lemma strings_Join_snoc (segs : list string) (k : string) :
  segs <> [] ->
  strings.Join (segs ++ [k]) "/" = strings.Join segs "/" ++ "/" ++ k.
Proof.
  induction segs as [|seg segs IH]; [congruence|]. intros _.
  destruct segs as [|seg2 segs]; [reflexivity|].
  change (strings.Join ((seg :: seg2 :: segs) ++ [k]) "/")
    with (seg ++ "/" ++ strings.Join ((seg2 :: segs) ++ [k]) "/").
  rewrite IH by discriminate.
  change (strings.Join (seg :: seg2 :: segs) "/")
    with (seg ++ "/" ++ strings.Join (seg2 :: segs) "/").
  rewrite !append_assoc. reflexivity.
Qed.

(** For a folder and a key made of plain segments the path handed to
    [RemoveMetadata] is the folder, a slash and the key. *)
Lemma metadata_path_plain (segs : list string) (k : string) :
  segs <> [] -> forallb path.plain_segment (segs ++ [k]) = true ->
  metadata_path ("/" ++ strings.Join segs "/") k
  = ("/" ++ strings.Join segs "/") ++ "/" ++ k.
Proof.
  intros Hne Hall. unfold metadata_path.
  rewrite Join_two by discriminate.
  replace (("/" ++ strings.Join segs "/") ++ "/" ++ k)
    with ("/" ++ strings.Join (segs ++ [k]) "/")
    by (rewrite strings_Join_snoc by exact Hne; reflexivity).
  rewrite CleanTotal.Clean_plain; [reflexivity | | exact Hall].
  destruct segs; discriminate.
Qed.

Lemma append_inj_l (s a b : string) : s ++ a = s ++ b -> a = b.
Proof. induction s as [|c s IH]; simpl; intro H; [exact H | injection H; auto]. Qed.

Lemma filter_eqb_absent (k : string) (l : list string) :
  ~ In k l -> filter (fun x => String.eqb x k) l = [].
Proof.
  induction l as [|x l IH]; intro H; [reflexivity|]. simpl.
  destruct (String.eqb_spec x k) as [->|_].
  - exfalso. apply H. left; reflexivity.
  - apply IH. intro Hin. apply H. right; exact Hin.
Qed.

Lemma filter_eqb_once (k : string) (l : list string) :
  NoDup l -> In k l -> filter (fun x => String.eqb x k) l = [k].
Proof.
  induction 1 as [|x l Hx Hnd IH]; intro Hin; [contradiction|]. simpl.
  destruct (String.eqb_spec x k) as [->|Hne].
  - rewrite filter_eqb_absent by exact Hx. reflexivity.
  - destruct Hin as [->|Hin]; [congruence | apply IH; exact Hin].
Qed.

(** With a folder and keys made of plain segments, the folder, a slash
    and the key is removed once for a missing key and never for a listed
    one. *)
Lemma times_removed_plain sid folder segs (metadataValues : gomap Z)
    (fileNames : gomap bool) t :
  removals t = map (fun k => (sid, metadata_path folder k))
                 (missing_keys metadataValues fileNames) ->
  NoDup (keys metadataValues) ->
  segs <> [] -> folder = "/" ++ strings.Join segs "/" ->
  forallb path.plain_segment segs = true ->
  forallb path.plain_segment (keys metadataValues) = true ->
  forall k, In k (keys metadataValues) ->
  times_removed sid (ensureAbsPath (folder ++ "/" ++ k)) t
  = if has_key fileNames k then 0%nat else 1%nat.
Proof.
  intros Hrem Hnd Hne -> Hsegs Hkeys k Hk.
  change (ensureAbsPath (("/" ++ strings.Join segs "/") ++ "/" ++ k))
    with (("/" ++ strings.Join segs "/") ++ "/" ++ k).
  rewrite (times_removed_map _ _ _ _ _ Hrem).
  rewrite forallb_forall in Hkeys.
  rewrite (filter_ext_in _ (fun x => String.eqb x k)).
  - destruct (has_key fileNames k) eqn:Hhas.
    + rewrite filter_eqb_absent; [reflexivity|].
      rewrite missing_keys_In. intros [_ H]. congruence.
    + rewrite filter_eqb_once; [reflexivity | |].
      * apply missing_keys_NoDup; exact Hnd.
      * apply missing_keys_In. auto.
  - intros k' Hk'. apply missing_keys_In in Hk' as [Hk' _].
    rewrite metadata_path_plain; [| exact Hne |].
    + destruct (String.eqb_spec k' k) as [->|Hneq]; [apply String.eqb_refl|].
      apply String.eqb_neq. intro E. apply append_inj_l in E.
      apply (append_inj_l "/") in E. contradiction.
    + rewrite forallb_app, Hsegs. simpl. rewrite (Hkeys k' Hk'). reflexivity.
Qed.

Example fsMetadataCheck_removes_orphan :
  let '(t, r, _) := exec (fixture_handler fx_orphan) (fsMetadataCheck 1 fs_example "s" "") 0%nat in
  r = Some None /\ removals t = [("s", "/p/a/y")] /\
  times_removed "s" "/p/a/y" t = 1%nat /\ times_removed "s" "/p/a/x" t = 0%nat.
Proof. repeat split. Qed.

(** C3, as stated, fails: for the root folder "/" and the key y, which
    the backend does not list, [RemoveMetadata] is not called with
    [ensureAbsPath] of the folder, a slash and the key, which is //y; it
    is called once, with the joined path /y. *)
Lemma fsMetadataCheck_root_folder_counterexample :
  let t := fst (fst (exec (fixture_handler fx_root)
                       (fsMetadataCheck 1 fs_example "s" "") 0%nat)) in
  In (CGetModificationTimes "s" "/" ([("y", 2%Z)], None)) t /\
  In (CgetFileNamesInPrefix "/" ([], None)) t /\
  In "y" (keys [("y", 2%Z)]) /\ has_key (@nil (string * bool)) "y" = false /\
  ensureAbsPath ("/" ++ "/" ++ "y") = "//y" /\
  times_removed "s" (ensureAbsPath ("/" ++ "/" ++ "y")) t = 0%nat /\
  removals t = [("s", "/y")].
Proof.
  cbv zeta. split; [|split; [|repeat split]].
  - right; right; right; left. reflexivity.
  - right; right; right; right; left. reflexivity.
  - left. reflexivity.
Qed.

(** C3 (amended): when the loop body of [fsMetadataCheck] checks a folder
    whose metadata map is [metadataValues] against the listing [fileNames]
    of its prefix, the calls of [RemoveMetadata] are, in the order of the
    map, one for each key that the listing does not have and none for a
    key it has, each with the storage id and
    [ensureAbsPath(path.Join(folder, k))]; so a path is removed as many
    times as there are missing keys that join to it.  When the folder and
    the keys are made of plain segments, [ensureAbsPath] of the folder, a
    slash and the key is removed exactly once for a missing key and never
    for a listed one. *)
Theorem checkFolder_removes_missing {S} (h : handler S) (s : S) (fs : Fs)
    (storageID keyPrefix folder : string) (t : list Entry) (r : option error) (s' : S)
    (metadataValues : gomap Z) (fileNames : gomap bool) :
  exec h (checkFolder fs storageID keyPrefix folder) s = (t, r, s') ->
  In (CGetModificationTimes storageID folder (metadataValues, None)) t ->
  In (CgetFileNamesInPrefix (fsPrefix_of folder) (fileNames, None)) t ->
  NoDup (keys metadataValues) ->
  r = None /\
  removals t = map (fun k => (storageID, metadata_path folder k))
                 (missing_keys metadataValues fileNames) /\
  NoDup (missing_keys metadataValues fileNames) /\
  (forall k, In k (missing_keys metadataValues fileNames)
             <-> In k (keys metadataValues) /\ has_key fileNames k = false) /\
  (forall p, times_removed storageID p t
             = List.length (filter (fun k => String.eqb (metadata_path folder k) p)
                              (missing_keys metadataValues fileNames))) /\
  (forall segs, segs <> [] -> folder = "/" ++ strings.Join segs "/" ->
     forallb path.plain_segment segs = true ->
     forallb path.plain_segment (keys metadataValues) = true ->
     forall k, In k (keys metadataValues) ->
     times_removed storageID (ensureAbsPath (folder ++ "/" ++ k)) t
     = if has_key fileNames k then 0%nat else 1%nat).
Proof.
  intros Hexec Hm Hf Hnd. apply exec_Run in Hexec.
  destruct (checkFolder_run _ _ _ _ _ _ _ _ Hexec Hm Hf) as [Hr Hrem].
  split; [exact Hr|]. split; [exact Hrem|].
  split; [apply missing_keys_NoDup; exact Hnd|].
  split; [intro k; apply missing_keys_In|].
  split; [intro p; apply times_removed_map; exact Hrem|].
  intros segs Hne Hfolder Hsegs Hkeys k Hk.
  eapply times_removed_plain; eassumption.
Qed.

Lemma checkFolder_removes_missing_witness :
  let t := fst (fst (exec (fixture_handler fx_orphan)
                       (checkFolder fs_example "s" "" "/p/a") 0%nat)) in
  removals t = [("s", "/p/a/y")] /\
  times_removed "s" (ensureAbsPath ("/p/a" ++ "/" ++ "y")) t = 1%nat /\
  times_removed "s" (ensureAbsPath ("/p/a" ++ "/" ++ "x")) t = 0%nat.
Proof.
  cbv zeta.
  destruct (checkFolder_removes_missing (fixture_handler fx_orphan) 0%nat fs_example
              "s" "" "/p/a" _ _ _ [("x", 1%Z); ("y", 2%Z)] [("x", true)] eq_refl)
    as (_ & Hrem & _ & _ & _ & Hplain).
  - right; left. reflexivity.
  - right; right; left. reflexivity.
  - repeat constructor; simpl; intuition discriminate.
  - split; [exact Hrem|].
    specialize (Hplain ["p"; "a"]).
    split.
    + apply (Hplain ltac:(discriminate) eq_refl eq_refl eq_refl "y").
      right; left; reflexivity.
    + apply (Hplain ltac:(discriminate) eq_refl eq_refl eq_refl "x").
      left; reflexivity.
Defined.

(** C4: in a run of [fsMetadataCheck], a call of [GetMetadataFolders],
    [GetModificationTimes] or [getFileNamesInPrefix] that returns an error
    is the last call of the run: only the log line about it follows, and
    the error is what [fsMetadataCheck] returns (and it returns no error
    otherwise).  A call of [RemoveMetadata] is followed by its log line,
    at error level when it failed, and the run goes on: with any other
    errors returned by [RemoveMetadata], the check makes the same calls,
    leaves the environment in the same state and returns the same
    result. *)
Theorem fsMetadataCheck_errors {S} (h : handler S) (s : S) (pages : nat) (fs : Fs)
    (storageID keyPrefix : string) (t : list Entry) (r : option (option error)) (s' : S) :
  exec h (fsMetadataCheck pages fs storageID keyPrefix) s = (t, r, s') ->
  (forall t1 c t2 e,
     t = (t1 ++ c :: t2)%list -> listing_error c = Some e ->
     r = Some (Some e) /\ exists fmt args, t2 = [CLog fs LevelError fmt args]) /\
  (forall e, r = Some (Some e) -> aborted fs t e) /\
  (forall t1 sid p err t2,
     t = (t1 ++ CRemoveMetadata sid p err :: t2)%list ->
     exists t3, t2 = removal_log fs p err :: t3) /\
  (forall g,
     agree (exec (with_removal_errors g h) (fsMetadataCheck pages fs storageID keyPrefix) s)
           (t, r, s')).
Proof.
  intro Hexec. pose proof (exec_Run _ _ _ _ _ _ Hexec) as Hrun.
  pose proof (fsMetadataCheck_outcome _ _ _ _ _ _ Hrun) as Hok.
  split; [|split; [|split]].
  - intros t1 c t2 e Et Hc.
    destruct (outcome_ok_inv _ _ _ _ _ _ _ Hok Et Hc) as [Hr Hlog].
    split; [|exact Hlog].
    destruct r as [[e'|]|]; simpl in Hr; congruence.
  - intros e ->. exact Hok.
  - intros t1 sid p err t2 Et.
    eapply well_logged_inv; [|exact Et].
    eapply fsMetadataCheck_well_logged; exact Hrun.
  - intro g. rewrite <- Hexec. apply unaffected_fsMetadataCheck.
Qed.

Lemma fsMetadataCheck_errors_witness :
  snd (fst run_errors) = Some (Some (ExternalError "plugin unavailable")) /\
  removals (fst (fst run_errors)) = [("s", "/p/a/y")] /\
  agree (exec (with_removal_errors (fun _ _ => None) (fixture_handler fx_errors))
           (fsMetadataCheck 1 fs_example "s" "") 0%nat)
        run_errors.
Proof.
  destruct (fsMetadataCheck_errors (fixture_handler fx_errors) 0%nat 1 fs_example "s" ""
              (fst (fst run_errors)) (snd (fst run_errors)) (snd run_errors) eq_refl)
    as (Habort & _ & _ & Hsame).
  split; [|split].
  - refine (proj1 (Habort
      [CHasMetadater true;
       CGetMetadataFolders "s" "" 100 (["/p/a"; "/p/b"; "/p/c"], None);
       CLog fs_example LevelDebug "check metadata for folder %q" [ArgString "/p/a"];
       CGetModificationTimes "s" "/p/a" ([("x", 1%Z); ("y", 2%Z)], None);
       CgetFileNamesInPrefix "/p/a/" ([("x", true)], None);
       CRemoveMetadata "s" "/p/a/y" (Some (ExternalError "cannot remove"));
       CLog fs_example LevelError "unable to remove metadata for missing file %q: %v"
         [ArgString "/p/a/y"; ArgError (ExternalError "cannot remove")];
       CLog fs_example LevelDebug "check metadata for folder %q" [ArgString "/p/b"]]
      (CGetModificationTimes "s" "/p/b" ([], Some (ExternalError "plugin unavailable")))
      _ _ eq_refl eq_refl)).
  - reflexivity.
  - apply Hsame.
Defined.

(* ------------------------------------------------------------------ *)
(** ** ensureAbsPath always gives an absolute path *)

Module CleanRooted.
Import path.

Lemma backtrack_length out : forall dd,
  (dd < List.length out)%nat -> (dd <= List.length (backtrack out dd))%nat.
Proof.
  induction out as [|c out IH]; intros dd H; simpl in *; [lia|].
  destruct (Nat.ltb_spec dd (List.length out)) as [Hlt|Hge]; simpl.
  - destruct (negb (Ascii.eqb c slash)); [apply IH; exact Hlt | lia].
  - lia.
Qed.

Lemma bottom_backtrack out dd :
  (0 < dd)%nat -> (dd < List.length out)%nat -> bottom (backtrack out dd) = bottom out.
Proof.
  intros Hdd Hlen. pose proof (backtrack_length out dd Hlen) as Hb.
  destruct (CleanFacts.backtrack_suffix out dd) as [pre E].
  rewrite E at 2. symmetry. apply CleanFacts.bottom_suffix.
  intro H0. rewrite H0 in Hb. simpl in Hb. lia.
Qed.

Lemma bottom_copy_element p : forall out,
  out <> [] -> bottom (fst (copy_element p out)) = bottom out.
Proof.
  induction p as [|c p IH]; intros out H; simpl; [reflexivity|].
  destruct (Ascii.eqb c slash); [reflexivity|].
  rewrite IH by discriminate. apply CleanFacts.bottom_cons. exact H.
Qed.

Lemma bottom_add_slash rooted out :
  out <> [] -> bottom (add_slash rooted out) = bottom out.
Proof.
  intro H. unfold add_slash.
  destruct (_ || _); [apply CleanFacts.bottom_cons; exact H | reflexivity].
Qed.

(** A rooted path is cleaned to a buffer that still begins with the
    slash. *)
Lemma clean_loop_rooted fuel : forall p out r,
  bottom out = Some slash ->
  clean_loop fuel true p out 1 = Some r -> bottom r = Some slash.
Proof.
  induction fuel as [|fuel IH]; intros p out r Hout Hr.
  - destruct p; simpl in Hr; [congruence | discriminate].
  - assert (Hne : out <> []) by (intros ->; discriminate).
    destruct p as [|c rest]; simpl in Hr; [congruence|].
    destruct (Ascii.eqb c slash) eqn:Ec; [eapply IH; eauto|].
    destruct (Ascii.eqb c dot && at_end_or_slash rest); [eapply IH; eauto|].
    destruct (if Ascii.eqb c dot then dotdot_rest rest else None) as [rest2|].
    + destruct (Nat.ltb_spec 1 (List.length out)) as [Hlt|Hge].
      * eapply IH; [|exact Hr]. rewrite bottom_backtrack; [exact Hout | lia | exact Hlt].
      * simpl in Hr. eapply IH; eauto.
    + pose proof (bottom_copy_element (String c rest) (add_slash true out)) as Hc.
      simpl in Hc. rewrite Ec in Hc.
      destruct (copy_element rest (c :: add_slash true out)) as [out2 rest'].
      eapply IH; [|exact Hr]. simpl in Hc. rewrite Hc.
      * rewrite bottom_add_slash by exact Hne. exact Hout.
      * unfold add_slash. destruct (_ || _); [discriminate | exact Hne].
Qed.

Lemma IsAbs_buffer_string_rooted out :
  bottom out = Some slash -> IsAbs (buffer_string out) = true.
Proof.
  unfold buffer_string. rewrite CleanFacts.bottom_rev.
  destruct (rev out) as [|c l]; simpl; [discriminate|].
  intro H. injection H as ->. reflexivity.
Qed.

(** [Clean] of a path that starts with a slash starts with a slash. *)
Lemma Clean_rooted p : IsAbs p = true -> IsAbs (Clean p) = true.
Proof.
  intro Hp. destruct p as [|c rest]; [discriminate|].
  unfold Clean. simpl in Hp. rewrite Hp.
  destruct (CleanTotal.clean_loop_total (String.length (String c rest)) true rest
              [slash] 1) as [r Hr]; [simpl; lia|].
  rewrite Hr. pose proof (clean_loop_rooted _ rest [slash] r eq_refl Hr) as Hb.
  destruct r as [|d r]; [discriminate|].
  apply IsAbs_buffer_string_rooted. exact Hb.
Qed.

End CleanRooted.

(** X1: [ensureAbsPath] always returns a path that starts with a slash,
    and applying it twice is the same as applying it once. *)
Theorem ensureAbsPath_absolute (name : string) :
  path.IsAbs (ensureAbsPath name) = true /\
  ensureAbsPath (ensureAbsPath name) = ensureAbsPath name.
Proof.
  assert (H : path.IsAbs (ensureAbsPath name) = true).
  { unfold ensureAbsPath. destruct (path.IsAbs name) eqn:E; [exact E|].
    rewrite Join_root. apply CleanRooted.Clean_rooted. reflexivity. }
  split; [exact H|].
  unfold ensureAbsPath at 1. rewrite H. reflexivity.
Qed.

(* ================================================================== *)
(** * More properties *)

(** ** What validate accepts and what it leaves *)

Lemma or_empty_Some (p : kms.ptr) : or_empty p = Some (secret_or_empty p).
Proof. destruct p; reflexivity. Qed.

Lemma eqb_empty_iff (s : string) : String.eqb s "" = true <-> s = "".
Proof. apply String.eqb_eq. Qed.

Lemma S3_checkCredentials_spec (c : S3FsConfig.t) (s : kms.Secret) :
  S3FsConfig.AccessSecret c = Some s ->
  exists r, S3FsConfig.checkCredentials c = Returns r /\
            (r = None <-> S3_credentials_ok (S3FsConfig.AccessKey (S3FsConfig.base c)) s).
Proof.
  intro Hs. unfold S3FsConfig.checkCredentials, S3_credentials_ok. rewrite Hs.
  cbn [kms.IsEmpty kms.IsEncrypted kms.IsValid kms.IsValidInput kms.deref go_bind go_not].
  destruct (String.eqb_spec (S3FsConfig.AccessKey (S3FsConfig.base c)) "") as [Hk|Hk];
    destruct (kms.is_empty s) eqn:He; cbn;
    try (eexists; split; [reflexivity|];
         split; [discriminate | intros [[H1 H2] _]; try (specialize (H1 Hk)); 
                                try (specialize (H2 eq_refl)); congruence]).
  - pose proof (is_empty_not_encrypted s He) as Hn. rewrite Hn. cbn.
    eexists; split; [reflexivity|]. split; [|reflexivity].
    intros _. repeat split; auto; congruence.
  - destruct (kms.is_encrypted s) eqn:Henc; cbn.
    + destruct (kms.is_valid s) eqn:Hv; cbn.
      * destruct (kms.is_valid_input s) eqn:Hvi; cbn;
          eexists; (split; [reflexivity|]); split; try discriminate; try reflexivity.
        -- intros _. repeat split; auto; congruence.
        -- intros (_ & _ & H). specialize (H eq_refl). discriminate.
      * eexists; split; [reflexivity|]. split; [discriminate|].
        intros (_ & H & _). specialize (H eq_refl). discriminate.
    + destruct (kms.is_valid_input s) eqn:Hvi; cbn;
        eexists; (split; [reflexivity|]); split; try discriminate; try reflexivity.
      * intros _. repeat split; auto; congruence.
      * intros (_ & _ & H). specialize (H eq_refl). discriminate.
Qed.

Lemma S3_checkPartSizeAndConcurrency_spec (c : S3FsConfig.t) :
  S3FsConfig.checkPartSizeAndConcurrency c = None <-> S3_sizes_ok (S3FsConfig.base c).
Proof.
  unfold S3FsConfig.checkPartSizeAndConcurrency, S3_sizes_ok.
  destruct (S3FsConfig.base c) as [? ? ? ? ? ? ? ? ups uc dps dc ? ? ?]; cbn.
  destruct (Z.eqb_spec ups 0), (Z.ltb_spec ups 5), (Z.gtb_spec ups 5000); cbn;
    try (split; [discriminate | lia]);
  destruct (Z.ltb_spec uc 0), (Z.gtb_spec uc 64); cbn;
    try (split; [discriminate | lia]);
  destruct (Z.eqb_spec dps 0), (Z.ltb_spec dps 5), (Z.gtb_spec dps 5000); cbn;
    try (split; [discriminate | lia]);
  destruct (Z.ltb_spec dc 0), (Z.gtb_spec dc 64); cbn;
    try (split; [discriminate | lia]);
  split; try reflexivity; intros _; lia.
Qed.

Lemma S3_validate_cases (TrimSpace : string -> string) (c : S3FsConfig.t) :
  exists err c',
    S3FsConfig.validate TrimSpace c = Returns (err, c') /\
    (err = None <-> S3_acceptable c) /\
    (err = None -> c' = S3_normalised TrimSpace c) /\
    S3FsConfig.AccessSecret c' = Some (secret_or_empty (S3FsConfig.AccessSecret c)).
Proof.
  unfold S3FsConfig.validate, S3_acceptable. rewrite or_empty_Some.
  destruct c as [b secret].
  unfold S3FsConfig.set_AccessSecret.
  cbn [S3FsConfig.base S3FsConfig.AccessSecret].
  set (c0 := S3FsConfig.mk b (Some (secret_or_empty secret))).
  destruct (String.eqb_spec (S3FsConfig.Bucket b) "") as [Hb|Hb].
  { do 2 eexists. split; [reflexivity|]. split; [|split; [discriminate | reflexivity]].
    split; [discriminate | tauto]. }
  assert (Hreg : String.eqb (S3FsConfig.Endpoint b) "" && String.eqb (S3FsConfig.Region b) ""
                 = false
                 <-> (S3FsConfig.Endpoint b <> "" \/ S3FsConfig.Region b <> "")).
  { destruct (String.eqb_spec (S3FsConfig.Endpoint b) ""),
             (String.eqb_spec (S3FsConfig.Region b) ""); cbn; intuition congruence. }
  destruct (String.eqb (S3FsConfig.Endpoint b) "" && String.eqb (S3FsConfig.Region b) "").
  { do 2 eexists. split; [reflexivity|]. split; [|split; [discriminate | reflexivity]].
    split; [discriminate|]. intros (_ & H & _). apply Hreg in H. discriminate. }
  assert (Hreg' : S3FsConfig.Endpoint b <> "" \/ S3FsConfig.Region b <> "")
    by (apply Hreg; reflexivity).
  destruct (S3_checkCredentials_spec c0 (secret_or_empty secret) eq_refl)
    as (r & Hcc & Hr').
  rewrite Hcc. cbn [go_bind]. cbn [S3FsConfig.base c0] in Hr'.
  destruct r as [e|].
  { do 2 eexists. split; [reflexivity|]. split; [|split; [discriminate | reflexivity]].
    split; [discriminate|]. intros (_ & _ & Hc & _). apply Hr' in Hc. discriminate. }
  assert (Hcred : S3_credentials_ok (S3FsConfig.AccessKey b) (secret_or_empty secret))
    by (apply Hr'; reflexivity).
  destruct (check_key_prefix (S3FsConfig.KeyPrefix b)) as [[e|] kp] eqn:Hkp.
  { do 2 eexists. split; [reflexivity|]. split; [|split; [discriminate | reflexivity]].
    split; [discriminate|]. intros (_ & _ & _ & Hc & _).
    unfold check_key_prefix in Hkp. rewrite Hc in Hkp.
    destruct (negb (String.eqb (S3FsConfig.KeyPrefix b) ""));
      [destruct (negb _) in Hkp|]; discriminate. }
  assert (Hpre : strings.HasPrefix (S3FsConfig.KeyPrefix b) "/" = false).
  { unfold check_key_prefix in Hkp.
    destruct (String.eqb_spec (S3FsConfig.KeyPrefix b) "") as [->|]; [reflexivity|].
    cbn [negb] in Hkp.
    destruct (strings.HasPrefix (S3FsConfig.KeyPrefix b) "/"); [discriminate | reflexivity]. }
  do 2 eexists. split; [reflexivity|].
  split; [|split; [|reflexivity]].
  - rewrite S3_checkPartSizeAndConcurrency_spec.
    unfold S3_sizes_ok. destruct b; cbn in *. tauto.
  - intros _. unfold S3_normalised. cbn [S3FsConfig.base S3FsConfig.AccessSecret].
    rewrite Hkp. destruct b; reflexivity.
Qed.

(** X2: [S3FsConfig.validate] never panics, whatever the configuration
    (a nil secret included).  It returns nil exactly when the bucket is
    set, the endpoint or the region is set, the access key is empty
    exactly when the secret is, the secret (if any) is valid, the key
    prefix does not start with a slash and the part sizes and
    concurrencies are within bounds; it then leaves the configuration with
    the secret materialised, the key prefix normalised, the storage class
    and ACL trimmed, and nothing else changed. *)
Theorem S3_validate_spec (TrimSpace : string -> string) (c : S3FsConfig.t) :
  exists err c',
    S3FsConfig.validate TrimSpace c = Returns (err, c') /\
    (err = None <-> S3_acceptable c) /\
    (err = None -> c' = S3_normalised TrimSpace c) /\
    S3FsConfig.AccessSecret c' = Some (secret_or_empty (S3FsConfig.AccessSecret c)).
Proof. exact (S3_validate_cases TrimSpace c). Qed.

Lemma check_key_prefix_error (kp : string) :
  fst (check_key_prefix kp) = None <-> strings.HasPrefix kp "/" = false.
Proof.
  unfold check_key_prefix.
  destruct (String.eqb_spec kp "") as [->|Hne]; cbn [negb];
    [split; reflexivity|].
  destruct (strings.HasPrefix kp "/"); cbn [fst].
  - split; discriminate.
  - destruct (negb _); split; reflexivity.
Qed.

Lemma GCS_validate_cases (TrimSpace : string -> string) (c : GCSFsConfig.t) :
  exists err c',
    GCSFsConfig.validate TrimSpace c = Returns (err, c') /\
    (err = None <-> GCS_acceptable c) /\
    (err = None -> c' = GCS_normalised TrimSpace c) /\
    GCSFsConfig.Credentials c' = Some (GCS_credentials c).
Proof.
  unfold GCSFsConfig.validate, GCS_acceptable, GCS_normalised.
  destruct c as [b cred].
  assert (Hc0 : (if match cred with None => true | Some _ => false end
                    || (GCSFsConfig.AutomaticCredentials b =? 1)%Z
                 then GCSFsConfig.set_Credentials (GCSFsConfig.mk b cred)
                        (Some kms.NewEmptySecret)
                 else GCSFsConfig.mk b cred)
                = GCSFsConfig.mk b (Some (GCS_credentials (GCSFsConfig.mk b cred)))).
  { unfold GCS_credentials. cbn [GCSFsConfig.base GCSFsConfig.Credentials].
    destruct cred as [s|], (GCSFsConfig.AutomaticCredentials b =? 1)%Z; reflexivity. }
  cbn [GCSFsConfig.base GCSFsConfig.Credentials] in *.
  rewrite Hc0. clear Hc0.
  set (s := GCS_credentials (GCSFsConfig.mk b cred)).
  cbn [GCSFsConfig.base GCSFsConfig.Credentials].
  destruct (String.eqb_spec (GCSFsConfig.Bucket b) "") as [Hb|Hb].
  { do 2 eexists. split; [reflexivity|]. split; [|split; [discriminate | reflexivity]].
    split; [discriminate | tauto]. }
  pose proof (check_key_prefix_error (GCSFsConfig.KeyPrefix b)) as Hpre.
  destruct (check_key_prefix (GCSFsConfig.KeyPrefix b)) as [[e|] kp] eqn:Hkp;
    cbn [fst] in Hpre.
  { do 2 eexists. split; [reflexivity|]. split; [|split; [discriminate | reflexivity]].
    split; [discriminate|]. intros (_ & H & _). apply Hpre in H. discriminate. }
  assert (Hpre' : strings.HasPrefix (GCSFsConfig.KeyPrefix b) "/" = false)
    by (apply Hpre; reflexivity).
  unfold GCSFsConfig.set_KeyPrefix.
  cbn [GCSFsConfig.base GCSFsConfig.Credentials GCSFsConfig.AutomaticCredentials
       kms.IsEncrypted kms.IsValid kms.IsValidInput kms.deref go_bind go_not].
  destruct (kms.is_encrypted s) eqn:Henc; cbn [and_then go_bind go_not];
    [destruct (kms.is_valid s) eqn:Hv; cbn [negb go_bind]|].
  2: { do 2 eexists. split; [reflexivity|]. split; [|split; [discriminate | reflexivity]].
       split; [discriminate|]. intros (_ & _ & H & _). specialize (H eq_refl).
       discriminate. }
  all: destruct (Z.eqb_spec (GCSFsConfig.AutomaticCredentials b) 0) as [Ha|Ha];
    cbn [and_then go_bind go_not];
    [destruct (kms.is_valid_input s) eqn:Hvi; cbn [negb go_bind]|].
  all: try (do 2 eexists; split; [reflexivity|];
            split; [|split; [discriminate | reflexivity]];
            split; [discriminate|]; intros (_ & _ & _ & H); specialize (H Ha);
            discriminate).
  all: unfold GCSFsConfig.set_StorageClass_ACL, GCSFsConfig.set_UploadPartSize,
         GCSFsConfig.set_UploadPartMaxTime;
       cbn [GCSFsConfig.base GCSFsConfig.Credentials GCSFsConfig.UploadPartSize
            GCSFsConfig.UploadPartMaxTime GCSFsConfig.Bucket GCSFsConfig.KeyPrefix
            GCSFsConfig.AutomaticCredentials GCSFsConfig.StorageClass GCSFsConfig.ACL snd];
       destruct b as [bucket kp0 auto sc acl ups upt];
       cbn [GCSFsConfig.base GCSFsConfig.Credentials GCSFsConfig.UploadPartSize
            GCSFsConfig.UploadPartMaxTime GCSFsConfig.Bucket GCSFsConfig.KeyPrefix
            GCSFsConfig.AutomaticCredentials GCSFsConfig.StorageClass GCSFsConfig.ACL] in *;
       destruct (Z.ltb_spec ups 0);
       cbn [GCSFsConfig.base GCSFsConfig.Credentials GCSFsConfig.UploadPartSize
            GCSFsConfig.UploadPartMaxTime GCSFsConfig.Bucket GCSFsConfig.KeyPrefix
            GCSFsConfig.AutomaticCredentials GCSFsConfig.StorageClass GCSFsConfig.ACL];
       destruct (Z.ltb_spec upt 0);
       cbn [GCSFsConfig.base GCSFsConfig.Credentials GCSFsConfig.UploadPartSize
            GCSFsConfig.UploadPartMaxTime GCSFsConfig.Bucket GCSFsConfig.KeyPrefix
            GCSFsConfig.AutomaticCredentials GCSFsConfig.StorageClass GCSFsConfig.ACL];
       (do 2 eexists; split; [reflexivity|]);
       (split; [split; [intros _; repeat split; auto; congruence | reflexivity]|]);
       (split; [|reflexivity]); intros _; f_equal; f_equal; lia.
Qed.

(** X3: [GCSFsConfig.validate] never panics.  With
    [AutomaticCredentials == 1] or nil credentials it first puts the empty
    secret in place; it returns nil exactly when the bucket is set, the
    key prefix does not start with a slash, encrypted credentials are
    valid and, with [AutomaticCredentials == 0], the credentials are valid
    input.  It then leaves the key prefix normalised, the storage class
    and ACL trimmed and a negative part size or part time replaced by 0:
    these two are never a reason to fail. *)
Theorem GCS_validate_spec (TrimSpace : string -> string) (c : GCSFsConfig.t) :
  exists err c',
    GCSFsConfig.validate TrimSpace c = Returns (err, c') /\
    (err = None <-> GCS_acceptable c) /\
    (err = None -> c' = GCS_normalised TrimSpace c) /\
    GCSFsConfig.Credentials c' = Some (GCS_credentials c).
Proof. exact (GCS_validate_cases TrimSpace c). Qed.

Lemma Az_checkCredentials_spec url_Parse (c : AzBlobFsConfig.t) (key sas : kms.Secret) :
  AzBlobFsConfig.AccountKey c = Some key -> AzBlobFsConfig.SASURL c = Some sas ->
  exists r, AzBlobFsConfig.checkCredentials url_Parse c = Returns r /\
            (r = None
             <-> Az_credentials_ok url_Parse
                   (AzBlobFsConfig.AccountName (AzBlobFsConfig.base c)) key sas).
Proof.
  intros Hk Hs. unfold AzBlobFsConfig.checkCredentials, Az_credentials_ok.
  rewrite Hk, Hs.
  cbn [kms.IsPlain kms.IsEmpty kms.IsEncrypted kms.IsValid kms.IsValidInput kms.GetPayload
       kms.deref go_bind go_not].
  destruct (kms.is_plain sas); [eexists; split; [reflexivity | reflexivity]|].
  destruct (kms.is_encrypted sas) eqn:Henc; cbn [and_then go_bind go_not];
    [destruct (kms.is_valid sas) eqn:Hv; cbn [negb go_bind]|].
  2: { eexists. split; [reflexivity|]. split; [discriminate|].
       intros [H _]. specialize (H eq_refl). discriminate. }
  all: destruct (kms.is_empty sas) eqn:Hem; cbn [negb];
    [| eexists; split; [reflexivity|]; split; [|reflexivity];
       intros _; split; [intros; congruence | discriminate] ].
  all: destruct (String.eqb_spec (AzBlobFsConfig.AccountName (AzBlobFsConfig.base c)) "")
         as [Hn|Hn]; cbn [or_else go_bind go_not];
    [ eexists; split; [reflexivity|]; split; [discriminate|];
      intros [_ H]; destruct (H eq_refl) as [H' _]; congruence |].
  all: destruct (kms.is_valid_input key) eqn:Hvi; cbn [negb go_bind];
    [| eexists; split; [reflexivity|]; split; [discriminate|];
       intros [_ H]; destruct (H eq_refl) as (_ & H' & _); discriminate ].
  all: destruct (kms.is_encrypted key) eqn:Hke; cbn [and_then go_bind go_not];
    [destruct (kms.is_valid key) eqn:Hkv; cbn [negb go_bind]|].
  all: eexists; (split; [reflexivity|]); split; try discriminate; try reflexivity;
    try (intros _; repeat split; auto; congruence);
    try (intros [_ H]; destruct (H eq_refl) as (_ & _ & H'); specialize (H' eq_refl);
         discriminate).
Qed.

Lemma Az_checkPartSizeAndConcurrency_spec (c : AzBlobFsConfig.t) :
  AzBlobFsConfig.checkPartSizeAndConcurrency c = None <-> Az_sizes_ok (AzBlobFsConfig.base c).
Proof.
  unfold AzBlobFsConfig.checkPartSizeAndConcurrency, Az_sizes_ok.
  destruct (AzBlobFsConfig.base c) as [? ? ? ? ups uc dps dc ? ?]; cbn.
  destruct (Z.ltb_spec ups 0), (Z.gtb_spec ups 100); cbn;
    try (split; [discriminate | lia]);
  destruct (Z.ltb_spec uc 0), (Z.gtb_spec uc 64); cbn;
    try (split; [discriminate | lia]);
  destruct (Z.ltb_spec dps 0), (Z.gtb_spec dps 100); cbn;
    try (split; [discriminate | lia]);
  destruct (Z.ltb_spec dc 0), (Z.gtb_spec dc 64); cbn;
    try (split; [discriminate | lia]);
  split; try reflexivity; intros _; lia.
Qed.

Lemma util_Contains_In (elems : list string) (v : string) :
  util_Contains elems v = true <-> In v elems.
Proof.
  unfold util_Contains. rewrite existsb_exists. split.
  - intros (x & Hin & Heq). apply String.eqb_eq in Heq. subst. exact Hin.
  - intro Hin. exists v. split; [exact Hin | apply String.eqb_refl].
Qed.

Lemma Az_validate_cases (url_Parse : string -> option error) (c : AzBlobFsConfig.t) :
  exists err c',
    AzBlobFsConfig.validate url_Parse c = Returns (err, c') /\
    (err = None <-> Az_acceptable url_Parse c) /\
    (err = None -> c' = Az_normalised c) /\
    AzBlobFsConfig.AccountKey c' = Some (secret_or_empty (AzBlobFsConfig.AccountKey c)) /\
    AzBlobFsConfig.SASURL c' = Some (secret_or_empty (AzBlobFsConfig.SASURL c)).
Proof.
  unfold AzBlobFsConfig.validate, Az_acceptable, Az_normalised.
  rewrite !or_empty_Some.
  destruct c as [b key sas].
  unfold AzBlobFsConfig.set_AccountKey, AzBlobFsConfig.set_SASURL.
  cbn [AzBlobFsConfig.base AzBlobFsConfig.AccountKey AzBlobFsConfig.SASURL].
  rewrite ?or_empty_Some.
  set (k := secret_or_empty key). set (u := secret_or_empty sas).
  set (c0 := AzBlobFsConfig.mk b (Some k) (Some u)).
  cbn [kms.IsEmpty kms.deref go_bind].
  assert (Hcont : kms.is_empty u && String.eqb (AzBlobFsConfig.Container b) "" = false
                  <-> (kms.is_empty u = true -> AzBlobFsConfig.Container b <> "")).
  { destruct (kms.is_empty u), (String.eqb_spec (AzBlobFsConfig.Container b) "");
      cbn; intuition congruence. }
  destruct (kms.is_empty u && String.eqb (AzBlobFsConfig.Container b) "").
  { do 2 eexists. split; [reflexivity|].
    split; [|split; [discriminate | split; reflexivity]].
    split; [discriminate|]. intros (H & _). apply Hcont in H. discriminate. }
  assert (Hcont' : kms.is_empty u = true -> AzBlobFsConfig.Container b <> "")
    by (apply Hcont; reflexivity).
  destruct (Az_checkCredentials_spec url_Parse c0 k u eq_refl eq_refl) as (r & Hcc & Hr).
  rewrite Hcc. cbn [go_bind]. cbn [AzBlobFsConfig.base c0] in Hr.
  destruct r as [e|].
  { do 2 eexists. split; [reflexivity|].
    split; [|split; [discriminate | split; reflexivity]].
    split; [discriminate|]. intros (_ & H & _). apply Hr in H. discriminate. }
  assert (Hcred : Az_credentials_ok url_Parse (AzBlobFsConfig.AccountName b) k u)
    by (apply Hr; reflexivity).
  pose proof (check_key_prefix_error (AzBlobFsConfig.KeyPrefix b)) as Hpre.
  destruct (check_key_prefix (AzBlobFsConfig.KeyPrefix b)) as [[e|] kp] eqn:Hkp;
    cbn [fst] in Hpre.
  { do 2 eexists. split; [reflexivity|].
    split; [|split; [discriminate | split; reflexivity]].
    split; [discriminate|]. intros (_ & _ & H & _). apply Hpre in H. discriminate. }
  assert (Hpre' : strings.HasPrefix (AzBlobFsConfig.KeyPrefix b) "/" = false)
    by (apply Hpre; reflexivity).
  pose proof (Az_checkPartSizeAndConcurrency_spec (AzBlobFsConfig.set_KeyPrefix c0 kp))
    as Hsz.
  destruct (AzBlobFsConfig.checkPartSizeAndConcurrency (AzBlobFsConfig.set_KeyPrefix c0 kp))
    as [e|].
  { do 2 eexists. split; [reflexivity|].
    split; [|split; [discriminate | split; reflexivity]].
    split; [discriminate|]. intros (_ & _ & _ & H & _).
    assert (Hn : @None error = None) by reflexivity.
    destruct Hsz as [_ Hsz]. 
    assert (Some e = None); [|discriminate]. apply Hsz.
    unfold Az_sizes_ok in *. destruct b; cbn in *. exact H. }
  assert (Hsz' : Az_sizes_ok b).
  { destruct Hsz as [Hsz _]. specialize (Hsz eq_refl).
    unfold Az_sizes_ok in *. destruct b; cbn in *. exact Hsz. }
  pose proof (util_Contains_In validAzAccessTier (AzBlobFsConfig.AccessTier b)) as Htier.
  replace (AzBlobFsConfig.AccessTier (AzBlobFsConfig.base (AzBlobFsConfig.set_KeyPrefix c0 kp)))
    with (AzBlobFsConfig.AccessTier b) by (destruct b; reflexivity).
  destruct (util_Contains validAzAccessTier (AzBlobFsConfig.AccessTier b)); cbn [negb].
  - do 2 eexists. split; [reflexivity|].
    split; [|split; [|split; reflexivity]].
    + split; [|reflexivity]. intros _.
      repeat split; auto; try apply Hsz'. apply Htier. reflexivity.
    + intros _. reflexivity.
  - do 2 eexists. split; [reflexivity|].
    split; [|split; [discriminate | split; reflexivity]].
    split; [discriminate|]. intros (_ & _ & _ & _ & H). apply Htier in H. discriminate.
Qed.

(** X4: [AzBlobFsConfig.validate] never panics: a nil account key or SAS
    URL is first replaced by the empty secret.  It returns nil exactly
    when: the container is set unless a SAS URL is given; a plain SAS URL
    parses, an encrypted one is valid and, without a SAS URL, the account
    name is set and the account key is valid input (and valid if
    encrypted); the key prefix does not start with a slash; part sizes lie
    in 0..100 and concurrencies in 0..64; the access tier is one of the
    four known values.  On success only the key prefix is changed, to its
    normal form. *)
Theorem Az_validate_spec (url_Parse : string -> option error) (c : AzBlobFsConfig.t) :
  exists err c',
    AzBlobFsConfig.validate url_Parse c = Returns (err, c') /\
    (err = None <-> Az_acceptable url_Parse c) /\
    (err = None -> c' = Az_normalised c) /\
    AzBlobFsConfig.AccountKey c' = Some (secret_or_empty (AzBlobFsConfig.AccountKey c)) /\
    AzBlobFsConfig.SASURL c' = Some (secret_or_empty (AzBlobFsConfig.SASURL c)).
Proof. exact (Az_validate_cases url_Parse c). Qed.

Lemma Crypt_validate_cases (c : CryptFsConfig.t) :
  exists err, CryptFsConfig.validate c = Returns err /\ (err = None <-> Crypt_acceptable c).
Proof.
  unfold CryptFsConfig.validate, Crypt_acceptable. destruct c as [[s|]].
  - cbn [CryptFsConfig.Passphrase or_else kms.IsEmpty kms.IsValidInput kms.IsEncrypted
         kms.IsValid kms.deref go_bind go_not].
    destruct (kms.is_empty s) eqn:He; cbn [go_bind].
    { eexists. split; [reflexivity|]. split; [discriminate|].
      intros (s' & E & H & _). injection E as <-. congruence. }
    destruct (kms.is_valid_input s) eqn:Hvi; cbn [negb go_bind].
    2: { eexists. split; [reflexivity|]. split; [discriminate|].
         intros (s' & E & _ & H & _). injection E as <-. congruence. }
    destruct (kms.is_encrypted s) eqn:Henc; cbn [and_then go_bind go_not];
      [destruct (kms.is_valid s) eqn:Hv; cbn [negb go_bind]|].
    + eexists. split; [reflexivity|]. split; [|reflexivity].
      intros _. exists s. auto.
    + eexists. split; [reflexivity|]. split; [discriminate|].
      intros (s' & E & _ & _ & H). injection E as <-. specialize (H Henc). congruence.
    + eexists. split; [reflexivity|]. split; [|reflexivity].
      intros _. exists s. repeat split; auto. intros; congruence.
  - cbn. eexists. split; [reflexivity|]. split; [discriminate|].
    intros (s & E & _). discriminate.
Qed.

(** X5: [CryptFsConfig.validate] never panics, also on a nil passphrase,
    and returns nil exactly when the passphrase is set, not empty, valid
    input and, if encrypted, valid. *)
Theorem Crypt_validate_spec (c : CryptFsConfig.t) :
  exists err, CryptFsConfig.validate c = Returns err /\ (err = None <-> Crypt_acceptable c).
Proof. exact (Crypt_validate_cases c). Qed.

(* ------------------------------------------------------------------ *)
(** ** Validation, then encryption *)

Lemma encrypt_if_plain_Some Encrypt additionalData (s : kms.Secret) :
  encrypt_if_plain Encrypt additionalData (Some s)
  = Returns (if kms.is_plain s
             then (fst (Encrypt (kms.SetAdditionalData s additionalData)),
                   Some (snd (Encrypt (kms.SetAdditionalData s additionalData))),
                   [kms.SetAdditionalData s additionalData])
             else (None, Some s, [])).
Proof.
  unfold encrypt_if_plain. cbn [kms.deref go_bind].
  destruct (kms.is_plain s); [|reflexivity].
  destruct (Encrypt _); reflexivity.
Qed.

(** X6: [S3FsConfig.ValidateAndEncryptCredentials] never panics.  A
    configuration that [validate] does not accept gives a validation
    error and the cipher is not called.  An accepted configuration whose
    secret is not plain text is left normalised, without a call of the
    cipher.  An accepted configuration with a plain secret has the cipher
    called once, on the secret with the additional data set; the
    configuration keeps the secret as the cipher left it, and an error
    of the cipher comes back as a validation error.  So with a cipher
    that does not leave plain text, no plain secret is left after a
    call that returned nil. *)
Theorem S3_ValidateAndEncryptCredentials_spec (TrimSpace : string -> string)
    (Encrypt : kms.cipher) (c : S3FsConfig.t) (additionalData : string) :
  let s := secret_or_empty (S3FsConfig.AccessSecret c) in
  let s1 := kms.SetAdditionalData s additionalData in
  exists err c' calls,
    S3FsConfig.ValidateAndEncryptCredentials TrimSpace Encrypt c additionalData
    = Returns (err, c', calls) /\
    (~ S3_acceptable c ->
     calls = [] /\
     exists e, err = Some (NewValidationError "could not validate s3config: %v" e)) /\
    (S3_acceptable c -> kms.is_plain s = false ->
     calls = [] /\ err = None /\ c' = S3_normalised TrimSpace c) /\
    (S3_acceptable c -> kms.is_plain s = true ->
     calls = [s1] /\
     err = option_map (NewValidationError "could not encrypt s3 access secret: %v")
             (fst (Encrypt s1)) /\
     c' = S3FsConfig.set_AccessSecret (S3_normalised TrimSpace c)
            (Some (snd (Encrypt s1)))) /\
    (err = None -> cipher_encrypts Encrypt ->
     exists s', S3FsConfig.AccessSecret c' = Some s' /\ kms.is_plain s' = false).
Proof.
  cbv zeta.
  destruct (S3_validate_cases TrimSpace c) as (err0 & c0 & Hv & Hacc & Hnorm & Hsec).
  unfold S3FsConfig.ValidateAndEncryptCredentials. rewrite Hv. cbn [go_bind].
  destruct err0 as [e|].
  { do 3 eexists. split; [reflexivity|]. split; [|split; [|split; [|discriminate]]].
    - intros _. split; [reflexivity | eexists; reflexivity].
    - intros Ha. apply Hacc in Ha. discriminate.
    - intros Ha. apply Hacc in Ha. discriminate. }
  specialize (Hnorm eq_refl). rewrite Hsec, encrypt_if_plain_Some. cbn [go_bind].
  set (s := secret_or_empty (S3FsConfig.AccessSecret c)) in *.
  destruct (kms.is_plain s) eqn:Hp.
  - destruct (Encrypt (kms.SetAdditionalData s additionalData)) as [[e|] s2] eqn:He;
      cbn [fst snd]; do 3 eexists; (split; [reflexivity|]);
      (split; [intros Hn; exfalso; apply Hn, Hacc; reflexivity|]);
      (split; [discriminate|]); (split; [intros _ _; subst c0; repeat split|]);
      try discriminate.
    intros _ Hc. eexists. split; [reflexivity|].
    specialize (Hc (kms.SetAdditionalData s additionalData)). rewrite He in Hc.
    apply Hc. reflexivity.
  - do 3 eexists. split; [reflexivity|].
    split; [intros Hn; exfalso; apply Hn, Hacc; reflexivity|].
    split; [|split; [discriminate|]].
    + intros _ _. repeat split. subst c0.
      unfold S3FsConfig.set_AccessSecret. 
      destruct (S3_normalised TrimSpace c) as [b p] eqn:E.
      cbn. f_equal. unfold S3_normalised in E. injection E as _ <-. reflexivity.
    + intros _ _. eexists. split; [reflexivity | exact Hp].
Qed.

(** X7: [GCSFsConfig.ValidateAndEncryptCredentials] never panics.  A
    configuration that [validate] does not accept gives a validation
    error and the cipher is not called.  For an accepted one the
    credentials that count are those [validate] left (empty with
    automatic credentials): not plain, they stay and the cipher is not
    called; plain, the cipher is called once, on them with the additional
    data set, its result is kept and its error comes back as a
    validation error.  With a cipher that does not leave plain text, no
    plain credentials are left after a call that returned nil. *)
Theorem GCS_ValidateAndEncryptCredentials_spec (TrimSpace : string -> string)
    (Encrypt : kms.cipher) (c : GCSFsConfig.t) (additionalData : string) :
  let s := GCS_credentials c in
  let s1 := kms.SetAdditionalData s additionalData in
  exists err c' calls,
    GCSFsConfig.ValidateAndEncryptCredentials TrimSpace Encrypt c additionalData
    = Returns (err, c', calls) /\
    (~ GCS_acceptable c ->
     calls = [] /\
     exists e, err = Some (NewValidationError "could not validate GCS config: %v" e)) /\
    (GCS_acceptable c -> kms.is_plain s = false ->
     calls = [] /\ err = None /\ c' = GCS_normalised TrimSpace c) /\
    (GCS_acceptable c -> kms.is_plain s = true ->
     calls = [s1] /\
     err = option_map (NewValidationError "could not encrypt GCS credentials: %v")
             (fst (Encrypt s1)) /\
     c' = GCSFsConfig.set_Credentials (GCS_normalised TrimSpace c)
            (Some (snd (Encrypt s1)))) /\
    (err = None -> cipher_encrypts Encrypt ->
     exists s', GCSFsConfig.Credentials c' = Some s' /\ kms.is_plain s' = false).
Proof.
  cbv zeta.
  destruct (GCS_validate_cases TrimSpace c) as (err0 & c0 & Hv & Hacc & Hnorm & Hsec).
  unfold GCSFsConfig.ValidateAndEncryptCredentials. rewrite Hv. cbn [go_bind].
  destruct err0 as [e|].
  { do 3 eexists. split; [reflexivity|]. split; [|split; [|split; [|discriminate]]].
    - intros _. split; [reflexivity | eexists; reflexivity].
    - intros Ha. apply Hacc in Ha. discriminate.
    - intros Ha. apply Hacc in Ha. discriminate. }
  specialize (Hnorm eq_refl). rewrite Hsec, encrypt_if_plain_Some. cbn [go_bind].
  set (s := GCS_credentials c) in *.
  destruct (kms.is_plain s) eqn:Hp.
  - destruct (Encrypt (kms.SetAdditionalData s additionalData)) as [[e|] s2] eqn:He;
      cbn [fst snd]; do 3 eexists; (split; [reflexivity|]);
      (split; [intros Hn; exfalso; apply Hn, Hacc; reflexivity|]);
      (split; [discriminate|]); (split; [intros _ _; subst c0; repeat split|]);
      try discriminate.
    intros _ Hc. eexists. split; [reflexivity|].
    specialize (Hc (kms.SetAdditionalData s additionalData)). rewrite He in Hc.
    apply Hc. reflexivity.
  - do 3 eexists. split; [reflexivity|].
    split; [intros Hn; exfalso; apply Hn, Hacc; reflexivity|].
    split; [|split; [discriminate|]].
    + intros _ _. repeat split. subst c0. reflexivity.
    + intros _ _. eexists. split; [reflexivity | exact Hp].
Qed.

(** X8: [AzBlobFsConfig.ValidateAndEncryptCredentials] never panics.  A
    configuration that [validate] does not accept gives a validation
    error and the cipher is not called.  For an accepted one the account
    key comes first: plain, it is handed to the cipher with the
    additional data set; if that fails, the error comes back as a
    validation error and the SAS URL is neither encrypted nor changed.
    Otherwise the SAS URL is treated the same way.  The cipher sees each
    secret at most once, the account key before the SAS URL; with a
    cipher that does not leave plain text, neither secret is plain after
    a call that returned nil. *)
Theorem Az_ValidateAndEncryptCredentials_spec (url_Parse : string -> option error)
    (Encrypt : kms.cipher) (c : AzBlobFsConfig.t) (additionalData : string) :
  let key := encrypted Encrypt additionalData (secret_or_empty (AzBlobFsConfig.AccountKey c)) in
  let sas := encrypted Encrypt additionalData (secret_or_empty (AzBlobFsConfig.SASURL c)) in
  exists err c' calls,
    AzBlobFsConfig.ValidateAndEncryptCredentials url_Parse Encrypt c additionalData
    = Returns (err, c', calls) /\
    (~ Az_acceptable url_Parse c ->
     calls = [] /\
     exists e, err = Some (NewValidationError "could not validate Azure Blob config: %v" e)) /\
    (Az_acceptable url_Parse c -> forall e, fst (fst key) = Some e ->
     calls = snd key /\
     err = Some (NewValidationError "could not encrypt Azure blob account key: %v" e) /\
     c' = AzBlobFsConfig.set_AccountKey (Az_normalised c) (Some (snd (fst key)))) /\
    (Az_acceptable url_Parse c -> fst (fst key) = None ->
     calls = (snd key ++ snd sas)%list /\
     err = option_map (NewValidationError "could not encrypt Azure blob SAS URL: %v")
             (fst (fst sas)) /\
     c' = AzBlobFsConfig.set_SASURL
            (AzBlobFsConfig.set_AccountKey (Az_normalised c) (Some (snd (fst key))))
            (Some (snd (fst sas)))) /\
    (err = None -> cipher_encrypts Encrypt ->
     exists k u, AzBlobFsConfig.AccountKey c' = Some k /\ kms.is_plain k = false /\
                 AzBlobFsConfig.SASURL c' = Some u /\ kms.is_plain u = false).
Proof.
  cbv zeta.
  destruct (Az_validate_cases url_Parse c) as (err0 & c0 & Hv & Hacc & Hnorm & Hk & Hs).
  unfold AzBlobFsConfig.ValidateAndEncryptCredentials. rewrite Hv. cbn [go_bind].
  destruct err0 as [e|].
  { do 3 eexists. split; [reflexivity|]. split; [|split; [|split; [|discriminate]]].
    - intros _. split; [reflexivity | eexists; reflexivity].
    - intros Ha. apply Hacc in Ha. discriminate.
    - intros Ha. apply Hacc in Ha. discriminate. }
  specialize (Hnorm eq_refl). rewrite Hk, encrypt_if_plain_Some. cbn [go_bind].
  assert (Ha : Az_acceptable url_Parse c) by (apply Hacc; reflexivity).
  set (k := secret_or_empty (AzBlobFsConfig.AccountKey c)) in *.
  set (u := secret_or_empty (AzBlobFsConfig.SASURL c)) in *.
  unfold encrypted.
  destruct (kms.is_plain k) eqn:Hpk.
  - destruct (Encrypt (kms.SetAdditionalData k additionalData)) as [[e|] k2] eqn:He;
      cbn [fst snd].
    + do 3 eexists. split; [reflexivity|].
      split; [intros Hn; exfalso; exact (Hn Ha)|].
      split; [|split; [discriminate | discriminate]].
      intros _ e' E. injection E as <-. subst c0. repeat split.
    + unfold AzBlobFsConfig.set_AccountKey at 1.
      cbn [AzBlobFsConfig.SASURL]. rewrite Hs, encrypt_if_plain_Some. cbn [go_bind].
      destruct (kms.is_plain u) eqn:Hpu.
      * destruct (Encrypt (kms.SetAdditionalData u additionalData)) as [[e|] u2] eqn:Hu;
          cbn [fst snd]; do 3 eexists; (split; [reflexivity|]);
          (split; [intros Hn; exfalso; exact (Hn Ha)|]);
          (split; [discriminate|]); (split; [intros _ _; subst c0; repeat split|]);
          try discriminate.
        intros _ Hc. do 2 eexists. split; [reflexivity|]. split; [|split; [reflexivity|]].
        -- specialize (Hc (kms.SetAdditionalData k additionalData)). rewrite He in Hc.
           apply Hc. reflexivity.
        -- specialize (Hc (kms.SetAdditionalData u additionalData)). rewrite Hu in Hc.
           apply Hc. reflexivity.
      * do 3 eexists. split; [reflexivity|].
        split; [intros Hn; exfalso; exact (Hn Ha)|].
        split; [discriminate|]. split.
        -- intros _ _. subst c0. repeat split.
        -- intros _ Hc. do 2 eexists. split; [reflexivity|]. split; [|split; [reflexivity|]].
           ++ specialize (Hc (kms.SetAdditionalData k additionalData)). rewrite He in Hc.
              apply Hc. reflexivity.
           ++ exact Hpu.
  - cbn [fst snd].
    unfold AzBlobFsConfig.set_AccountKey at 1.
    cbn [AzBlobFsConfig.SASURL]. rewrite Hs, encrypt_if_plain_Some. cbn [go_bind].
    destruct (kms.is_plain u) eqn:Hpu.
    + destruct (Encrypt (kms.SetAdditionalData u additionalData)) as [[e|] u2] eqn:Hu;
        cbn [fst snd]; do 3 eexists; (split; [reflexivity|]);
        (split; [intros Hn; exfalso; exact (Hn Ha)|]);
        (split; [discriminate|]); (split; [intros _ _; subst c0; repeat split|]);
        try discriminate.
      intros _ Hc. do 2 eexists. split; [reflexivity|]. split; [|split; [reflexivity|]].
      * exact Hpk.
      * specialize (Hc (kms.SetAdditionalData u additionalData)). rewrite Hu in Hc.
        apply Hc. reflexivity.
    + do 3 eexists. split; [reflexivity|].
      split; [intros Hn; exfalso; exact (Hn Ha)|].
      split; [discriminate|]. split.
      * intros _ _. subst c0. repeat split.
      * intros _ _. do 2 eexists. repeat split; assumption.
Qed.

(** X9: [CryptFsConfig.ValidateAndEncryptCredentials] never panics, also
    on a nil passphrase.  It gives a validation error without calling the
    cipher unless the passphrase is set, not empty, valid input and, if
    encrypted, valid.  Then a passphrase that is not plain is left as it
    is and nil is returned; a plain one is handed to the cipher once,
    with the additional data set, the passphrase becomes what the cipher
    left and an error of the cipher comes back as a validation error. *)
Theorem Crypt_ValidateAndEncryptCredentials_spec (Encrypt : kms.cipher)
    (c : CryptFsConfig.t) (additionalData : string) :
  exists err c' calls,
    CryptFsConfig.ValidateAndEncryptCredentials Encrypt c additionalData
    = Returns (err, c', calls) /\
    (~ Crypt_acceptable c ->
     calls = [] /\ c' = c /\
     exists e, err = Some (NewValidationError "could not validate Crypt fs config: %v" e)) /\
    (forall s, Crypt_acceptable c -> CryptFsConfig.Passphrase c = Some s ->
     (calls, CryptFsConfig.Passphrase c') =
       (snd (encrypted Encrypt additionalData s),
        Some (snd (fst (encrypted Encrypt additionalData s)))) /\
     err = option_map (NewValidationError "could not encrypt Crypt fs passphrase: %v")
             (fst (fst (encrypted Encrypt additionalData s)))) /\
    (err = None -> cipher_encrypts Encrypt ->
     exists s', CryptFsConfig.Passphrase c' = Some s' /\ kms.is_plain s' = false).
Proof.
  destruct (Crypt_validate_cases c) as (err0 & Hv & Hacc).
  unfold CryptFsConfig.ValidateAndEncryptCredentials. rewrite Hv. cbn [go_bind].
  destruct err0 as [e|].
  { do 3 eexists. split; [reflexivity|]. split; [|split; [|discriminate]].
    - intros _. repeat split. eexists; reflexivity.
    - intros s Ha. apply Hacc in Ha. discriminate. }
  assert (Ha : Crypt_acceptable c) by (apply Hacc; reflexivity).
  pose proof Ha as Ha'. destruct Ha as (s & Es & Ha).
  rewrite Es, encrypt_if_plain_Some. cbn [go_bind]. unfold encrypted.
  destruct (kms.is_plain s) eqn:Hp.
  - destruct (Encrypt (kms.SetAdditionalData s additionalData)) as [[e|] s2] eqn:He;
      cbn [fst snd]; do 3 eexists; (split; [reflexivity|]);
      (split; [intros Hn; exfalso; exact (Hn Ha')|]);
      (split; [intros s0 _ E; injection E as <-; rewrite Hp, He; repeat split|]);
      try discriminate.
    intros _ Hc. eexists. split; [reflexivity|].
    specialize (Hc (kms.SetAdditionalData s additionalData)). rewrite He in Hc.
    apply Hc. reflexivity.
  - do 3 eexists. split; [reflexivity|].
    split; [intros Hn; exfalso; exact (Hn Ha')|].
    split.
    + intros s0 _ E. injection E as <-. rewrite Hp. repeat split.
    + intros _ _. eexists. split; [reflexivity | exact Hp].
Qed.

(* ------------------------------------------------------------------ *)
(** ** What isEqual compares *)

(** Decides the comparison of a chain of [if a != b { return false }]
    that is next: the one whose failure [tac] can close. *)
Ltac compare_field tac :=
  match goal with
  | |- context [String.eqb ?x ?y] =>
      destruct (String.eqb_spec x y); cbn [negb]; [| tac]
  | |- context [(?x =? ?y)%Z] =>
      destruct (Z.eqb_spec x y); cbn [negb]; [| tac]
  | |- context [Bool.eqb ?x ?y] =>
      destruct (Bool.eqb_spec x y); cbn [negb]; [| tac]
  end.

(** Closes the case where a field differs. *)
Ltac differ :=
  do 2 eexists; split; [reflexivity|];
  split; [split; [discriminate | intros [E _]; injection E; intros; contradiction]|];
  split; [reflexivity | intros E; injection E; intros; contradiction].

(** X10: [S3FsConfig.isEqual] never panics.  It returns true exactly when
    the two configurations agree on every field of the base
    configuration and their secrets are equal, a nil secret counting as
    the empty one.  When a field differs the receiver is left as it was;
    otherwise its secret, if nil, has become the empty secret. *)
Theorem S3_isEqual_spec (a b : S3FsConfig.t) :
  let sa := secret_or_empty (S3FsConfig.AccessSecret a) in
  let sb := secret_or_empty (S3FsConfig.AccessSecret b) in
  exists r a',
    S3FsConfig.isEqual a b = Returns (r, a') /\
    (r = true <-> S3FsConfig.base a = S3FsConfig.base b /\ kms.is_equal sa sb = true) /\
    (S3FsConfig.base a <> S3FsConfig.base b -> a' = a) /\
    (S3FsConfig.base a = S3FsConfig.base b -> a' = S3FsConfig.mk (S3FsConfig.base a) (Some sa)).
Proof.
  cbv zeta. destruct a as [ba pa], b as [bb pb].
  destruct ba as [a1 a2 a3 a4 a5 a6 a7 a8 a9 a10 a11 a12 a13 a14 a15].
  destruct bb as [b1 b2 b3 b4 b5 b6 b7 b8 b9 b10 b11 b12 b13 b14 b15].
  unfold S3FsConfig.isEqual, S3FsConfig.areMultipartFieldsEqual.
  cbn [S3FsConfig.base S3FsConfig.AccessSecret S3FsConfig.Bucket S3FsConfig.KeyPrefix
       S3FsConfig.Region S3FsConfig.AccessKey S3FsConfig.RoleARN S3FsConfig.Endpoint
       S3FsConfig.StorageClass S3FsConfig.ACL S3FsConfig.UploadPartSize
       S3FsConfig.UploadConcurrency S3FsConfig.DownloadPartSize
       S3FsConfig.DownloadConcurrency S3FsConfig.DownloadPartMaxTime
       S3FsConfig.UploadPartMaxTime S3FsConfig.ForcePathStyle].
  repeat compare_field differ.
  subst. unfold S3FsConfig.isSecretEqual, S3FsConfig.set_AccessSecret.
  cbn [S3FsConfig.AccessSecret S3FsConfig.base]. rewrite !or_empty_Some.
  cbn [kms.IsEqual kms.deref go_bind].
  do 2 eexists. split; [reflexivity|].
  split; [split; [intro H; split; [reflexivity | exact H] | intros [_ H]; exact H]|].
  split; [congruence | reflexivity].
Qed.

(** X11: [GCSFsConfig.isEqual] never panics.  It returns true exactly
    when the two configurations agree on every field of the base
    configuration and their credentials are equal, nil credentials
    counting as the empty secret.  When a field differs the receiver is
    left as it was; otherwise its credentials, if nil, have become the
    empty secret. *)
Theorem GCS_isEqual_spec (a b : GCSFsConfig.t) :
  let sa := secret_or_empty (GCSFsConfig.Credentials a) in
  let sb := secret_or_empty (GCSFsConfig.Credentials b) in
  exists r a',
    GCSFsConfig.isEqual a b = Returns (r, a') /\
    (r = true <-> GCSFsConfig.base a = GCSFsConfig.base b /\ kms.is_equal sa sb = true) /\
    (GCSFsConfig.base a <> GCSFsConfig.base b -> a' = a) /\
    (GCSFsConfig.base a = GCSFsConfig.base b ->
     a' = GCSFsConfig.mk (GCSFsConfig.base a) (Some sa)).
Proof.
  cbv zeta. destruct a as [ba pa], b as [bb pb].
  destruct ba as [a1 a2 a3 a4 a5 a6 a7].
  destruct bb as [b1 b2 b3 b4 b5 b6 b7].
  unfold GCSFsConfig.isEqual.
  cbn [GCSFsConfig.base GCSFsConfig.Credentials GCSFsConfig.Bucket GCSFsConfig.KeyPrefix
       GCSFsConfig.AutomaticCredentials GCSFsConfig.StorageClass GCSFsConfig.ACL
       GCSFsConfig.UploadPartSize GCSFsConfig.UploadPartMaxTime].
  repeat compare_field differ.
  subst. unfold GCSFsConfig.set_Credentials.
  cbn [GCSFsConfig.Credentials GCSFsConfig.base]. rewrite !or_empty_Some.
  cbn [kms.IsEqual kms.deref go_bind].
  do 2 eexists. split; [reflexivity|].
  split; [split; [intro H; split; [reflexivity | exact H] | intros [_ H]; exact H]|].
  split; [congruence | reflexivity].
Qed.

Lemma Az_isEqual_cases (a b : AzBlobFsConfig.t) :
  (~ Az_same_account a b -> AzBlobFsConfig.isEqual a b = Returns (false, a)) /\
  (Az_same_account a b ->
   AzBlobFsConfig.SASURL a = None \/ AzBlobFsConfig.SASURL b = None ->
   AzBlobFsConfig.isEqual a b = Panics) /\
  (forall sa sb,
     Az_same_account a b ->
     AzBlobFsConfig.SASURL a = Some sa -> AzBlobFsConfig.SASURL b = Some sb ->
     exists r a',
       AzBlobFsConfig.isEqual a b = Returns (r, a') /\
       (r = true <->
        AzBlobFsConfig.base a = AzBlobFsConfig.base b /\
        kms.is_equal (emptied sa) (emptied sb) = true /\
        kms.is_equal (secret_or_empty (AzBlobFsConfig.AccountKey a))
          (secret_or_empty (AzBlobFsConfig.AccountKey b)) = true) /\
       AzBlobFsConfig.base a' = AzBlobFsConfig.base a /\
       AzBlobFsConfig.SASURL a' = Some (emptied sa) /\
       (AzBlobFsConfig.AccountKey a' = AzBlobFsConfig.AccountKey a \/
        AzBlobFsConfig.AccountKey a'
        = Some (secret_or_empty (AzBlobFsConfig.AccountKey a)))).
Proof.
  destruct a as [ba ka ua], b as [bb kb ub].
  destruct ba as [a1 a2 a3 a4 a5 a6 a7 a8 a9 a10].
  destruct bb as [b1 b2 b3 b4 b5 b6 b7 b8 b9 b10].
  unfold Az_same_account, AzBlobFsConfig.isEqual.
  cbn [AzBlobFsConfig.base AzBlobFsConfig.AccountKey AzBlobFsConfig.SASURL
       AzBlobFsConfig.Container AzBlobFsConfig.AccountName AzBlobFsConfig.Endpoint
       AzBlobFsConfig.KeyPrefix AzBlobFsConfig.UploadPartSize
       AzBlobFsConfig.UploadConcurrency AzBlobFsConfig.DownloadPartSize
       AzBlobFsConfig.DownloadConcurrency AzBlobFsConfig.UseEmulator
       AzBlobFsConfig.AccessTier].
  split; [|split].
  - intro Hn.
    destruct (String.eqb_spec a1 b1); cbn [negb]; [|reflexivity].
    destruct (String.eqb_spec a2 b2); cbn [negb]; [|reflexivity].
    destruct (String.eqb_spec a3 b3); cbn [negb]; [|reflexivity].
    exfalso. apply Hn. auto.
  - intros (-> & -> & ->) Hnil. rewrite !String.eqb_refl. cbn [negb].
    destruct ua as [sa|]; [|reflexivity].
    destruct ub as [sb|]; [|destruct (kms.is_empty sa); reflexivity].
    destruct Hnil; discriminate.
  - intros sa sb (-> & -> & ->) -> ->. rewrite !String.eqb_refl. cbn [negb].
    cbn [kms.IsEmpty kms.deref go_bind].
    assert (Ea : AzBlobFsConfig.SASURL
                   (if kms.is_empty sa
                    then AzBlobFsConfig.set_SASURL
                           (AzBlobFsConfig.mk
                              (AzBlobFsConfig.mkBase b1 b2 b3 a4 a5 a6 a7 a8 a9 a10)
                              ka (Some sa)) (Some kms.NewEmptySecret)
                    else AzBlobFsConfig.mk
                           (AzBlobFsConfig.mkBase b1 b2 b3 a4 a5 a6 a7 a8 a9 a10)
                           ka (Some sa))
                 = Some (emptied sa))
      by (unfold emptied; destruct (kms.is_empty sa); reflexivity).
    assert (Eb : AzBlobFsConfig.SASURL
                   (if kms.is_empty sb
                    then AzBlobFsConfig.set_SASURL
                           (AzBlobFsConfig.mk
                              (AzBlobFsConfig.mkBase b1 b2 b3 b4 b5 b6 b7 b8 b9 b10)
                              kb (Some sb)) (Some kms.NewEmptySecret)
                    else AzBlobFsConfig.mk
                           (AzBlobFsConfig.mkBase b1 b2 b3 b4 b5 b6 b7 b8 b9 b10)
                           kb (Some sb))
                 = Some (emptied sb))
      by (unfold emptied; destruct (kms.is_empty sb); reflexivity).
    rewrite Ea, Eb. cbn [kms.IsEqual kms.deref go_bind].
    set (a' := if kms.is_empty sa then _ else _) in *.
    assert (Hb' : AzBlobFsConfig.base a'
                  = AzBlobFsConfig.mkBase b1 b2 b3 a4 a5 a6 a7 a8 a9 a10)
      by (subst a'; destruct (kms.is_empty sa); reflexivity).
    assert (Hk' : AzBlobFsConfig.AccountKey a' = ka)
      by (subst a'; destruct (kms.is_empty sa); reflexivity).
    set (b' := if kms.is_empty sb then _ else _) in *.
    assert (Hkb' : AzBlobFsConfig.AccountKey b' = kb)
      by (subst b'; destruct (kms.is_empty sb); reflexivity).
    destruct (kms.is_equal (emptied sa) (emptied sb)) eqn:Hu; cbn [negb].
    2: { do 2 eexists. split; [reflexivity|].
         split; [split; [discriminate | intros (_ & H & _); discriminate]|].
         split; [exact Hb' | split; [exact Ea | left; exact Hk']]. }
    repeat compare_field
      ltac:(do 2 eexists; split; [reflexivity|];
            split; [split; [discriminate
                           | intros (E & _); injection E; intros; contradiction]|];
            split; [exact Hb' | split; [exact Ea | left; exact Hk']]).
    subst a4 a5 a6 a7 a8 a9 a10.
    unfold AzBlobFsConfig.isSecretEqual, AzBlobFsConfig.set_AccountKey.
    cbn [AzBlobFsConfig.AccountKey AzBlobFsConfig.base AzBlobFsConfig.SASURL].
    rewrite !or_empty_Some. cbn [kms.IsEqual kms.deref go_bind].
    do 2 eexists. split; [reflexivity|].
    split; [|split; [|split]].
    + rewrite Hk', Hkb'. split; [intro H; repeat split; try assumption; reflexivity | intros (_ & _ & H); exact H].
    + cbn. exact Hb'.
    + cbn. exact Ea.
    + right. cbn. rewrite Hk'. reflexivity.
Qed.

(** X12: [AzBlobFsConfig.isEqual] guards a nil account key but not a nil
    SAS URL.  When container, account name or endpoint differ it returns
    false and leaves the receiver alone.  When they agree and one of the
    two SAS URLs is nil, it panics.  Otherwise it returns, and returns
    true exactly when the base configurations are equal, the SAS URLs
    are equal (an empty one counting as the empty secret) and the account
    keys are equal (a nil one counting as the empty secret); the receiver
    keeps its base configuration. *)
Theorem Az_isEqual_spec (a b : AzBlobFsConfig.t) :
  (~ Az_same_account a b -> AzBlobFsConfig.isEqual a b = Returns (false, a)) /\
  (Az_same_account a b ->
   AzBlobFsConfig.SASURL a = None \/ AzBlobFsConfig.SASURL b = None ->
   AzBlobFsConfig.isEqual a b = Panics) /\
  (forall sa sb,
     Az_same_account a b ->
     AzBlobFsConfig.SASURL a = Some sa -> AzBlobFsConfig.SASURL b = Some sb ->
     exists r a',
       AzBlobFsConfig.isEqual a b = Returns (r, a') /\
       (r = true <->
        AzBlobFsConfig.base a = AzBlobFsConfig.base b /\
        kms.is_equal (emptied sa) (emptied sb) = true /\
        kms.is_equal (secret_or_empty (AzBlobFsConfig.AccountKey a))
          (secret_or_empty (AzBlobFsConfig.AccountKey b)) = true) /\
       AzBlobFsConfig.base a' = AzBlobFsConfig.base a /\
       AzBlobFsConfig.SASURL a' = Some (emptied sa) /\
       (AzBlobFsConfig.AccountKey a' = AzBlobFsConfig.AccountKey a \/
        AzBlobFsConfig.AccountKey a'
        = Some (secret_or_empty (AzBlobFsConfig.AccountKey a)))).
Proof. exact (Az_isEqual_cases a b). Qed.

(* ------------------------------------------------------------------ *)
(** ** Validated configurations can be compared *)

Lemma Az_same_account_dec (a b : AzBlobFsConfig.t) :
  Az_same_account a b \/ ~ Az_same_account a b.
Proof.
  unfold Az_same_account.
  destruct (String.eqb_spec (AzBlobFsConfig.Container (AzBlobFsConfig.base a))
              (AzBlobFsConfig.Container (AzBlobFsConfig.base b)));
  destruct (String.eqb_spec (AzBlobFsConfig.AccountName (AzBlobFsConfig.base a))
              (AzBlobFsConfig.AccountName (AzBlobFsConfig.base b)));
  destruct (String.eqb_spec (AzBlobFsConfig.Endpoint (AzBlobFsConfig.base a))
              (AzBlobFsConfig.Endpoint (AzBlobFsConfig.base b)));
  try (left; repeat split; assumption); right; intros (? & ? & ?); contradiction.
Qed.

Lemma Az_isSameResource_returns (a b : AzBlobFsConfig.t) (sa sb : kms.Secret) :
  AzBlobFsConfig.SASURL a = Some sa -> AzBlobFsConfig.SASURL b = Some sb ->
  exists q, AzBlobFsConfig.isSameResource a b = Returns q.
Proof.
  intros Ha Hb. unfold AzBlobFsConfig.isSameResource. rewrite Ha, Hb.
  destruct (negb _); [eexists; reflexivity|].
  destruct (negb _); eexists; reflexivity.
Qed.

(** X13: two Azure Blob configurations that [validate] has accepted can
    be compared: on the configurations as [validate] left them, neither
    [isEqual] nor [isSameResource] panics, and when [isEqual] returns
    true so does [isSameResource]. *)
Theorem Az_validated_comparable (url_Parse : string -> option error)
    (a b a1 b1 : AzBlobFsConfig.t) :
  AzBlobFsConfig.validate url_Parse a = Returns (None, a1) ->
  AzBlobFsConfig.validate url_Parse b = Returns (None, b1) ->
  exists r a2 q,
    AzBlobFsConfig.isEqual a1 b1 = Returns (r, a2) /\
    AzBlobFsConfig.isSameResource a1 b1 = Returns q /\
    (r = true -> q = true).
Proof.
  intros Hva Hvb.
  destruct (Az_validate_cases url_Parse a) as (ea & a' & Ha & _ & _ & _ & Hsa).
  destruct (Az_validate_cases url_Parse b) as (eb & b' & Hb & _ & _ & _ & Hsb).
  rewrite Hva in Ha. injection Ha as <- <-.
  rewrite Hvb in Hb. injection Hb as <- <-.
  destruct (Az_isSameResource_returns a1 b1 _ _ Hsa Hsb) as (q & Hq).
  destruct (Az_isEqual_cases a1 b1) as (Hdiff & _ & Hsame).
  destruct (Az_same_account_dec a1 b1) as [Hs|Hn].
  - destruct (Hsame _ _ Hs Hsa Hsb) as (r & a2 & He & _).
    exists r, a2, q. split; [exact He|]. split; [exact Hq|].
    intros ->. destruct (Az_equal_same _ _ _ He) as [Hq' _].
    rewrite Hq in Hq'. injection Hq' as ->. reflexivity.
  - exists false, a1, q. split; [exact (Hdiff Hn)|]. split; [exact Hq | discriminate].
Qed.

Lemma Az_validated_comparable_witness :
  exists r a2 q,
    AzBlobFsConfig.isEqual (Az_normalised az_example) (Az_normalised az_example)
    = Returns (r, a2) /\
    AzBlobFsConfig.isSameResource (Az_normalised az_example) (Az_normalised az_example)
    = Returns q /\
    (r = true -> q = true).
Proof.
  apply (Az_validated_comparable url_ok az_example az_example); reflexivity.
Defined.

(** X14: two encrypted-filesystem configurations that [validate] has
    accepted can be compared: neither [isEqual] nor [isSameResource]
    panics, and when [isEqual] returns true so does [isSameResource]. *)
Theorem Crypt_validated_comparable (a b : CryptFsConfig.t) :
  CryptFsConfig.validate a = Returns None ->
  CryptFsConfig.validate b = Returns None ->
  exists r a2 q,
    CryptFsConfig.isEqual a b = Returns (r, a2) /\
    CryptFsConfig.isSameResource a b = Returns q /\
    (r = true -> q = true).
Proof.
  intros Hva Hvb.
  destruct (Crypt_validate_cases a) as (ea & Ha & Hacc_a).
  destruct (Crypt_validate_cases b) as (eb & Hb & Hacc_b).
  rewrite Hva in Ha. injection Ha as <-.
  rewrite Hvb in Hb. injection Hb as <-.
  destruct Hacc_a as [Hacc_a _]. destruct (Hacc_a eq_refl) as (sa & Hsa & _).
  destruct Hacc_b as [Hacc_b _]. destruct (Hacc_b eq_refl) as (sb & Hsb & _).
  destruct a as [pa], b as [pb]. cbn in Hsa, Hsb. subst pa pb.
  do 3 eexists. split; [reflexivity|]. split; [reflexivity|].
  cbn. apply is_equal_payload.
Qed.

Lemma Crypt_validated_comparable_witness :
  exists r a2 q,
    CryptFsConfig.isEqual crypt_example crypt_example = Returns (r, a2) /\
    CryptFsConfig.isSameResource crypt_example crypt_example = Returns q /\
    (r = true -> q = true).
Proof.
  apply (Crypt_validated_comparable crypt_example crypt_example); reflexivity.
Defined.

(* ------------------------------------------------------------------ *)
(** ** Metadata check: what it touches *)

Lemma HasSuffix_fsPrefix_of (folder : string) :
  strings.HasSuffix (fsPrefix_of folder) "/" = true.
Proof.
  unfold fsPrefix_of. destruct (strings.HasSuffix folder "/") eqn:E; cbn [negb].
  - exact E.
  - apply HasSuffix_app_slash.
Qed.

Lemma IsAbs_ensureAbsPath (name : string) : path.IsAbs (ensureAbsPath name) = true.
Proof.
  unfold ensureAbsPath. destruct (path.IsAbs name) eqn:E; [exact E|].
  rewrite Join_root. apply CleanRooted.Clean_rooted. reflexivity.
Qed.

Section Scope.
Variables (fs : Fs) (sid keyPrefix : string).

Lemma removeMissing_scope folder fileNames metadataValues :
  within_prefix keyPrefix (fsPrefix_of folder) ->
  forall t r, Run (removeMissing fs sid folder metadataValues fileNames) t r ->
  Forall (in_scope fs sid keyPrefix) t.
Proof.
  intro Hw. induction metadataValues as [|[k v] rest IH]; intros t r H.
  - destruct H as [-> _]. constructor.
  - cbn [removeMissing] in H. apply Run_bind in H as (t1 & a & t2 & -> & H1 & H2).
    apply Forall_app. split; [|eapply IH; exact H2].
    destruct (negb (has_key fileNames k)).
    + run_cbn H1. destruct H1 as (x & t' & -> & H1).
      assert (Hr : in_scope fs sid keyPrefix
                     (CRemoveMetadata sid (ensureAbsPath (path.Join [folder; k])) x)).
      { split; [reflexivity|]. split; [apply IsAbs_ensureAbsPath|].
        exists folder, k. split; [reflexivity | exact Hw]. }
      destruct x as [e|]; run_cbn H1; destruct H1 as (t'' & -> & -> & _);
        (constructor; [exact Hr | constructor; [reflexivity | constructor]]).
    + destruct H1 as [-> _]. constructor.
Qed.

Lemma checkFolder_scope folder t r :
  Run (checkFolder fs sid keyPrefix folder) t r -> Forall (in_scope fs sid keyPrefix) t.
Proof.
  unfold checkFolder. intro H.
  destruct (negb (String.eqb keyPrefix "") && _) eqn:Hskip.
  { run_cbn H. destruct H as (t' & -> & -> & ->). repeat constructor. }
  assert (Hw : within_prefix keyPrefix (fsPrefix_of folder)).
  { unfold within_prefix. apply andb_false_iff in Hskip as [Hk|Hp].
    - left. apply negb_false_iff, String.eqb_eq in Hk. exact Hk.
    - right. apply negb_false_iff in Hp. exact Hp. }
  run_cbn H. destruct H as (t0 & -> & [mv err] & t1 & -> & H).
  constructor; [reflexivity|]. constructor; [split; [reflexivity | exact Hw]|].
  destruct err as [e|].
  { run_cbn H. destruct H as (t' & -> & -> & ->). repeat constructor. }
  destruct (List.length mv =? 0)%nat.
  { run_cbn H. destruct H as (t' & -> & -> & ->). repeat constructor. }
  run_cbn H. destruct H as ([fn err] & t2 & -> & H).
  constructor; [split; [apply HasSuffix_fsPrefix_of | exact Hw]|].
  destruct err as [e|].
  { run_cbn H. destruct H as (t' & -> & -> & ->). repeat constructor. }
  apply Run_bind in H as (t3 & a & t4 & -> & H1 & [-> ->]).
  rewrite app_nil_r. eapply removeMissing_scope; [exact Hw | exact H1].
Qed.

Lemma checkFolders_scope folders : forall from t r,
  Run (checkFolders fs sid keyPrefix folders from) t r ->
  Forall (in_scope fs sid keyPrefix) t.
Proof.
  induction folders as [|folder rest IH]; intros from t r H.
  - destruct H as [-> _]. constructor.
  - cbn [checkFolders] in H. apply Run_bind in H as (t1 & a & t2 & -> & H1 & H2).
    apply Forall_app. split; [eapply checkFolder_scope; exact H1|].
    destruct a as [e|].
    + destruct H2 as [-> _]. constructor.
    + eapply IH; exact H2.
Qed.

Lemma checkPages_scope pages : forall from t r,
  Run (checkPages pages fs sid keyPrefix 100 from) t r ->
  Forall (in_scope fs sid keyPrefix) t.
Proof.
  induction pages as [|pages IH]; intros from t r H.
  - destruct H as [-> _]. constructor.
  - cbn [checkPages] in H. run_cbn H.
    destruct H as ([folders err] & t1 & -> & H).
    constructor; [split; reflexivity|].
    destruct err as [e|].
    { run_cbn H. destruct H as (t' & -> & -> & ->). repeat constructor. }
    apply Run_bind in H as (t2 & a & t3 & -> & H1 & H2).
    apply Forall_app. split; [eapply checkFolders_scope; exact H1|].
    destruct a as [from'|e].
    + destruct (Z.of_nat (List.length folders) <? 100)%Z.
      * destruct H2 as [-> _]. constructor.
      * eapply IH; exact H2.
    + destruct H2 as [-> _]. constructor.
Qed.

Lemma fsMetadataCheck_scope_run pages t r :
  Run (fsMetadataCheck pages fs sid keyPrefix) t r ->
  Forall (in_scope fs sid keyPrefix) t /\
  exists has t', t = CHasMetadater has :: t' /\
                 (has = false -> t' = [] /\ r = Some None).
Proof.
  unfold fsMetadataCheck. intro H. run_cbn H.
  destruct H as (has & t1 & -> & H).
  destruct has; cbn [negb] in H.
  - split; [constructor; [exact I | eapply checkPages_scope; exact H]|].
    exists true, t1. split; [reflexivity | discriminate].
  - destruct H as [-> ->]. split; [repeat constructor|].
    exists false, []. repeat split.
Qed.

End Scope.

(** X15: whatever the plugin and the backend answer, a run of
    [fsMetadataCheck] for a storage id and key prefix starts by asking
    for a metadater and, without one, does nothing else and returns nil.
    Every call to the plugin carries that storage id; folders are asked
    for 100 at a time; modification times are fetched, and the backend
    is listed, only for folders inside the key prefix, the listing
    prefix ending with a slash; metadata is removed only at absolute
    paths, made of such a folder and a key; every log line is written
    for the filesystem given. *)
Theorem fsMetadataCheck_scope {S} (h : handler S) (s : S) (pages : nat) (fs : Fs)
    (storageID keyPrefix : string) :
  let t := fst (fst (exec h (fsMetadataCheck pages fs storageID keyPrefix) s)) in
  let r := snd (fst (exec h (fsMetadataCheck pages fs storageID keyPrefix) s)) in
  Forall (in_scope fs storageID keyPrefix) t /\
  exists has t', t = CHasMetadater has :: t' /\
                 (has = false -> t' = [] /\ r = Some None).
Proof.
  cbv zeta.
  destruct (exec h (fsMetadataCheck pages fs storageID keyPrefix) s) as [[t r] s'] eqn:E.
  apply exec_Run in E. cbn [fst snd].
  eapply fsMetadataCheck_scope_run. exact E.
Qed.

(* ------------------------------------------------------------------ *)
(** ** Metadata check: paging *)

Lemma page_calls_app (t1 t2 : list Entry) :
  page_calls (t1 ++ t2) = (page_calls t1 ++ page_calls t2)%list.
Proof.
  induction t1 as [|c t1 IH]; [reflexivity|].
  destruct c as [| ? ? ? [? ?] | | | |]; simpl; rewrite IH; reflexivity.
Qed.

Lemma removeMissing_pages fs sid folder fileNames metadataValues : forall t r,
  Run (removeMissing fs sid folder metadataValues fileNames) t r -> page_calls t = [].
Proof.
  induction metadataValues as [|[k v] rest IH]; intros t r H.
  - destruct H as [-> _]. reflexivity.
  - cbn [removeMissing] in H. apply Run_bind in H as (t1 & a & t2 & -> & H1 & H2).
    rewrite page_calls_app, (IH _ _ H2), app_nil_r.
    destruct (negb (has_key fileNames k)).
    + run_cbn H1. destruct H1 as (x & t' & -> & H1).
      destruct x as [e|]; run_cbn H1; destruct H1 as (t'' & -> & -> & _); reflexivity.
    + destruct H1 as [-> _]. reflexivity.
Qed.

Lemma checkFolder_pages fs sid keyPrefix folder t r :
  Run (checkFolder fs sid keyPrefix folder) t r -> page_calls t = [].
Proof.
  unfold checkFolder. intro H.
  destruct (negb (String.eqb keyPrefix "") && _).
  { run_cbn H. destruct H as (t' & -> & -> & ->). reflexivity. }
  run_cbn H. destruct H as (t0 & -> & [mv err] & t1 & -> & H).
  destruct err as [e|].
  { run_cbn H. destruct H as (t' & -> & -> & ->). reflexivity. }
  destruct (List.length mv =? 0)%nat.
  { run_cbn H. destruct H as (t' & -> & -> & ->). reflexivity. }
  run_cbn H. destruct H as ([fn err] & t2 & -> & H).
  destruct err as [e|].
  { run_cbn H. destruct H as (t' & -> & -> & ->). reflexivity. }
  apply Run_bind in H as (t3 & a & t4 & -> & H1 & [-> ->]).
  rewrite app_nil_r. cbn [page_calls]. eapply removeMissing_pages; exact H1.
Qed.

Lemma last_default {A} (l : list A) (d d' : A) : l <> [] -> last l d = last l d'.
Proof.
  induction l as [|x l IH]; [congruence|]. intros _.
  destruct l as [|y l]; [reflexivity|]. apply IH. discriminate.
Qed.

Lemma checkFolders_pages fs sid keyPrefix folders : forall from t r,
  Run (checkFolders fs sid keyPrefix folders from) t r ->
  page_calls t = [] /\ forall from', r = inl from' -> from' = last folders from.
Proof.
  induction folders as [|folder rest IH]; intros from t r H.
  - destruct H as [-> ->]. split; [reflexivity|]. intros from' E. injection E as <-.
    reflexivity.
  - cbn [checkFolders] in H. apply Run_bind in H as (t1 & a & t2 & -> & H1 & H2).
    rewrite page_calls_app, (checkFolder_pages _ _ _ _ _ _ H1). cbn [app].
    destruct a as [e|].
    + destruct H2 as [-> ->]. split; [reflexivity | discriminate].
    + destruct (IH _ _ _ H2) as [Hp Hl]. split; [exact Hp|].
      intros from' E. rewrite (Hl _ E).
      destruct rest as [|f rest]; [reflexivity|].
      change (last (folder :: f :: rest) from) with (last (f :: rest) from).
      apply last_default. discriminate.
Qed.

Lemma checkPages_paging fs sid keyPrefix limit pages : forall from t r,
  Run (checkPages pages fs sid keyPrefix limit from) t r ->
  paging_ok limit from (page_calls t) /\
  (List.length (page_calls t) <= pages)%nat /\
  (r = None ->
   List.length (page_calls t) = pages /\ Forall (full_page limit) (page_calls t)) /\
  (r = Some None -> ended_on_short_page limit t).
Proof.
  unfold ended_on_short_page.
  induction pages as [|pages IH]; intros from t r H.
  - destruct H as [-> ->]. cbn. repeat split; auto; discriminate.
  - cbn [checkPages] in H. run_cbn H.
    destruct H as ([folders err] & t1 & -> & H). cbn [page_calls].
    destruct err as [e|].
    { run_cbn H. destruct H as (t' & -> & -> & ->). cbn.
      repeat split; auto; try lia; discriminate. }
    apply Run_bind in H as (t2 & a & t3 & -> & H1 & H2).
    destruct (checkFolders_pages _ _ _ _ _ _ _ H1) as [Hp Hl].
    rewrite page_calls_app, Hp. cbn [app].
    destruct a as [from'|e].
    + specialize (Hl _ eq_refl). subst from'.
      destruct (Z.ltb_spec (Z.of_nat (List.length folders)) limit) as [Hlt|Hge].
      * destruct H2 as [-> ->]. cbn.
        repeat split; auto; try lia; try discriminate.
        intros _. exists [], from, folders. split; [reflexivity | exact Hlt].
      * destruct (IH _ _ _ H2) as (Hok & Hlen & Hnone & Hsome).
        cbn [paging_ok List.length fst snd].
        split; [split; [reflexivity|]; split; [right; split; [reflexivity | exact Hge]
                                              | exact Hok]|].
        split; [lia|]. split.
        -- intro Hr. destruct (Hnone Hr) as [Hn Hf]. split; [lia|].
           constructor; [split; [reflexivity | exact Hge] | exact Hf].
        -- intro Hr. destruct (Hsome Hr) as (pcs & from' & folders' & E & Hlt).
           exists ((from, folders, None) :: pcs), from', folders'.
           rewrite E. split; [reflexivity | exact Hlt].
    + destruct H2 as [-> ->]. cbn.
      repeat split; auto; try lia; discriminate.
Qed.

Lemma checkPages_more {S} (h : handler S) fs sid keyPrefix limit k pages :
  forall from s t r s',
  exec h (checkPages pages fs sid keyPrefix limit from) s = (t, Some r, s') ->
  exec h (checkPages (pages + k) fs sid keyPrefix limit from) s = (t, Some r, s').
Proof.
  induction pages as [|pages IH]; intros from s t r s' H.
  - discriminate H.
  - cbn [Nat.add checkPages] in *.
    cbn [prog_bind call exec] in *.
    destruct (h _ (GetMetadataFolders sid from limit) s) as [[folders err] s1].
    destruct err as [e|]; [exact H|].
    rewrite exec_bind in *.
    destruct (exec h (checkFolders fs sid keyPrefix folders from) s1) as [[t1 a] s2].
    destruct a as [from'|e]; [|exact H].
    destruct (Z.of_nat (List.length folders) <? limit)%Z; [exact H|].
    destruct (exec h (checkPages pages fs sid keyPrefix limit from') s2)
      as [[t2 r2] s3] eqn:E.
    injection H as <- -> <-.
    rewrite (IH _ _ _ _ _ E). reflexivity.
Qed.

(** X16: the paging of [fsMetadataCheck], whatever the plugin and the
    backend answer.  The first page of folders is asked for with an
    empty cursor; a further page is asked for only after a page that
    came without error and with at least 100 folders, and its cursor is
    the last folder of that page.  When the check returns nil and a
    metadater is there, the last page came without error and with fewer
    than 100 folders.  The check can fail to return within [pages]
    pages only when the plugin answered that many full pages; and once
    it returns, allowing more pages changes nothing of the run. *)
Theorem fsMetadataCheck_paging {S} (h : handler S) (s : S) (pages : nat) (fs : Fs)
    (storageID keyPrefix : string) :
  let run := exec h (fsMetadataCheck pages fs storageID keyPrefix) s in
  let t := fst (fst run) in
  let r := snd (fst run) in
  paging_ok 100 "" (page_calls t) /\
  (List.length (page_calls t) <= pages)%nat /\
  (r = None ->
   List.length (page_calls t) = pages /\ Forall (full_page 100) (page_calls t)) /\
  (r = Some None -> t = [CHasMetadater false] \/ ended_on_short_page 100 t) /\
  (r <> None ->
   forall k, exec h (fsMetadataCheck (pages + k) fs storageID keyPrefix) s = run).
Proof.
  cbv zeta.
  destruct (exec h (fsMetadataCheck pages fs storageID keyPrefix) s) as [[t r] s'] eqn:E.
  cbn [fst snd].
  assert (Hmore : r <> None ->
            forall k, exec h (fsMetadataCheck (pages + k) fs storageID keyPrefix) s
                      = (t, r, s')).
  { intros Hr k. destruct r as [r|]; [|contradiction]. revert E.
    unfold fsMetadataCheck. cbn [prog_bind call exec].
    destruct (h _ HasMetadater s) as [has s1].
    destruct has; cbn [negb]; [|intro E; exact E].
    destruct (exec h (checkPages pages fs storageID keyPrefix 100 "") s1)
      as [[t2 r2] s3] eqn:E2.
    intro E. injection E as <- -> <-.
    rewrite (checkPages_more h _ _ _ _ k _ _ _ _ _ _ E2). reflexivity. }
  apply exec_Run in E. revert E. unfold fsMetadataCheck. intro H. run_cbn H.
  destruct H as (has & t1 & -> & H). cbn [page_calls].
  destruct has; cbn [negb] in H.
  - destruct (checkPages_paging _ _ _ _ _ _ _ _ H) as (Hok & Hlen & Hnone & Hsome).
    split; [exact Hok|]. split; [exact Hlen|]. split; [exact Hnone|].
    split; [|exact Hmore].
    intro Hr. right. destruct (Hsome Hr) as (pcs & from & folders & E & Hlt).
    exists pcs, from, folders. split; [exact E | exact Hlt].
  - destruct H as [-> ->]. cbn.
    split; [exact I|]. split; [lia|]. split; [discriminate|].
    split; [left; reflexivity | exact Hmore].
Qed.

(* ------------------------------------------------------------------ *)
(** ** Kinds of filesystems *)

(** X17: whatever the names of the local, SFTP and HTTP filesystems are,
    [HasOpenRWSupport] and [IsLocalOrUnbufferedSFTPFs] are the same
    predicate; a filesystem that can be opened for reading and writing
    can be truncated; and the local and SFTP filesystems are exactly
    those that are local or unbuffered SFTP, or buffered SFTP, where a
    buffered SFTP filesystem that is not also the local one cannot be
    opened for reading and writing. *)
Theorem filesystem_capabilities (osFsName sftpFsName httpFsName : string) (fs : Backend) :
  HasOpenRWSupport osFsName sftpFsName fs = IsLocalOrUnbufferedSFTPFs osFsName sftpFsName fs /\
  (HasOpenRWSupport osFsName sftpFsName fs = true ->
   HasTruncateSupport osFsName sftpFsName httpFsName fs = true) /\
  IsLocalOrSFTPFs osFsName sftpFsName fs
  = IsLocalOrUnbufferedSFTPFs osFsName sftpFsName fs || IsBufferedSFTPFs sftpFsName fs /\
  (IsBufferedSFTPFs sftpFsName fs = true -> IsLocalOsFs osFsName fs = false ->
   HasOpenRWSupport osFsName sftpFsName fs = false).
Proof.
  unfold HasOpenRWSupport, IsLocalOrUnbufferedSFTPFs, HasTruncateSupport, IsLocalOrSFTPFs,
    IsBufferedSFTPFs.
  destruct (IsLocalOsFs osFsName fs), (IsSFTPFs sftpFsName fs),
    (IsUploadResumeSupported fs), (IsHTTPFs httpFsName fs); cbn;
    repeat split; intros; congruence.
Qed.

(* ------------------------------------------------------------------ *)
(** ** Quota: what is left *)

(** X18: for a quota check result with non-negative usage,
    [GetRemainingSize] is never more than the quota; it is negative
    exactly when a quota is set and the usage is above it, and it is 0
    exactly when no quota is set or the usage equals the quota.  The
    same holds for [GetRemainingFiles]. *)
Theorem GetRemaining_bounds (q : QuotaCheckResult) :
  QuotaCheckResult_wf q -> (0 <= UsedSize q)%Z -> (0 <= UsedFiles q)%Z ->
  ((GetRemainingSize q <= Z.max 0 (QuotaSize q))%Z /\
   ((GetRemainingSize q < 0)%Z <-> (0 < QuotaSize q < UsedSize q)%Z) /\
   (GetRemainingSize q = 0%Z <-> (QuotaSize q <= 0)%Z \/ UsedSize q = QuotaSize q)) /\
  ((GetRemainingFiles q <= Z.max 0 (QuotaFiles q))%Z /\
   ((GetRemainingFiles q < 0)%Z <-> (0 < QuotaFiles q < UsedFiles q)%Z) /\
   (GetRemainingFiles q = 0%Z <-> (QuotaFiles q <= 0)%Z \/ UsedFiles q = QuotaFiles q)).
Proof.
  intros (HAS & HAF & HUS & HUF & HQS & HQF) Hus Huf.
  unfold GetRemainingSize, GetRemainingFiles, int_bits in *.
  assert (Hw : forall quota used, in_range 64 quota -> in_range 64 used ->
                 (0 < quota)%Z -> (0 <= used)%Z -> wrap 64 (quota - used) = (quota - used)%Z).
  { intros quota used Hq Hu Hpos Hnn. apply wrap_in_range.
    unfold in_range in *. change (2 ^ (64 - 1))%Z with 9223372036854775808%Z in *. lia. }
  split.
  - destruct (Z.gtb_spec (QuotaSize q) 0) as [Hpos|Hnp].
    + rewrite Hw by (assumption || lia). lia.
    + lia.
  - destruct (Z.gtb_spec (QuotaFiles q) 0) as [Hpos|Hnp].
    + rewrite Hw by (assumption || lia). lia.
    + lia.
Qed.

Lemma GetRemaining_bounds_witness :
  (GetRemainingSize quota_example <= Z.max 0 (QuotaSize quota_example))%Z /\
  (GetRemainingSize quota_example = 0%Z <->
   (QuotaSize quota_example <= 0)%Z \/ UsedSize quota_example = QuotaSize quota_example).
Proof.
  assert (Hwf : QuotaCheckResult_wf quota_example).
  { unfold QuotaCheckResult_wf, in_range, int_bits. simpl. lia. }
  destruct (GetRemaining_bounds quota_example Hwf) as ((H1 & _ & H3) & _).
  - simpl. lia.
  - simpl. lia.
  - split; [exact H1 | exact H3].
Defined.

(* ------------------------------------------------------------------ *)
(** ** PipeWriter: a rendezvous needs both sides *)

(** X19: the channel of a [PipeWriter] is unbuffered, so each side
    waits for the other.  A call of [Close] made when no call of [Done]
    is under way never returns: it waits in [p.writer.Close()] or at its
    receive, and the stored error does not change.  A call of [Done] made after
    [Close] has returned never returns either. *)
Theorem rendezvous_needs_partner (c c' : PipeWriter.config) :
  PipeWriter.steps c c' ->
  (PipeWriter.done_pc c = PipeWriter.DoneReturned ->
   PipeWriter.close_pc c = PipeWriter.AtWriterClose \/
   PipeWriter.close_pc c = PipeWriter.AtReceive ->
   (PipeWriter.close_pc c' = PipeWriter.AtWriterClose \/
    PipeWriter.close_pc c' = PipeWriter.AtReceive) /\
   PipeWriter.done_pc c' = PipeWriter.DoneReturned /\
   PipeWriter.err (PipeWriter.pipe c') = PipeWriter.err (PipeWriter.pipe c)) /\
  (forall r e,
     PipeWriter.close_pc c = PipeWriter.Closed r ->
     PipeWriter.done_pc c = PipeWriter.AtStore e ->
     PipeWriter.close_pc c' = PipeWriter.Closed r /\
     (PipeWriter.done_pc c' = PipeWriter.AtStore e \/
      PipeWriter.done_pc c' = PipeWriter.AtSend /\
      PipeWriter.err (PipeWriter.pipe c') = e)).
Proof.
  induction 1 as [c | c c2 c3 _ IH Hstep | c c2 c3 _ IH Hstep].
  - split.
    + intros Hd Hc. auto.
    + intros r e Hc Hd. auto.
  - destruct IH as [IH1 IH2]. split.
    + intros Hd Hc. destruct (IH1 Hd Hc) as (Hc2 & Hd2 & He2).
      destruct Hstep; cbn in *; try discriminate;
        try (destruct Hc2; discriminate); auto.
    + intros r e Hc Hd. destruct (IH2 r e Hc Hd) as (Hc2 & Hd2).
      destruct Hstep; cbn in *; try discriminate.
      destruct Hd2 as [Hd2|[Hd2 _]]; [|discriminate].
      injection Hd2 as ->. auto.
  - destruct IH as [IH1 IH2]. destruct Hstep. cbn in *. split.
    + intros Hd Hc. exact (IH1 Hd Hc).
    + intros r e Hc Hd. exact (IH2 r e Hc Hd).
Qed.

Lemma rendezvous_needs_partner_witness :
  let c' := PipeWriter.mkConfig (PipeWriter.mk true None) true PipeWriter.AtReceive
              PipeWriter.DoneReturned in
  (PipeWriter.close_pc c' = PipeWriter.AtWriterClose \/
   PipeWriter.close_pc c' = PipeWriter.AtReceive) /\
  PipeWriter.done_pc c' = PipeWriter.DoneReturned /\
  PipeWriter.err (PipeWriter.pipe c') = None /\
  PipeWriter.successors c' = [].
Proof.
  cbv zeta.
  destruct (rendezvous_needs_partner
              (PipeWriter.mkConfig PipeWriter.NewPipeWriter true PipeWriter.AtWriterClose
                 PipeWriter.DoneReturned)
              (PipeWriter.mkConfig (PipeWriter.mk true None) true PipeWriter.AtReceive
                 PipeWriter.DoneReturned)) as [H _].
  - eapply PipeWriter.steps_step; [apply PipeWriter.steps_refl|].
    apply (PipeWriter.step_writer_close PipeWriter.NewPipeWriter).
  - destruct (H eq_refl (or_introl eq_refl)) as (H1 & H2 & H3).
    split; [exact H1|]. split; [exact H2|]. split; [exact H3 | reflexivity].
Defined.

(* ------------------------------------------------------------------ *)
(** ** Modification times of a folder *)

(** X20: whatever the plugin answers, [getFolderModTimes] asks whether
    there is a metadater and, without one, makes no other call and
    returns an empty map and nil.  With one it makes exactly one call
    of [GetModificationTimes], for the storage id given and the
    absolute form of the folder; it returns the map of the plugin
    together with the error of the plugin, except that
    [ErrNoSuchObject] is turned into nil.  It writes no log line and
    removes nothing. *)
Theorem getFolderModTimes_spec {S} (is_ErrNoSuchObject : error -> bool)
    (h : handler S) (s : S) (storageID dirName : string) :
  let run := exec h (getFolderModTimes is_ErrNoSuchObject storageID dirName) s in
  let t := fst (fst run) in
  let r := snd (fst run) in
  (t = [CHasMetadater false] /\ r = ([], None)) \/
  (exists modTimes err,
     t = [CHasMetadater true;
          CGetModificationTimes storageID (ensureAbsPath dirName) (modTimes, err)] /\
     path.IsAbs (ensureAbsPath dirName) = true /\
     fst r = modTimes /\
     snd r = match err with
             | Some e => if is_ErrNoSuchObject e then None else Some e
             | None => None
             end).
Proof.
  cbv zeta. unfold getFolderModTimes. cbn [prog_bind call exec].
  destruct (h _ HasMetadater s) as [has s1].
  destruct has; [|left; split; reflexivity].
  right. cbn [prog_bind call exec].
  destruct (h _ (GetModificationTimes storageID (ensureAbsPath dirName)) s1)
    as [[modTimes err] s2].
  exists modTimes, err.
  assert (Habs : path.IsAbs (ensureAbsPath dirName) = true).
  { unfold ensureAbsPath. destruct (path.IsAbs dirName) eqn:E; [exact E|].
    rewrite Join_root. apply CleanRooted.Clean_rooted. reflexivity. }
  destruct err as [e|]; [destruct (is_ErrNoSuchObject e)|]; cbn;
    repeat split; exact Habs.
Qed.

(* ------------------------------------------------------------------ *)
(** ** Mount paths *)

Lemma Join_plain_nonempty (segs : list string) :
  segs <> [] -> forallb path.plain_segment segs = true -> strings.Join segs "/" <> "".
Proof.
  destruct segs as [|seg segs]; [congruence|]. intros _ H.
  cbn [forallb] in H. apply andb_prop in H as [H _].
  destruct seg as [|c seg]; [discriminate H|].
  destruct segs; discriminate.
Qed.

(** X21: for a mount path that is the root or a rooted path of plain
    segments, and a name that is a plain segment, the mount path as
    [getMountPath] gives it, a slash and the name are the path that
    [path.Join] makes of the mount path and the name: the root mount
    path does not give a double slash. *)
Theorem getMountPath_join (segs : list string) (name : string) :
  forallb path.plain_segment (segs ++ [name]) = true ->
  let mountPath := "/" ++ strings.Join segs "/" in
  getMountPath mountPath ++ "/" ++ name = path.Join [mountPath; name].
Proof.
  intros Hall. cbv zeta. destruct segs as [|seg segs].
  - cbn [strings.Join app] in *. change ("/" ++ "") with "/".
    rewrite Join_root. unfold getMountPath. cbn [String.eqb Ascii.eqb].
    change ("" ++ "/" ++ name) with ("/" ++ strings.Join [name] "/").
    change ("/" ++ name) with ("/" ++ strings.Join [name] "/").
    symmetry. apply CleanTotal.Clean_plain; [discriminate | exact Hall].
  - set (segs' := seg :: segs) in *.
    assert (Hne : segs' <> []) by discriminate.
    assert (Hall' : forallb path.plain_segment segs' = true).
    { rewrite forallb_app in Hall. apply andb_prop in Hall as [H _]. exact H. }
    pose proof (Join_plain_nonempty segs' Hne Hall') as Hj.
    assert (Hm : getMountPath ("/" ++ strings.Join segs' "/") = "/" ++ strings.Join segs' "/").
    { unfold getMountPath.
      destruct (String.eqb_spec ("/" ++ strings.Join segs' "/") "/") as [E|]; [|reflexivity].
      exfalso. apply Hj. cbn in E. injection E as E. exact E. }
    rewrite Hm. rewrite Join_two by discriminate.
    replace (("/" ++ strings.Join segs' "/") ++ "/" ++ name)
      with ("/" ++ strings.Join (segs' ++ [name]) "/")
      by (rewrite strings_Join_snoc by exact Hne; reflexivity).
    symmetry. apply CleanTotal.Clean_plain; [|exact Hall].
    subst segs'. discriminate.
Qed.

Lemma getMountPath_join_witness :
  getMountPath "/" ++ "/" ++ "c" = path.Join ["/"; "c"] /\
  getMountPath "/a/b" ++ "/" ++ "c" = path.Join ["/a/b"; "c"].
Proof.
  split.
  - apply (getMountPath_join [] "c"). reflexivity.
  - apply (getMountPath_join ["a"; "b"] "c"). reflexivity.
Defined.

(* ------------------------------------------------------------------ *)
(** ** The normal form of a cleaned path *)

Module CleanNormal.
Import path.

Lemma add_slash_false out :
  add_slash false out = match out with [] => [] | _ :: _ => slash :: out end.
Proof. destruct out; reflexivity. Qed.

Lemma push_length out e :
  (List.length out + String.length e <= List.length (push out e))%nat.
Proof.
  unfold push. rewrite CleanTotal.rev_bytes_length, add_slash_false.
  destruct out; simpl; lia.
Qed.

Lemma fold_push_length els : forall out,
  (List.length out <= List.length (fold_left push els out))%nat.
Proof.
  induction els as [|e els IH]; intro out; simpl; [lia|].
  specialize (IH (push out e)). pose proof (push_length out e). lia.
Qed.

Lemma plain_segment_inv seg :
  plain_segment seg = true -> seg <> "" /\ has_slash seg = false.
Proof.
  unfold plain_segment. intro H.
  apply andb_prop in H as [H Hs]. apply andb_prop in H as [H _].
  apply andb_prop in H as [H _].
  apply negb_true_iff in H, Hs. split; [|exact Hs].
  intros ->. discriminate.
Qed.

Lemma push_plain_length out seg :
  plain_segment seg = true -> (List.length out < List.length (push out seg))%nat.
Proof.
  intro H. apply plain_segment_inv in H as [Hne _].
  pose proof (push_length out seg). destruct seg; [congruence|]. simpl in *. lia.
Qed.

(** *** Backtracking removes the last plain element *)

Lemma backtrack_rev_bytes dd B seg : forall acc,
  has_slash seg = false -> (dd < List.length acc)%nat -> backtrack acc dd = B ->
  backtrack (strings.rev_bytes seg acc) dd = B.
Proof.
  induction seg as [|c seg IH]; intros acc Hs Hlen Hb; simpl; [exact Hb|].
  simpl in Hs. apply orb_false_elim in Hs as [Hc Hs].
  apply IH; [exact Hs | simpl; lia|].
  simpl. destruct (Nat.ltb_spec dd (List.length acc)) as [_|]; [|lia].
  rewrite Hc. exact Hb.
Qed.

Lemma backtrack_push B seg dd :
  plain_segment seg = true -> (dd <= List.length B)%nat ->
  backtrack (push B seg) dd = B.
Proof.
  intros Hp Hdd. apply plain_segment_inv in Hp as [Hne Hs].
  destruct seg as [|c seg]; [congruence|].
  simpl in Hs. apply orb_false_elim in Hs as [Hc Hs].
  unfold push. cbn [strings.rev_bytes]. rewrite add_slash_false.
  apply backtrack_rev_bytes; [exact Hs | destruct B; simpl in *; lia|].
  destruct B as [|b B]; cbn [backtrack].
  - destruct ((dd <? List.length (@nil ascii))%nat && negb (Ascii.eqb c slash));
      reflexivity.
  - destruct (Nat.ltb_spec dd (List.length (slash :: b :: B))) as [_|];
      [|simpl in *; lia].
    rewrite Hc. cbn [negb andb].
    rewrite Ascii.eqb_refl. cbn [negb]. rewrite andb_false_r. reflexivity.
Qed.

(** *** The buffer of [Clean] holds a normal form *)

Lemma normal_buffer_snoc k segs seg :
  normal_buffer k (segs ++ [seg]) = push (normal_buffer k segs) seg.
Proof.
  unfold normal_buffer. rewrite app_assoc, fold_left_app. reflexivity.
Qed.

Lemma normal_buffer_up k :
  normal_buffer (S k) [] = push (normal_buffer k []) "..".
Proof.
  unfold normal_buffer. rewrite !app_nil_r.
  replace (repeat ".." (S k)) with (repeat ".." k ++ [".."])%list
    by (symmetry; apply (repeat_cons k "..")).
  rewrite fold_left_app. reflexivity.
Qed.

Lemma normal_buffer_length k segs :
  (List.length (normal_buffer k []) <= List.length (normal_buffer k segs))%nat.
Proof.
  unfold normal_buffer. rewrite app_nil_r, fold_left_app. apply fold_push_length.
Qed.

Lemma normal_buffer_longer k segs :
  forallb plain_segment segs = true -> segs <> [] ->
  (List.length (normal_buffer k []) < List.length (normal_buffer k segs))%nat.
Proof.
  intros Hall Hne. destruct (exists_last Hne) as (segs' & seg & ->).
  rewrite forallb_app in Hall. apply andb_prop in Hall as [_ Hseg].
  cbn [forallb] in Hseg. rewrite andb_true_r in Hseg.
  rewrite normal_buffer_snoc.
  pose proof (normal_buffer_length k segs').
  pose proof (push_plain_length (normal_buffer k segs') seg Hseg). lia.
Qed.

(** The element at the head of a path is cut at the next slash. *)
Lemma element_split p :
  exists seg more, p = seg ++ more /\ has_slash seg = false /\ at_end_or_slash more = true.
Proof.
  induction p as [|c p (seg & more & -> & Hs & Hm)].
  - exists "", "". repeat split.
  - destruct (Ascii.eqb c slash) eqn:Ec.
    + exists "", (String c (seg ++ more)). repeat split. exact Ec.
    + exists (String c seg), more. split; [reflexivity|]. split; [|exact Hm].
      simpl. rewrite Ec. exact Hs.
Qed.

Lemma real_element c rest :
  Ascii.eqb c slash = false ->
  Ascii.eqb c dot && at_end_or_slash rest = false ->
  (if Ascii.eqb c dot then dotdot_rest rest else None) = None ->
  exists seg more,
    String c rest = seg ++ more /\ plain_segment seg = true /\
    at_end_or_slash more = true.
Proof.
  intros Ec Hdot Hdd.
  destruct (element_split rest) as (seg & more & -> & Hs & Hm).
  exists (String c seg), more. split; [reflexivity|]. split; [|exact Hm].
  unfold plain_segment. cbn [has_slash]. rewrite Ec, Hs. cbn [orb negb andb].
  rewrite andb_true_r.
  destruct seg as [|c2 seg].
  - (* one byte: not a dot *)
    cbn [append] in Hdot. rewrite Hm, andb_true_r in Hdot.
    cbn. unfold dot in Hdot. rewrite Hdot. reflexivity.
  - destruct seg as [|c3 seg].
    + (* two bytes: not two dots *)
      destruct (Ascii.eqb_spec c dot) as [->|Hc].
      * cbn [append dotdot_rest] in Hdd. rewrite Hm, andb_true_r in Hdd.
        destruct (Ascii.eqb c2 dot) eqn:E2; [discriminate|].
        cbn. unfold dot in E2. rewrite E2. reflexivity.
      * cbn. destruct (Ascii.eqb_spec c "."%char); [contradiction | reflexivity].
    + cbn. destruct (Ascii.eqb c "."%char); cbn;
        destruct (Ascii.eqb c2 "."%char); reflexivity.
Qed.

Lemma clean_loop_normal fuel : forall p out dd r,
  normal out dd -> clean_loop fuel false p out dd = Some r -> exists dd', normal r dd'.
Proof.
  induction fuel as [|fuel IH]; intros p out dd r Hn Hr.
  - destruct p; simpl in Hr; [|discriminate]. injection Hr as <-. eauto.
  - destruct p as [|c rest]; simpl in Hr; [injection Hr as <-; eauto|].
    destruct (Ascii.eqb c slash) eqn:Ec; [eapply IH; eauto|].
    destruct (Ascii.eqb c dot && at_end_or_slash rest) eqn:Edot; [eapply IH; eauto|].
    destruct (if Ascii.eqb c dot then dotdot_rest rest else None) as [rest2|] eqn:Edd.
    + destruct Hn as (k & segs & Hall & -> & ->).
      destruct (Nat.ltb_spec (List.length (normal_buffer k []))
                  (List.length (normal_buffer k segs))) as [Hlt|Hge].
      * (* backtrack: the last plain element goes *)
        assert (Hne : segs <> []) by (intros ->; lia).
        destruct (exists_last Hne) as (segs' & seg & ->).
        rewrite forallb_app in Hall. apply andb_prop in Hall as [Hall' Hseg].
        cbn [forallb] in Hseg. rewrite andb_true_r in Hseg.
        rewrite normal_buffer_snoc, backtrack_push in Hr;
          [| exact Hseg | apply normal_buffer_length].
        eapply IH; [|exact Hr]. exists k, segs'. auto.
      * (* one more [..] *)
        assert (Hnil : segs = []).
        { destruct segs as [|s segs]; [reflexivity|].
          pose proof (normal_buffer_longer k (s :: segs) Hall ltac:(discriminate)). lia. }
        subst segs. cbn [negb] in Hr.
        eapply IH; [|exact Hr]. exists (S k), [].
        assert (E : dot :: dot :: (if (0 <? List.length (normal_buffer k []))%nat
                                   then slash :: normal_buffer k []
                                   else normal_buffer k [])
                    = normal_buffer (S k) []).
        { rewrite normal_buffer_up. unfold push. rewrite add_slash_false.
          destruct (normal_buffer k []); reflexivity. }
        rewrite E. split; [reflexivity|]. split; [reflexivity|].
        rewrite <- E. reflexivity.
    + (* a real element is pushed *)
      destruct (real_element c rest Ec Edot Edd) as (seg & more & Ep & Hseg & Hm).
      destruct (plain_segment_inv seg Hseg) as [Hne Hs].
      pose proof (CleanTotal.copy_element_segment seg more (add_slash false out) Hs Hm)
        as Hcopy.
      rewrite <- Ep in Hcopy. cbn [copy_element] in Hcopy. rewrite Ec in Hcopy.
      rewrite Hcopy in Hr.
      eapply IH; [|exact Hr].
      destruct Hn as (k & segs & Hall & -> & ->).
      exists k, (segs ++ [seg])%list.
      split; [rewrite forallb_app, Hall; cbn; rewrite Hseg; reflexivity|].
      split; [rewrite normal_buffer_snoc; reflexivity | reflexivity].
Qed.

(** *** Cleaning a normal form *)

Lemma step_slash fuel rest out dd :
  clean_loop (S fuel) false ("/" ++ rest) out dd = clean_loop fuel false rest out dd.
Proof. reflexivity. Qed.

Lemma step_plain fuel seg more out dd :
  plain_segment seg = true -> at_end_or_slash more = true ->
  clean_loop (S fuel) false (seg ++ more) out dd
  = clean_loop fuel false more (push out seg) dd.
Proof.
  intros Hp Hm. destruct (plain_segment_inv seg Hp) as [Hne Hs].
  pose proof (CleanTotal.copy_element_segment seg more (add_slash false out) Hs Hm)
    as Hcopy.
  unfold plain_segment in Hp.
  apply andb_prop in Hp as [Hp _]. apply andb_prop in Hp as [Hp Hdd].
  apply andb_prop in Hp as [_ Hd].
  apply negb_true_iff in Hdd, Hd.
  destruct seg as [|c seg]; [congruence|].
  simpl in Hs. apply orb_false_elim in Hs as [Hc Hs].
  cbn [append clean_loop]. rewrite Hc.
  assert (H2 : Ascii.eqb c dot && at_end_or_slash (seg ++ more) = false).
  { destruct (Ascii.eqb_spec c dot) as [->|]; [|reflexivity]. simpl.
    apply CleanTotal.at_end_or_slash_app; [|exact Hs].
    intros ->. discriminate. }
  rewrite H2.
  assert (H3 : (if Ascii.eqb c dot then dotdot_rest (seg ++ more) else None) = None).
  { destruct (Ascii.eqb_spec c dot) as [->|]; [|reflexivity].
    destruct seg as [|c2 seg]; [discriminate|].
    cbn [append dotdot_rest].
    destruct (Ascii.eqb_spec c2 dot) as [->|]; [|reflexivity].
    simpl in Hs. rewrite CleanTotal.at_end_or_slash_app; [reflexivity | | exact Hs].
    intros ->. discriminate. }
  rewrite H3. cbn [append] in Hcopy. rewrite Hcopy. reflexivity.
Qed.

Lemma step_up fuel more out :
  at_end_or_slash more = true ->
  clean_loop (S fuel) false (".." ++ more) out (List.length out)
  = clean_loop fuel false more (push out "..") (List.length (push out "..")).
Proof.
  intro Hm. cbn [append clean_loop dotdot_rest].
  change (Ascii.eqb "."%char slash) with false.
  change (Ascii.eqb "."%char dot) with true.
  cbn [at_end_or_slash andb]. change (Ascii.eqb "."%char slash) with false.
  rewrite Hm. cbn [andb]. rewrite Nat.ltb_irrefl. cbn [negb].
  unfold push. rewrite add_slash_false.
  destruct out; reflexivity.
Qed.

Lemma trailing_app (a b : list string) : trailing (a ++ b) = trailing a ++ trailing b.
Proof.
  induction a as [|e a IH]; [reflexivity|].
  cbn [app trailing]. rewrite IH, !append_assoc. reflexivity.
Qed.

Lemma run_segs segs : forall fuel out dd,
  forallb plain_segment segs = true ->
  (String.length (trailing segs) <= fuel)%nat ->
  clean_loop fuel false (trailing segs) out dd = Some (fold_left push segs out).
Proof.
  induction segs as [|seg segs IH]; intros fuel out dd Hall Hlen.
  - destruct fuel; reflexivity.
  - cbn [forallb] in Hall. apply andb_prop in Hall as [Hseg Hall].
    destruct (plain_segment_inv seg Hseg) as [Hne _].
    cbn [trailing] in *. rewrite !CleanTotal.String_length_append in Hlen.
    cbn [String.length] in Hlen.
    assert (1 <= String.length seg)%nat by (destruct seg; [congruence | simpl; lia]).
    destruct fuel as [|[|fuel]]; try (exfalso; lia).
    rewrite step_plain by (auto; reflexivity).
    rewrite step_slash. cbn [fold_left]. apply IH; [exact Hall | lia].
Qed.

Lemma run_ups k segs : forall fuel out,
  forallb plain_segment segs = true ->
  (String.length (trailing (repeat ".." k ++ segs)) <= fuel)%nat ->
  clean_loop fuel false (trailing (repeat ".." k ++ segs)) out (List.length out)
  = Some (fold_left push (repeat ".." k ++ segs) out).
Proof.
  induction k as [|k IH]; intros fuel out Hall Hlen.
  - apply run_segs; assumption.
  - cbn [repeat app trailing] in *.
    change (".." ++ "/" ++ trailing (repeat ".." k ++ segs))
      with (".." ++ String slash (trailing (repeat ".." k ++ segs))) in *.
    cbn [append String.length] in Hlen.
    destruct fuel as [|[|fuel]]; try (exfalso; lia).
    rewrite step_up by reflexivity.
    change (String slash (trailing (repeat ".." k ++ segs)))
      with ("/" ++ trailing (repeat ".." k ++ segs)).
    rewrite step_slash. cbn [fold_left]. apply IH; [exact Hall | lia].
Qed.

(** *** The string in the buffer *)

Lemma buffer_string_rev_bytes s : buffer_string (strings.rev_bytes s []) = s.
Proof.
  unfold buffer_string. rewrite rev_bytes_spec, app_nil_r, rev_involutive.
  apply string_of_list_ascii_of_string.
Qed.

Lemma rev_bytes_buffer_string out : strings.rev_bytes (buffer_string out) [] = out.
Proof.
  unfold buffer_string. rewrite rev_bytes_spec, app_nil_r.
  rewrite list_ascii_of_string_of_list_ascii. apply rev_involutive.
Qed.

Lemma fold_push_Join els : forall out,
  els <> [] -> Forall (fun e => e <> "") els ->
  fold_left push els out = strings.rev_bytes (strings.Join els "/") (add_slash false out).
Proof.
  induction els as [|e els IH]; intros out Hne Hall; [congruence|].
  inversion Hall as [|e' els' He Hall']; subst.
  destruct els as [|e2 els]; [reflexivity|].
  cbn [fold_left]. change (fold_left push els (push (push out e) e2))
    with (fold_left push (e2 :: els) (push out e)).
  rewrite IH by (auto; discriminate).
  change (strings.Join (e :: e2 :: els) "/")
    with (e ++ "/" ++ strings.Join (e2 :: els) "/").
  rewrite !rev_bytes_app. cbn [strings.rev_bytes].
  f_equal. rewrite add_slash_false. unfold push.
  destruct (strings.rev_bytes e (add_slash false out)) eqn:E; [|reflexivity].
  exfalso. pose proof (CleanTotal.rev_bytes_length e (add_slash false out)) as L.
  rewrite E in L. destruct e; [congruence | simpl in L; lia].
Qed.

Lemma trailing_Join els : els <> [] -> trailing els = strings.Join els "/" ++ "/".
Proof.
  induction els as [|e els IH]; [congruence|]. intros _.
  destruct els as [|e2 els]; [reflexivity|].
  change (trailing (e :: e2 :: els)) with (e ++ "/" ++ trailing (e2 :: els)).
  rewrite IH by discriminate.
  change (strings.Join (e :: e2 :: els) "/")
    with (e ++ "/" ++ strings.Join (e2 :: els) "/").
  rewrite !append_assoc. reflexivity.
Qed.

Lemma normal_elements k segs :
  forallb plain_segment segs = true ->
  Forall (fun e => e <> "" /\ has_slash e = false) (repeat ".." k ++ segs).
Proof.
  intro Hall. apply Forall_app. split.
  - apply Forall_forall. intros e He. apply repeat_spec in He as ->.
    split; [discriminate | reflexivity].
  - apply Forall_forall. intros e He.
    rewrite forallb_forall in Hall. apply plain_segment_inv. apply Hall. exact He.
Qed.

Lemma rev_bytes_head e : forall acc,
  e <> "" -> has_slash e = false ->
  exists c t, strings.rev_bytes e acc = c :: t /\ Ascii.eqb c slash = false.
Proof.
  induction e as [|c e IH]; intros acc Hne Hs; [congruence|].
  simpl in Hs. apply orb_false_elim in Hs as [Hc Hs]. cbn [strings.rev_bytes].
  destruct e as [|c2 e].
  - exists c, acc. split; [reflexivity | exact Hc].
  - apply IH; [discriminate | exact Hs].
Qed.

Lemma fold_push_head els : forall out,
  els <> [] -> Forall (fun e => e <> "" /\ has_slash e = false) els ->
  exists c t, fold_left push els out = c :: t /\ Ascii.eqb c slash = false.
Proof.
  intros out Hne Hall. destruct (exists_last Hne) as (els' & e & ->).
  rewrite fold_left_app. cbn [fold_left].
  apply Forall_app in Hall as [_ He]. inversion He as [|? ? [Hn Hs] _]; subst.
  apply rev_bytes_head; assumption.
Qed.

(** [Clean] of a path that is not rooted does not end with a slash, and
    [Clean] of it with a slash added gives it back. *)
Lemma Clean_slash p :
  IsAbs p = false ->
  strings.HasSuffix (Clean p) "/" = false /\ Clean (Clean p ++ "/") = Clean p.
Proof.
  intro Hp. destruct p as [|c rest]; [split; reflexivity|].
  cbn [IsAbs] in Hp.
  destruct (CleanTotal.clean_loop_total (String.length (String c rest)) false
              (String c rest) [] 0 (le_n _)) as [r Hr].
  assert (Hc : Clean (String c rest) = match r with [] => "." | _ => buffer_string r end).
  { unfold Clean. rewrite Hp, Hr. reflexivity. }
  destruct (clean_loop_normal _ _ _ _ _ (ex_intro _ 0%nat (ex_intro _ []
              (conj eq_refl (conj eq_refl eq_refl)))) Hr)
    as (dd' & k & segs & Hall & Er & _).
  rewrite Hc. destruct r as [|d r']; [split; reflexivity|].
  set (els := (repeat ".." k ++ segs)%list) in *.
  assert (Hne : els <> []).
  { intro E. unfold normal_buffer in Er. fold els in Er. rewrite E in Er. discriminate. }
  pose proof (normal_elements k segs Hall) as Hels. fold els in Hels.
  assert (Hj : buffer_string (d :: r') = strings.Join els "/").
  { rewrite Er. unfold normal_buffer. fold els. rewrite fold_push_Join.
    - apply buffer_string_rev_bytes.
    - exact Hne.
    - eapply Forall_impl; [|exact Hels]. intros e [H _]. exact H. }
  destruct (fold_push_head els [] Hne Hels) as (c0 & t0 & E0 & Hc0).
  assert (Ed : d = c0).
  { unfold normal_buffer in Er. fold els in Er. rewrite E0 in Er. congruence. }
  subst c0. split.
  - unfold strings.HasSuffix. rewrite rev_bytes_buffer_string.
    cbn [strings.rev_bytes strings.prefix_bytes]. fold slash. rewrite Hc0. reflexivity.
  - rewrite Hj. rewrite <- trailing_Join by exact Hne.
    assert (Hrun : forall fuel, (String.length (trailing els) <= fuel)%nat ->
              clean_loop fuel false (trailing els) [] 0 = Some (d :: r')).
    { intros fuel Hf. rewrite Er. unfold normal_buffer. fold els.
      unfold els. apply (run_ups k segs fuel []); [exact Hall | exact Hf]. }
    assert (Habs : IsAbs (trailing els) = false).
    { rewrite trailing_Join by exact Hne. rewrite <- Hj.
      rewrite IsAbs_app by apply CleanFacts.buffer_string_nonempty.
      apply CleanFacts.IsAbs_buffer_string.
      eapply CleanFacts.clean_loop_unrooted; [|exact Hr]. apply CleanFacts.unrooted_nil. }
    destruct (trailing els) as [|c1 rest1] eqn:Et.
    + exfalso. rewrite trailing_Join in Et by exact Hne.
      destruct (strings.Join els "/"); discriminate.
    + unfold Clean. cbn [IsAbs] in Habs. rewrite Habs.
      rewrite Hrun by apply le_n. rewrite <- Hj. reflexivity.
Qed.

End CleanNormal.

(* ------------------------------------------------------------------ *)
(** ** Validating twice *)

Lemma check_key_prefix_value (kp : string) :
  kp <> "" -> strings.HasPrefix kp "/" = false ->
  check_key_prefix kp = (None, path.Clean kp ++ "/").
Proof.
  intros Hne Hp. unfold check_key_prefix.
  rewrite (eqb_empty_false kp Hne), Hp. cbn [negb].
  rewrite HasPrefix_slash in Hp.
  destruct (CleanNormal.Clean_slash kp Hp) as [Hs _]. rewrite Hs. reflexivity.
Qed.

Lemma check_key_prefix_again (kp : string) :
  strings.HasPrefix kp "/" = false ->
  check_key_prefix (snd (check_key_prefix kp)) = (None, snd (check_key_prefix kp)).
Proof.
  intro Hp. destruct (String.eqb_spec kp "") as [->|Hne]; [reflexivity|].
  rewrite (check_key_prefix_value kp Hne Hp). cbn [snd].
  pose proof Hp as Habs. rewrite HasPrefix_slash in Habs.
  destruct (CleanFacts.Clean_unrooted kp Habs) as [Hcne Hcabs].
  destruct (CleanNormal.Clean_slash kp Habs) as [Hs Hc].
  rewrite check_key_prefix_value.
  - rewrite Hc. reflexivity.
  - destruct (path.Clean kp); [congruence | discriminate].
  - rewrite HasPrefix_slash, IsAbs_app by exact Hcne. exact Hcabs.
Qed.

Lemma S3_validate_again TrimSpace c c' :
  (forall s, TrimSpace (TrimSpace s) = TrimSpace s) ->
  S3FsConfig.validate TrimSpace c = Returns (None, c') ->
  S3FsConfig.validate TrimSpace c' = Returns (None, c').
Proof.
  intros Htrim Hv.
  destruct (S3_validate_cases TrimSpace c) as (e & c1 & Hv1 & Hacc & Hnorm & _).
  rewrite Hv in Hv1. injection Hv1 as <- <-.
  specialize (Hnorm eq_refl). destruct Hacc as [Hacc _]. specialize (Hacc eq_refl).
  destruct Hacc as (Hb & Her & Hcred & Hp & Hsz).
  pose proof (check_key_prefix_again _ Hp) as Hkp.
  destruct (S3_validate_cases TrimSpace c') as (e2 & c2 & Hv2 & Hacc2 & Hnorm2 & _).
  assert (Hacc' : S3_acceptable c').
  { subst c'. unfold S3_acceptable, S3_normalised.
    cbn [S3FsConfig.base S3FsConfig.AccessSecret S3FsConfig.Bucket S3FsConfig.Endpoint
         S3FsConfig.Region S3FsConfig.AccessKey S3FsConfig.KeyPrefix secret_or_empty].
    repeat split; try assumption; try apply Hcred.
    - apply check_key_prefix_error. rewrite Hkp. reflexivity.
    - destruct Hsz as (H1 & H2 & H3 & H4). exact H1.
    - destruct Hsz as (H1 & H2 & H3 & H4). apply H2.
    - destruct Hsz as (H1 & H2 & H3 & H4). apply H2.
    - destruct Hsz as (H1 & H2 & H3 & H4). exact H3.
    - destruct Hsz as (H1 & H2 & H3 & H4). apply H4.
    - destruct Hsz as (H1 & H2 & H3 & H4). apply H4. }
  apply Hacc2 in Hacc'. subst e2. rewrite Hv2. rewrite (Hnorm2 eq_refl).
  do 2 f_equal. subst c'. unfold S3_normalised.
  cbn [S3FsConfig.base S3FsConfig.AccessSecret S3FsConfig.Bucket S3FsConfig.Endpoint
       S3FsConfig.Region S3FsConfig.AccessKey S3FsConfig.KeyPrefix S3FsConfig.RoleARN
       S3FsConfig.StorageClass S3FsConfig.ACL S3FsConfig.UploadPartSize
       S3FsConfig.UploadConcurrency S3FsConfig.DownloadPartSize
       S3FsConfig.DownloadConcurrency S3FsConfig.DownloadPartMaxTime
       S3FsConfig.UploadPartMaxTime S3FsConfig.ForcePathStyle secret_or_empty].
  rewrite Hkp, !Htrim. reflexivity.
Qed.

Lemma GCS_validate_again TrimSpace c c' :
  (forall s, TrimSpace (TrimSpace s) = TrimSpace s) ->
  GCSFsConfig.validate TrimSpace c = Returns (None, c') ->
  GCSFsConfig.validate TrimSpace c' = Returns (None, c').
Proof.
  intros Htrim Hv.
  destruct (GCS_validate_cases TrimSpace c) as (e & c1 & Hv1 & Hacc & Hnorm & _).
  rewrite Hv in Hv1. injection Hv1 as <- <-.
  specialize (Hnorm eq_refl). destruct Hacc as [Hacc _]. specialize (Hacc eq_refl).
  destruct Hacc as (Hb & Hp & Henc & Hin).
  pose proof (check_key_prefix_again _ Hp) as Hkp.
  assert (Hcred : GCS_credentials c' = GCS_credentials c).
  { subst c'. unfold GCS_credentials, GCS_normalised.
    cbn [GCSFsConfig.base GCSFsConfig.AutomaticCredentials GCSFsConfig.Credentials
         secret_or_empty].
    destruct (GCSFsConfig.AutomaticCredentials (GCSFsConfig.base c) =? 1)%Z eqn:E;
      unfold GCS_credentials; rewrite ?E; reflexivity. }
  destruct (GCS_validate_cases TrimSpace c') as (e2 & c2 & Hv2 & Hacc2 & Hnorm2 & _).
  assert (Hacc' : GCS_acceptable c').
  { unfold GCS_acceptable. rewrite Hcred. subst c'. unfold GCS_normalised.
    cbn [GCSFsConfig.base GCSFsConfig.Bucket GCSFsConfig.KeyPrefix
         GCSFsConfig.AutomaticCredentials].
    split; [exact Hb|]. split; [|split; assumption].
    apply check_key_prefix_error. rewrite Hkp. reflexivity. }
  apply Hacc2 in Hacc'. subst e2. rewrite Hv2. rewrite (Hnorm2 eq_refl).
  do 2 f_equal. unfold GCS_normalised at 1. rewrite Hcred. subst c'.
  unfold GCS_normalised.
  cbn [GCSFsConfig.base GCSFsConfig.Bucket GCSFsConfig.KeyPrefix
       GCSFsConfig.AutomaticCredentials GCSFsConfig.StorageClass GCSFsConfig.ACL
       GCSFsConfig.UploadPartSize GCSFsConfig.UploadPartMaxTime].
  rewrite Hkp, !Htrim. cbn [snd].
  rewrite !(Z.max_r 0 (Z.max 0 _)) by lia. reflexivity.
Qed.

Lemma Az_validate_again url_Parse c c' :
  AzBlobFsConfig.validate url_Parse c = Returns (None, c') ->
  AzBlobFsConfig.validate url_Parse c' = Returns (None, c').
Proof.
  intros Hv.
  destruct (Az_validate_cases url_Parse c) as (e & c1 & Hv1 & Hacc & Hnorm & _).
  rewrite Hv in Hv1. injection Hv1 as <- <-.
  specialize (Hnorm eq_refl). destruct Hacc as [Hacc _]. specialize (Hacc eq_refl).
  destruct Hacc as (Hcont & Hcred & Hp & Hsz & Htier).
  pose proof (check_key_prefix_again _ Hp) as Hkp.
  destruct (Az_validate_cases url_Parse c') as (e2 & c2 & Hv2 & Hacc2 & Hnorm2 & _).
  assert (Hacc' : Az_acceptable url_Parse c').
  { subst c'. unfold Az_acceptable, Az_normalised, AzBlobFsConfig.set_KeyPrefix, Az_sizes_ok
      in *.
    cbn [AzBlobFsConfig.base AzBlobFsConfig.AccountKey AzBlobFsConfig.SASURL
         AzBlobFsConfig.Container AzBlobFsConfig.AccountName AzBlobFsConfig.KeyPrefix
         AzBlobFsConfig.UploadPartSize AzBlobFsConfig.UploadConcurrency
         AzBlobFsConfig.DownloadPartSize AzBlobFsConfig.DownloadConcurrency
         AzBlobFsConfig.AccessTier secret_or_empty].
    split; [exact Hcont|]. split; [exact Hcred|]. split; [|split; assumption].
    apply check_key_prefix_error. rewrite Hkp. reflexivity. }
  apply Hacc2 in Hacc'. subst e2. rewrite Hv2. rewrite (Hnorm2 eq_refl).
  do 2 f_equal. subst c'. unfold Az_normalised, AzBlobFsConfig.set_KeyPrefix.
  cbn [AzBlobFsConfig.base AzBlobFsConfig.AccountKey AzBlobFsConfig.SASURL
       AzBlobFsConfig.Container AzBlobFsConfig.AccountName AzBlobFsConfig.KeyPrefix
       AzBlobFsConfig.Endpoint AzBlobFsConfig.UseEmulator
       AzBlobFsConfig.UploadPartSize AzBlobFsConfig.UploadConcurrency
       AzBlobFsConfig.DownloadPartSize AzBlobFsConfig.DownloadConcurrency
       AzBlobFsConfig.AccessTier secret_or_empty].
  rewrite Hkp. reflexivity.
Qed.

(** X22: [validate] is idempotent.  When [validate] has accepted an S3,
    GCS or Azure Blob configuration, validating the configuration it
    left accepts it again and changes nothing (for S3 and GCS provided
    trimming white space twice is trimming it once).  The key prefix it
    leaves, when there is one, is [path.Clean] of the prefix with a
    slash added: a cleaned prefix never ends with a slash, so the slash
    is added every time. *)
Theorem validate_idempotent (TrimSpace : string -> string)
    (url_Parse : string -> option error) :
  (forall s, TrimSpace (TrimSpace s) = TrimSpace s) ->
  (forall c c', S3FsConfig.validate TrimSpace c = Returns (None, c') ->
     S3FsConfig.validate TrimSpace c' = Returns (None, c')) /\
  (forall c c', GCSFsConfig.validate TrimSpace c = Returns (None, c') ->
     GCSFsConfig.validate TrimSpace c' = Returns (None, c')) /\
  (forall c c', AzBlobFsConfig.validate url_Parse c = Returns (None, c') ->
     AzBlobFsConfig.validate url_Parse c' = Returns (None, c')) /\
  (forall kp, kp <> "" -> strings.HasPrefix kp "/" = false ->
     check_key_prefix kp = (None, path.Clean kp ++ "/") /\
     check_key_prefix (path.Clean kp ++ "/") = (None, path.Clean kp ++ "/")).
Proof.
  intro Htrim. split; [|split; [|split]].
  - intros c c'. apply S3_validate_again. exact Htrim.
  - intros c c'. apply GCS_validate_again. exact Htrim.
  - intros c c'. apply Az_validate_again.
  - intros kp Hne Hp. split; [apply check_key_prefix_value; assumption|].
    pose proof (check_key_prefix_again kp Hp) as H.
    rewrite (check_key_prefix_value kp Hne Hp) in H. exact H.
Qed.

Lemma validate_idempotent_witness :
  S3FsConfig.validate no_trim (S3_normalised no_trim s3_example)
  = Returns (None, S3_normalised no_trim s3_example) /\
  GCSFsConfig.validate no_trim (GCS_normalised no_trim gcs_example)
  = Returns (None, GCS_normalised no_trim gcs_example) /\
  AzBlobFsConfig.validate url_ok (Az_normalised az_example)
  = Returns (None, Az_normalised az_example) /\
  check_key_prefix "a//b/../c" = (None, "a/c/").
Proof.
  destruct (validate_idempotent no_trim url_ok (fun s => eq_refl))
    as (HS3 & HGCS & HAz & Hkp).
  split; [|split; [|split]].
  - apply (HS3 s3_example). reflexivity.
  - apply (HGCS gcs_example). reflexivity.
  - apply (HAz az_example). reflexivity.
  - refine (proj1 (Hkp "a//b/../c" _ eq_refl)). discriminate.
Defined.

(* ------------------------------------------------------------------ *)
(** ** Metadata check: the removals of a whole run *)

Lemma expected_removals_no_listing t : forall last,
  forallb (fun c => negb (is_listing c)) t = true -> expected_removals last t = [].
Proof.
  induction t as [|c t IH]; intros last H; [reflexivity|].
  cbn [forallb] in H. apply andb_prop in H as [Hc H].
  destruct c as [| | ? ? [? ?] | ? [? [?|]] | |]; cbn [expected_removals];
    try (apply IH; exact H).
  discriminate Hc.
Qed.

(** X23: over a whole run of [fsMetadataCheck], whatever the plugin and
    the backend answer, the calls of [RemoveMetadata] are, in order,
    exactly those that the successful listings of the backend call for:
    at each, one call for each key of the modification times fetched
    just before that the listing does not have.  So a run in which no
    listing succeeded removes nothing. *)
Theorem fsMetadataCheck_removes_exactly {S} (h : handler S) (s : S) (pages : nat)
    (fs : Fs) (storageID keyPrefix : string) :
  let t := fst (fst (exec h (fsMetadataCheck pages fs storageID keyPrefix) s)) in
  removals t = expected_removals None t /\
  (forallb (fun c => negb (is_listing c)) t = true -> removals t = []).
Proof.
  cbv zeta.
  destruct (exec h (fsMetadataCheck pages fs storageID keyPrefix) s) as [[t r] s'] eqn:E.
  cbn [fst snd].
  pose proof (fsMetadataCheck_removals h s pages fs storageID keyPrefix t r s' E) as H.
  split; [exact H|].
  intro Hn. rewrite H. apply expected_removals_no_listing. exact Hn.
Qed.
